(** * GitHerd: the branch synchronisation engine, embedded in Rocq

    A shallow embedding of [githerd_pkg/git_utils.py],
    [githerd_pkg/repo_tab/sync.py], the health check, the initial scan, the
    polling loop and the polling switch of [githerd_pkg/repo_tab/polling.py],
    and the status functions of [githerd_pkg/app/tabs.py] and
    [githerd_pkg/app/core.py] that read the state of a tab.

    Python integers are [Z], [str] is [string] (ASCII text), a [dict] with
    string keys is a [gmap string _], a [set] of file names is a
    [gset string] and a Python list is a [list].  Code that mutates [self]
    or talks to the outside world (the git subprocess, the settings file,
    the widgets) is written in a state monad whose result is either a
    returned value or a raised exception; a raised exception keeps the
    state mutations made before it, as in Python.

    The world answers each subprocess by an oracle indexed by the number of
    subprocesses run so far, so that the same command may be answered
    differently at different times; it records the subprocesses started,
    the settings file and the notifications requested.  Threads are not
    modelled: a worker started by the sources runs where it is started, the
    lock is a flag, and the polling loop is unrolled a given number of
    rounds.  Log lines, the button text and the countdown label are left
    out; they are written and never read by the engine.

    The file has two parts: the definitions (the embedding, then the
    vocabulary of the statements and a few concrete repositories), and the
    theorems. *)

From stdpp Require Import base strings gmap list pretty.
From Stdlib Require Import Ascii ZArith.

(** ** Python built-ins used by the sources *)

Module Py.

(** [str.isspace] on ASCII: TAB..CR, FS..US and the blank. *)
Definition isspace (c : ascii) : bool :=
  let n := nat_of_ascii c in
  ((9 <=? n)%nat && (n <=? 13)%nat) || ((28 <=? n)%nat && (n <=? 32)%nat).

Fixpoint lstrip (s : string) : string :=
  match s with
  | EmptyString => EmptyString
  | String c r => if isspace c then lstrip r else s
  end.

Fixpoint rstrip (s : string) : string :=
  match s with
  | EmptyString => EmptyString
  | String c r =>
      match rstrip r with
      | EmptyString => if isspace c then EmptyString else String c EmptyString
      | r' => String c r'
      end
  end.

(** [s.strip()] *)
Definition strip (s : string) : string := rstrip (lstrip s).

(** The ASCII line boundaries of [str.splitlines]:
    LF, VT, FF, CR, FS, GS, RS. *)
Definition is_linebreak (c : ascii) : bool :=
  let n := nat_of_ascii c in
  ((10 <=? n)%nat && (n <=? 13)%nat) || ((28 <=? n)%nat && (n <=? 30)%nat).

Definition is_cr (c : ascii) : bool := (nat_of_ascii c =? 13)%nat.
Definition is_lf (c : ascii) : bool := (nat_of_ascii c =? 10)%nat.

Fixpoint splitlines_go (cur : option string) (s : string) : list string :=
  match s with
  | EmptyString => match cur with None => [] | Some l => [l] end
  | String c rest =>
      if is_linebreak c then
        default "" cur ::
          match rest with
          | String c' rest' =>
              if is_cr c && is_lf c' then splitlines_go None rest'
              else splitlines_go None rest
          | EmptyString => []
          end
      else splitlines_go (Some (default "" cur +:+ String c "")) rest
  end.

(** [s.splitlines()] *)
Definition splitlines (s : string) : list string := splitlines_go None s.

(** [s.replace(old, new)] for a non-empty [old]: every non-overlapping
    occurrence, left to right.  [skip] counts the characters of a match
    that are still to be dropped. *)
Fixpoint replace_go (old new : string) (skip : nat) (s : string) : string :=
  match s with
  | EmptyString => EmptyString
  | String c rest =>
      match skip with
      | S k => replace_go old new k rest
      | O =>
          if String.prefix old s
          then new +:+ replace_go old new (String.length old - 1) rest
          else String c (replace_go old new 0 rest)
      end
  end.

Definition replace (s old new : string) : string := replace_go old new 0 s.

(** [sep.join(parts)] *)
Fixpoint join (sep : string) (parts : list string) : string :=
  match parts with
  | [] => ""
  | [p] => p
  | p :: ps => p +:+ sep +:+ join sep ps
  end.

(** [s[:n]] *)
Definition slice_to (n : nat) (s : string) : string := String.substring 0 (Nat.min n (String.length s)) s.

Definition digit_val (c : ascii) : option Z :=
  let n := nat_of_ascii c in
  if (48 <=? n)%nat && (n <=? 57)%nat then Some (Z.of_nat (n - 48)) else None.

Definition is_underscore (c : ascii) : bool := (nat_of_ascii c =? 95)%nat.

(** Digits with single underscores between them. *)
Fixpoint parse_digits (acc : Z) (after_digit : bool) (s : string) : option Z :=
  match s with
  | EmptyString => if after_digit then Some acc else None
  | String c r =>
      if is_underscore c then
        if after_digit then parse_digits acc false r else None
      else
        match digit_val c with
        | Some d => parse_digits (10 * acc + d)%Z true r
        | None => None
        end
  end.

(** The number of decimal digits in [s]. *)
Fixpoint digit_count (s : string) : Z :=
  match s with
  | EmptyString => 0%Z
  | String c r =>
      match digit_val c with
      | Some _ => (1 + digit_count r)%Z
      | None => digit_count r
      end
  end.

(** [sys.get_int_max_str_digits()] as CPython sets it by default: a
    literal with more digits is refused by [int]. *)
Definition int_max_str_digits : Z := 4300%Z.

(** [int(s)] in base 10; [None] stands for [ValueError], which is raised
    for a text that is no number and for a number of more than
    [int_max_str_digits] digits. *)
Definition int (s : string) : option Z :=
  match strip s with
  | String c r =>
      let signed := (nat_of_ascii c =? 43)%nat || (nat_of_ascii c =? 45)%nat in
      if (int_max_str_digits <? digit_count (if signed then r else String c r))%Z
      then None
      else if (nat_of_ascii c =? 43)%nat then parse_digits 0 false r
      else if (nat_of_ascii c =? 45)%nat then Z.opp <$> parse_digits 0 false r
      else parse_digits 0 false (String c r)
  | EmptyString => None
  end.

(** [str(n)] and the [{n}] of an f-string *)
Definition str (n : Z) : string := pretty n.

(** [s.split(sep)] for a separator of one character. *)
Fixpoint split_go (sep : ascii) (cur : string) (s : string) : list string :=
  match s with
  | EmptyString => [cur]
  | String c rest =>
      if Ascii.eqb c sep then cur :: split_go sep "" rest
      else split_go sep (cur +:+ String c "") rest
  end.

Definition split (s : string) (sep : ascii) : list string := split_go sep "" s.

(** The two hexadecimal digits of [\xNN]. *)
Definition hex_digit (n : nat) : ascii :=
  ascii_of_nat (if (n <? 10)%nat then 48 + n else 87 + n).

(** [repr(s)] on ASCII: the quote is the apostrophe unless the text holds an
    apostrophe and no double quote; the quote and the backslash are
    escaped, TAB, LF and CR are written [\t], [\n], [\r], the other control
    characters [\xNN]. *)
Definition is_apostrophe (c : ascii) : bool := (nat_of_ascii c =? 39)%nat.
Definition is_double_quote (c : ascii) : bool := (nat_of_ascii c =? 34)%nat.
Definition is_backslash (c : ascii) : bool := (nat_of_ascii c =? 92)%nat.

Fixpoint contains_char (p : ascii -> bool) (s : string) : bool :=
  match s with
  | EmptyString => false
  | String c rest => p c || contains_char p rest
  end.

Definition repr_char (quote : ascii) (c : ascii) : string :=
  let n := nat_of_ascii c in
  if Ascii.eqb c quote || is_backslash c then String (ascii_of_nat 92) (String c "")
  else if (n =? 9)%nat then String (ascii_of_nat 92) "t"
  else if (n =? 10)%nat then String (ascii_of_nat 92) "n"
  else if (n =? 13)%nat then String (ascii_of_nat 92) "r"
  else if (n <? 32)%nat || (n =? 127)%nat
  then String (ascii_of_nat 92)
         (String "x" (String (hex_digit (n / 16)) (String (hex_digit (n mod 16)) "")))
  else String c "".

Fixpoint repr_body (quote : ascii) (s : string) : string :=
  match s with
  | EmptyString => EmptyString
  | String c rest => repr_char quote c +:+ repr_body quote rest
  end.

Definition repr (s : string) : string :=
  let quote :=
    if contains_char is_apostrophe s && negb (contains_char is_double_quote s)
    then ascii_of_nat 34 else ascii_of_nat 39 in
  String quote (repr_body quote s) +:+ String quote "".


(** The scan [int] makes of the digits at the head of a literal, sign and
    surrounding blanks apart: their number, underscores not counted, or
    [None] when an underscore is misplaced among them. *)
Fixpoint scan_digits (after_underscore : bool) (digits : Z) (s : string) : option Z :=
  match s with
  | EmptyString => if after_underscore then None else Some digits
  | String c r =>
      if is_underscore c then
        if after_underscore then None else scan_digits true digits r
      else
        match digit_val c with
        | Some _ => scan_digits false (digits + 1)%Z r
        | None => if after_underscore then None else Some digits
        end
  end.

(** The message of the [ValueError] of [int(s)]: the digits at the head of
    the literal are counted before the rest of it is looked at, so the
    limit is reported first; the literal is shown by [repr], cut at 200
    characters. *)
Definition int_error (s : string) : string :=
  let invalid := "invalid literal for int() with base 10: " +:+ slice_to 200 (repr s) in
  match strip s with
  | String c r =>
      let signed := (nat_of_ascii c =? 43)%nat || (nat_of_ascii c =? 45)%nat in
      match (if signed then r else String c r) with
      | String c' r' =>
          if is_underscore c' then invalid
          else
            match scan_digits false 0%Z (String c' r') with
            | Some digits =>
                if (int_max_str_digits <? digits)%Z then
                  "Exceeds the limit (" +:+ str int_max_str_digits
                    +:+ " digits) for integer string conversion: value has "
                    +:+ str digits
                    +:+ " digits; use sys.set_int_max_str_digits() to increase the limit"
                else invalid
            | None => invalid
            end
      | EmptyString => invalid
      end
  | EmptyString => invalid
  end.
End Py.

(** ** Results, exceptions and the state monad *)

(** The exceptions the sources raise or can meet. *)
Inductive exn : Type :=
| RuntimeError (msg : string)   (* raise RuntimeError(err) *)
| ValueError (literal : string) (* int(out) refuses the literal *)
| IndexError                    (* cmd[0] on an empty list *).

(** The outcome of running a Python function: it returns or it raises. *)
Inductive outcome (A : Type) : Type :=
| Return (a : A)
| Raise (e : exn).
Arguments Return {A} a.
Arguments Raise {A} e.

Definition returns {A} (o : outcome A) : bool :=
  match o with Return _ => true | Raise _ => false end.

(** A computation over a state [S].  The state after a [Raise] is the one
    reached when the exception was thrown. *)
Definition M (S A : Type) : Type := S -> outcome A * S.

Definition ret {S A} (a : A) : M S A := fun s => (Return a, s).
Definition raise {S A} (e : exn) : M S A := fun s => (Raise e, s).

Definition bind {S A B} (c : M S A) (k : A -> M S B) : M S B :=
  fun s =>
    match c s with
    | (Return a, s') => k a s'
    | (Raise e, s') => (Raise e, s')
    end.

Definition get {S} : M S S := fun s => (Return s, s).
Definition gets {S A} (f : S -> A) : M S A := fun s => (Return (f s), s).
Definition modify {S} (f : S -> S) : M S unit := fun s => (Return tt, f s).

(** [try: body finally: cleanup] *)
Definition try_finally {S A} (body : M S A) (cleanup : M S unit) : M S A :=
  fun s =>
    match body s with
    | (r, s') =>
        match cleanup s' with
        | (Return _, s'') => (r, s'')
        | (Raise e, s'') => (Raise e, s'')
        end
    end.

(** [try: body except: handler] with a bare [except] (or
    [except Exception]). *)
Definition try_except {S A} (body : M S A) (handler : exn -> M S A) : M S A :=
  fun s =>
    match body s with
    | (Return a, s') => (Return a, s')
    | (Raise e, s') => handler e s'
    end.

Declare Scope py_scope.
Delimit Scope py_scope with py.
Notation "'let*' x ':=' c 'in' k" := (bind c (fun x => k))
  (at level 10, x pattern, c at level 100, k at level 200) : py_scope.
Notation "c ';;' k" := (bind c (fun _ => k))
  (at level 100, k at level 200, right associativity) : py_scope.
Local Open Scope py_scope.

(** [if cond: body] with no [else] *)
Definition when {S} (b : bool) (c : M S unit) : M S unit :=
  if b then c else ret tt.

(** [for x in xs: body x] *)
Fixpoint for_each {S A} (xs : list A) (body : A -> M S unit) : M S unit :=
  match xs with
  | [] => ret tt
  | x :: xs' => body x ;; for_each xs' body
  end.

(** ** The outside world: subprocesses, the settings file, notifications *)

(** What [subprocess.run(cmd, ..., timeout=t)] does: the process completes
    with an exit code and its two output streams, or one of the exceptions
    [run_git] distinguishes is raised. *)
Inductive subprocess_result : Type :=
| Completed (returncode : Z) (stdout stderr : string)
| TimeoutExpired
| FileNotFoundError
| OtherException (msg : string).

Record invocation : Type := Invocation {
  inv_cmd : list string;
  inv_cwd : option string;
  inv_timeout : Z
}.

(** The global settings, as far as the engine reads them.  A missing key is
    [None]; [other_settings] stands for every key the engine never looks
    at. *)
Record settings : Type := Settings {
  branch_update_enabled : option (gmap string (gmap string bool));
  sync_new_branches_by_default : option bool;
  other_settings : gmap string string
}.

(** What the notification sink is handed: a sound, a desktop notification,
    or the "health changed" event with the flag and the message. *)
Inductive notification : Type :=
| Sound (name : string)
| Desktop (title message urgency : string)
| Health_changed (healthy : bool) (message : string).

(** [os n inv] is the behaviour of the [n]-th subprocess ever started when
    it is started with invocation [inv]; [operator_stop n] tells whether the
    operator's stop signal arrives during the [n]-th wait of the polling
    loop. *)
Record world : Type := World {
  os : nat -> invocation -> subprocess_result;
  clock : nat;
  history : list invocation;
  settings_file : settings;
  notifications : list notification;
  operator_stop : nat -> bool;
  waits : nat
}.

Definition world_ran (inv : invocation) (w : world) : world :=
  {| os := os w; clock := S (clock w); history := history w ++ [inv];
     settings_file := settings_file w; notifications := notifications w;
     operator_stop := operator_stop w; waits := waits w |}.

Definition world_saved (st : settings) (w : world) : world :=
  {| os := os w; clock := clock w; history := history w;
     settings_file := st; notifications := notifications w;
     operator_stop := operator_stop w; waits := waits w |}.

Definition world_notified (n : notification) (w : world) : world :=
  {| os := os w; clock := clock w; history := history w;
     settings_file := settings_file w; notifications := notifications w ++ [n];
     operator_stop := operator_stop w; waits := waits w |}.

Definition world_waited (w : world) : world :=
  {| os := os w; clock := clock w; history := history w;
     settings_file := settings_file w; notifications := notifications w;
     operator_stop := operator_stop w; waits := S (waits w) |}.

(** [subprocess.run]: an empty argument list makes [Popen] fail with an
    [IndexError] before any process is started; otherwise the process is
    started and the world answers. *)
Definition subprocess_run (cmd : list string) (cwd : option string) (timeout : Z)
  : M world subprocess_result :=
  fun w =>
    match cmd with
    | [] => (Return (OtherException "list index out of range"), w)
    | _ :: _ =>
        let inv := Invocation cmd cwd timeout in
        (Return (os w (clock w) inv), world_ran inv w)
    end.

(** Modelled from the spec: [config.load_global_settings] and
    [config.save_global_settings] ([githerd_pkg/config.py] is absent); the
    configuration is an external key-value store with atomic read and
    write. *)
Definition load_global_settings : M world settings := gets settings_file.

Definition save_global_settings (st : settings) : M world unit :=
  modify (world_saved st).

(** [notifications.play_sound] and [notifications.send_notification]: the
    delivery is outside the engine, the request is recorded. *)
Definition play_sound (name : string) : M world unit :=
  modify (world_notified (Sound name)).

Definition send_notification (title message urgency : string) : M world unit :=
  modify (world_notified (Desktop title message urgency)).

(** ** [git_utils.py] *)

(** [run_git(cmd, cwd)], lines 13-30. *)
Definition run_git (cmd : list string) (cwd : option string)
  : M world (Z * string * string) :=
  let* p := subprocess_run cmd cwd 30%Z in
  match p with
  | Completed returncode stdout stderr =>
      ret (returncode, Py.strip stdout, Py.strip stderr)
  | TimeoutExpired => ret (1%Z, "", "Timeout")
  | FileNotFoundError =>
      match cmd with
      | c0 :: _ => ret (1%Z, "", "Command not found: " +:+ c0)
      | [] => raise IndexError
      end
  | OtherException msg => ret (1%Z, "", msg)
  end.

(** [int(out)] *)
Definition int_of {S} (out : string) : M S Z :=
  match Py.int out with
  | Some n => ret n
  | None => raise (ValueError out)
  end.

(** [commits_ahead(base, tip, cwd, git)], lines 33-38. *)
Definition commits_ahead (base tip : string) (cwd : option string) (git : string)
  : M world Z :=
  let* (code, out, err) :=
    run_git [git; "rev-list"; "--count"; base +:+ ".." +:+ tip] cwd in
  if negb (code =? 0)%Z then raise (RuntimeError err)
  else int_of out.

(** [commits_behind(base, tip, cwd, git)], lines 41-46. *)
Definition commits_behind (base tip : string) (cwd : option string) (git : string)
  : M world Z :=
  let* (code, out, err) :=
    run_git [git; "rev-list"; "--count"; tip +:+ ".." +:+ base] cwd in
  if negb (code =? 0)%Z then ret 0%Z
  else int_of out.

(** [get_tracked_branches(remote, prefix, cwd, git)], lines 49-58. *)
Definition get_tracked_branches (remote prefix : string) (cwd : option string)
  (git : string) : M world (list string) :=
  let* (code, out, err) :=
    run_git [git; "for-each-ref"; "--format=%(refname:short)";
             "refs/remotes/" +:+ remote +:+ "/" +:+ prefix] cwd in
  if negb (code =? 0)%Z then raise (RuntimeError err)
  else ret (if decide (out = "") then [] else Py.splitlines out).

(** [get_changed_files(base, tip, cwd, git)], lines 61-66. *)
Definition get_changed_files (base tip : string) (cwd : option string) (git : string)
  : M world (gset string) :=
  let* (code, out, err) :=
    run_git [git; "diff"; "--name-only"; base +:+ "..." +:+ tip] cwd in
  if negb (code =? 0)%Z then ret ∅
  else ret (if decide (out = "") then ∅ else list_to_set (Py.splitlines out)).

(** The first loop of [are_files_disjoint], lines 71-74. *)
Fixpoint changed_files_of (branches : list string) (main_ref remote : string)
  (cwd : option string) (git : string) : M world (list (gset string)) :=
  match branches with
  | [] => ret []
  | branch :: rest =>
      let* files := get_changed_files main_ref (remote +:+ "/" +:+ branch) cwd git in
      let* others := changed_files_of rest main_ref remote cwd git in
      ret (files :: others)
  end.

(** [all_files[i] & all_files[j]] is truthy. *)
Definition overlap (a b : gset string) : bool := negb (bool_decide (a ∩ b = ∅)).

(** The nested loops of lines 76-80: [i] ranges over the list, [j] over the
    positions after [i]. *)
Fixpoint no_overlap (all_files : list (gset string)) : bool :=
  match all_files with
  | [] => true
  | fi :: rest => forallb (fun fj => negb (overlap fi fj)) rest && no_overlap rest
  end.

(** [are_files_disjoint(branches, main_ref, remote, cwd, git)], lines 69-80. *)
Definition are_files_disjoint (branches : list string) (main_ref remote : string)
  (cwd : option string) (git : string) : M world bool :=
  let* all_files := changed_files_of branches main_ref remote cwd git in
  ret (no_overlap all_files).

(** [local_main_ahead(remote, main, cwd, git)], lines 83-88. *)
Definition local_main_ahead (remote main : string) (cwd : option string) (git : string)
  : M world Z :=
  try_except (commits_ahead (remote +:+ "/" +:+ main) main cwd git)
             (fun _ => ret 0%Z).

(** [check_git_health(repo_path, remote, main_branch, git)], lines 103-119. *)
Definition check_git_health (repo_path remote main_branch git : string)
  : M world (bool * string) :=
  let* (code, _, err) := run_git [git; "rev-parse"; "--git-dir"] (Some repo_path) in
  if negb (code =? 0)%Z then ret (false, "Not a Git repository: " +:+ err) else
  let* (code, out, err) := run_git [git; "remote"] (Some repo_path) in
  if negb (code =? 0)%Z then ret (false, "Git remote error: " +:+ err) else
  if negb (bool_decide (remote ∈ Py.splitlines out))
  then ret (false, "Remote '" +:+ remote +:+ "' not found") else
  let* (code, _, err) := run_git [git; "fetch"; remote; "--dry-run"] (Some repo_path) in
  if negb (code =? 0)%Z then ret (false, "Fetch failed: " +:+ err) else
  ret (true, "").

(** ** The repository tab: [RepoTabContent] *)

(** The texts [sync.py] writes into [state_label]; [Other_text] is any text
    written elsewhere (the initial scan, the interface). *)
Inductive state_text : Type :=
| Sync_running                 (* "Sync…" *)
| ERROR                        (* "ERROR" *)
| Sync_OK                      (* "Sync OK" *)
| Idle                         (* "Idle" *)
| STOP_Merge_possible          (* "STOP — Merge possible" *)
| STOP_Human_action_required   (* "STOP — Human action required" *)
| STOP_Push_failed             (* "STOP — Push failed" *)
| Merging                      (* "Merging…" *)
| ERROR_Merge_failed           (* "ERROR — Merge failed" *)
| Merge_OK                     (* "Merge OK" *)
| Other_text (text : string).

(** The [syncState] of the data model, read off the label. *)
Inductive syncState : Type :=
| Scanning | SyncOK | IdleState | MergePossible | HumanRequired | Error
| Unknown.

Definition syncState_of (l : state_text) : syncState :=
  match l with
  | Sync_running | Merging => Scanning
  | ERROR | STOP_Push_failed | ERROR_Merge_failed => Error
  | Sync_OK | Merge_OK => SyncOK
  | Idle => IdleState
  | STOP_Merge_possible => MergePossible
  | STOP_Human_action_required => HumanRequired
  | Other_text _ => Unknown
  end.

(** Callbacks handed to [self.after(0, ...)]. *)
Inductive ui_job : Type :=
| Update_tab_color
| Update_repo_menu
| Mark_if_not_active.

(** The attributes of [self] the engine reads and writes
    ([repo_tab/__init__.py], lines 31-58).  [git], [remote], [main],
    [prefix], [repo_path] are set once by [__init__]; [repo_name] is
    [repo_path.name] and [desktop_notifications] is the value of
    [app.global_settings.get("desktop_notifications", True)]. *)
Record session : Type := Session {
  git : string;
  remote : string;
  main : string;
  prefix : string;
  repo_path : string;
  repo_name : string;
  desktop_notifications : bool;
  lock : bool;                          (* the lock is held *)
  polling : bool;
  stop_event : bool;
  syncing : bool;
  last_commit_count : gmap string Z;
  pending_branches : list string;
  git_healthy : bool;
  git_error : string;
  state_label : state_text;
  info_label : string;
  merge_button : bool;                  (* the merge button is shown *)
  ui_jobs : list ui_job
}.

Definition set_lock (v : bool) (s : session) : session :=
  Session (git s) (remote s) (main s) (prefix s) (repo_path s) (repo_name s)
    (desktop_notifications s) v (polling s) (stop_event s) (syncing s)
    (last_commit_count s) (pending_branches s) (git_healthy s) (git_error s)
    (state_label s) (info_label s) (merge_button s) (ui_jobs s).

Definition set_polling (v : bool) (s : session) : session :=
  Session (git s) (remote s) (main s) (prefix s) (repo_path s) (repo_name s)
    (desktop_notifications s) (lock s) v (stop_event s) (syncing s)
    (last_commit_count s) (pending_branches s) (git_healthy s) (git_error s)
    (state_label s) (info_label s) (merge_button s) (ui_jobs s).

Definition set_stop_event (v : bool) (s : session) : session :=
  Session (git s) (remote s) (main s) (prefix s) (repo_path s) (repo_name s)
    (desktop_notifications s) (lock s) (polling s) v (syncing s)
    (last_commit_count s) (pending_branches s) (git_healthy s) (git_error s)
    (state_label s) (info_label s) (merge_button s) (ui_jobs s).

Definition set_syncing (v : bool) (s : session) : session :=
  Session (git s) (remote s) (main s) (prefix s) (repo_path s) (repo_name s)
    (desktop_notifications s) (lock s) (polling s) (stop_event s) v
    (last_commit_count s) (pending_branches s) (git_healthy s) (git_error s)
    (state_label s) (info_label s) (merge_button s) (ui_jobs s).

Definition set_last_commit_count (v : gmap string Z) (s : session) : session :=
  Session (git s) (remote s) (main s) (prefix s) (repo_path s) (repo_name s)
    (desktop_notifications s) (lock s) (polling s) (stop_event s) (syncing s)
    v (pending_branches s) (git_healthy s) (git_error s)
    (state_label s) (info_label s) (merge_button s) (ui_jobs s).

Definition set_pending_branches (v : list string) (s : session) : session :=
  Session (git s) (remote s) (main s) (prefix s) (repo_path s) (repo_name s)
    (desktop_notifications s) (lock s) (polling s) (stop_event s) (syncing s)
    (last_commit_count s) v (git_healthy s) (git_error s)
    (state_label s) (info_label s) (merge_button s) (ui_jobs s).

Definition set_health (ok : bool) (err : string) (s : session) : session :=
  Session (git s) (remote s) (main s) (prefix s) (repo_path s) (repo_name s)
    (desktop_notifications s) (lock s) (polling s) (stop_event s) (syncing s)
    (last_commit_count s) (pending_branches s) ok err
    (state_label s) (info_label s) (merge_button s) (ui_jobs s).

Definition set_state_label (v : state_text) (s : session) : session :=
  Session (git s) (remote s) (main s) (prefix s) (repo_path s) (repo_name s)
    (desktop_notifications s) (lock s) (polling s) (stop_event s) (syncing s)
    (last_commit_count s) (pending_branches s) (git_healthy s) (git_error s)
    v (info_label s) (merge_button s) (ui_jobs s).

Definition set_info_label (v : string) (s : session) : session :=
  Session (git s) (remote s) (main s) (prefix s) (repo_path s) (repo_name s)
    (desktop_notifications s) (lock s) (polling s) (stop_event s) (syncing s)
    (last_commit_count s) (pending_branches s) (git_healthy s) (git_error s)
    (state_label s) v (merge_button s) (ui_jobs s).

Definition set_merge_button (v : bool) (s : session) : session :=
  Session (git s) (remote s) (main s) (prefix s) (repo_path s) (repo_name s)
    (desktop_notifications s) (lock s) (polling s) (stop_event s) (syncing s)
    (last_commit_count s) (pending_branches s) (git_healthy s) (git_error s)
    (state_label s) (info_label s) v (ui_jobs s).

Definition add_ui_job (j : ui_job) (s : session) : session :=
  Session (git s) (remote s) (main s) (prefix s) (repo_path s) (repo_name s)
    (desktop_notifications s) (lock s) (polling s) (stop_event s) (syncing s)
    (last_commit_count s) (pending_branches s) (git_healthy s) (git_error s)
    (state_label s) (info_label s) (merge_button s) (ui_jobs s ++ [j]).

(** The whole state a cycle runs in: the tab and the world around it. *)
Record sys : Type := Sys { self : session; env : world }.

(** A statement on [self]. *)
Definition on_self (f : session -> session) : M sys unit :=
  modify (fun st => Sys (f (self st)) (env st)).

(** A call into [git_utils], the settings or the notifications. *)
Definition in_env {A} (c : M world A) : M sys A :=
  fun st =>
    match c (env st) with
    | (r, w') => (r, Sys (self st) w')
    end.

(** [self.after(0, job)] *)
Definition after (j : ui_job) : M sys unit := on_self (add_ui_job j).

(** Modelled from the spec: [hide_merge_button] and [show_merge_button] of
    [repo_tab/ui.py], which is absent; the merge action is or is not
    available to the operator. *)
Definition hide_merge_button : M sys unit := on_self (set_merge_button false).

Definition show_merge_button : M sys unit := on_self (set_merge_button true).

(** [stop_polling], [polling.py] lines 172-177 (the button text and the
    countdown label are widgets only). *)
Definition stop_polling : M sys unit :=
  on_self (set_polling false) ;;
  after Update_tab_color.

(** [self.lock.acquire(blocking=False)] *)
Definition lock_acquire : M sys bool :=
  let* st := get in
  if lock (self st) then ret false
  else on_self (set_lock true) ;; ret true.

(** [self.lock.release()] *)
Definition lock_release : M sys unit :=
  let* st := get in
  if lock (self st) then on_self (set_lock false)
  else raise (RuntimeError "release unlocked lock").

(** [run_git(cmd, cwd=self.repo_path)] *)
Definition run_git_here (cmd : list string) : M sys (Z * string * string) :=
  let* st := get in
  in_env (run_git cmd (Some (repo_path (self st)))).

(** ** [repo_tab/sync.py] *)

(** [b.replace(f"{self.remote}/", "")] *)
Definition short_name (remote b : string) : string :=
  Py.replace b (remote +:+ "/") "".

(** [settings.get("branch_update_enabled", {}).get(str(self.repo_path), {})] *)
Definition branch_states_of (st : settings) (repo_path : string) : gmap string bool :=
  default ∅ (default ∅ (branch_update_enabled st) !! repo_path).

(** [settings.get("sync_new_branches_by_default", False)] *)
Definition default_enabled_of (st : settings) : bool :=
  default false (sync_new_branches_by_default st).

(** [branch_states.get(name, default_enabled)] *)
Definition is_enabled (branch_states : gmap string bool) (default_enabled : bool)
  (name : string) : bool :=
  default default_enabled (branch_states !! name).

(** The loop of [push_main_and_branches], lines 242-258; [false] is the
    early [return False]. *)
Fixpoint push_each (all_branches : list string) (branch_states : gmap string bool)
  (default_enabled : bool) : M sys bool :=
  match all_branches with
  | [] => ret true
  | b :: rest =>
      let* st := get in
      let s := self st in
      let target := short_name (remote s) b in
      if negb (is_enabled branch_states default_enabled target)
      then push_each rest branch_states default_enabled
      else
        let refspec := main s +:+ ":" +:+ target in
        let* (code, out, err) := run_git_here [git s; "push"; remote s; refspec] in
        if negb (code =? 0)%Z then
          on_self (set_state_label STOP_Push_failed) ;;
          on_self (set_info_label ("Push to " +:+ target +:+ " failed")) ;;
          stop_polling ;;
          ret false
        else push_each rest branch_states default_enabled
  end.

(** [push_main_and_branches], lines 222-260. *)
Definition push_main_and_branches : M sys bool :=
  let* st := get in
  let s := self st in
  let* (code, out, err) := run_git_here [git s; "push"; remote s; main s] in
  if negb (code =? 0)%Z then
    on_self (set_state_label ERROR) ;;
    stop_polling ;;
    ret false
  else
    let* all_branches :=
      in_env (get_tracked_branches (remote s) (prefix s) (Some (repo_path s)) (git s)) in
    let* settings := in_env load_global_settings in
    let branch_states := branch_states_of settings (repo_path s) in
    let default_enabled := default_enabled_of settings in
    push_each all_branches branch_states default_enabled.

(** The loop of lines 84-87 over the saved names: the pruned map and the
    [cleaned] flag. *)
Fixpoint prune_saved (saved_branches : list string) (existing_short_names : gset string)
  (saved : gmap string bool) (cleaned : bool) : gmap string bool * bool :=
  match saved_branches with
  | [] => (saved, cleaned)
  | saved_branch :: rest =>
      if bool_decide (saved_branch ∉ existing_short_names)
      then prune_saved rest existing_short_names (delete saved_branch saved) true
      else prune_saved rest existing_short_names saved cleaned
  end.

(** Lines 78-89: stale names leave the persisted map. *)
Definition clean_persistence (settings0 : settings) (all_branches : list string)
  : M sys unit :=
  let* st := get in
  let s := self st in
  let existing_short_names : gset string :=
    list_to_set (map (short_name (remote s)) all_branches) in
  let repo_path_str := repo_path s in
  let enabled_map := default ∅ (branch_update_enabled settings0) in
  match enabled_map !! repo_path_str with
  | None => ret tt
  | Some saved =>
      let saved_branches := (map_to_list saved).*1 in
      let '(saved', cleaned) :=
        prune_saved saved_branches existing_short_names saved false in
      when cleaned
        (in_env (save_global_settings
           (Settings (Some (<[repo_path_str := saved']> enabled_map))
                     (sync_new_branches_by_default settings0)
                     (other_settings settings0))))
  end.

(** The three accumulators of lines 96-98. *)
Record tally : Type := Tally {
  ahead_branches : list (string * Z);
  diverged_branches : list (string * Z * Z);
  new_commits_detected : bool
}.

(** The body of the loop of lines 100-119 for one branch. *)
Definition classify_branch (b : string) (t : tally) : M sys tally :=
  let* st := get in
  let s := self st in
  let main_ref := remote s +:+ "/" +:+ main s in
  let* ahead := in_env (commits_ahead main_ref b (Some (repo_path s)) (git s)) in
  let* behind := in_env (commits_behind main_ref b (Some (repo_path s)) (git s)) in
  if (ahead >? 0)%Z then
    let short := short_name (remote s) b in
    let t1 :=
      if (behind >? 0)%Z
      then Tally (ahead_branches t) (diverged_branches t ++ [(short, ahead, behind)])
                 (new_commits_detected t)
      else Tally (ahead_branches t ++ [(short, ahead)]) (diverged_branches t)
                 (new_commits_detected t) in
    let* st' := get in
    let counts := last_commit_count (self st') in
    let prev := default 0%Z (counts !! short) in
    let t2 :=
      if (ahead >? prev)%Z
      then Tally (ahead_branches t1) (diverged_branches t1) true
      else t1 in
    on_self (set_last_commit_count (<[short := ahead]> counts)) ;;
    ret t2
  else ret t.

(** Lines 100-119. *)
Fixpoint classify (branches : list string) (t : tally) : M sys tally :=
  match branches with
  | [] => ret t
  | b :: rest =>
      let* t' := classify_branch b t in
      classify rest t'
  end.

(** Lines 121-130. *)
Definition announce_new_commit : M sys unit :=
  let* st := get in
  let s := self st in
  in_env (play_sound "commit") ;;
  when (desktop_notifications s)
    (in_env (send_notification ("GitHerd — " +:+ repo_name s)
                               "New commit detected!" "normal")) ;;
  after Mark_if_not_active.

(** Lines 96-130: the tally of the enabled branches and the new-commit
    alert. *)
Definition sync_tally (branches : list string)
  : M sys (option (list string * tally)) :=
  let* t := classify branches (Tally [] [] false) in
  when (new_commits_detected t) announce_new_commit ;;
  ret (Some (branches, t)).

(** Lines 65-130: the enabled branches are filtered out of the listing, the
    persisted map is cleaned, the branches are tallied. *)
Definition sync_branches (all_branches : list string)
  : M sys (option (list string * tally)) :=
  let* st := get in
  let s := self st in
  let* settings := in_env load_global_settings in
  let branch_states := branch_states_of settings (repo_path s) in
  let default_enabled := default_enabled_of settings in
  let branches :=
    List.filter (fun b => is_enabled branch_states default_enabled
                                     (short_name (remote s) b)) all_branches in
  clean_persistence settings all_branches ;;
  sync_tally branches.

(** Lines 46-130: what follows the fetch.  [None] is an early [return];
    otherwise the enabled branches and the tally go on to the decision. *)
Definition sync_after_fetch (code : Z) (err : string)
  : M sys (option (list string * tally)) :=
  let* st := get in
  let s := self st in
  if negb (code =? 0)%Z then
    on_self (set_state_label ERROR) ;;
    stop_polling ;;
    ret None
  else
    let* local_ahead :=
      in_env (local_main_ahead (remote s) (main s) (Some (repo_path s)) (git s)) in
    if (local_ahead >? 0)%Z then
      let* pushed := push_main_and_branches in
      when pushed
        (on_self (set_state_label Sync_OK) ;;
         on_self (set_info_label ("Pushed " +:+ Py.str local_ahead +:+ " local commits"))) ;;
      ret None
    else
      let* all_branches :=
        in_env (get_tracked_branches (remote s) (prefix s) (Some (repo_path s)) (git s)) in
      sync_branches all_branches.

(** Lines 44-130: the fetch and what follows it. *)
Definition sync_fetch : M sys (option (list string * tally)) :=
  let* st := get in
  let s := self st in
  let* (code, _, err) := run_git_here [git s; "fetch"; remote s] in
  sync_after_fetch code err.

(** Lines 38-130: everything before the decision. *)
Definition sync_classify : M sys (option (list string * tally)) :=
  on_self (set_state_label Sync_running) ;;
  hide_merge_button ;;
  on_self (set_pending_branches []) ;;
  sync_fetch.

(** Lines 135-142: the branches that are only behind. *)
Fixpoint collect_behind (branches : list string) : M sys (list (string * Z)) :=
  match branches with
  | [] => ret []
  | b :: rest =>
      let* st := get in
      let s := self st in
      let* behind :=
        in_env (commits_behind (remote s +:+ "/" +:+ main s) b
                               (Some (repo_path s)) (git s)) in
      let* others := collect_behind rest in
      ret (if (behind >? 0)%Z then (short_name (remote s) b, behind) :: others
           else others)
  end.

(** Lines 146-158; [false] is the early [return] after a failed push. *)
Fixpoint push_behind (behind_branches : list (string * Z)) : M sys bool :=
  match behind_branches with
  | [] => ret true
  | (branch_name, _) :: rest =>
      let* st := get in
      let s := self st in
      let refspec := main s +:+ ":" +:+ branch_name in
      let* (code, out, err) := run_git_here [git s; "push"; remote s; refspec] in
      if negb (code =? 0)%Z then
        on_self (set_state_label ERROR) ;;
        stop_polling ;;
        ret false
      else push_behind rest
  end.

(** Lines 134-169: nothing is ahead. *)
Definition sync_nothing_ahead (branches : list string) : M sys unit :=
  let* behind_branches := collect_behind branches in
  match behind_branches with
  | _ :: _ =>
      let* done := push_behind behind_branches in
      when done
        (on_self (set_state_label Sync_OK) ;;
         on_self (set_info_label
                    (Py.str (Z.of_nat (length behind_branches))
                       +:+ " branches synchronized")))
  | [] =>
      on_self (set_state_label Idle) ;;
      on_self (set_info_label "All branches are synchronized") ;;
      on_self (set_last_commit_count ∅)
  end.

(** [f"{b[0]} (+{b[1]}/-{b[2]})"] *)
Definition diverged_name (b : string * Z * Z) : string :=
  b.1.1 +:+ " (+" +:+ Py.str b.1.2 +:+ "/-" +:+ Py.str b.2 +:+ ")".

(** [[b[0] for b in diverged_branches] + [b[0] for b in ahead_branches]] *)
Definition all_names_of (t : tally) : list string :=
  map (fun b => b.1.1) (diverged_branches t) ++ map fst (ahead_branches t).

(** Lines 171-195: the cycle stops for the operator. *)
Definition sync_stop (t : tally) : M sys unit :=
  let* st := get in
  let s := self st in
  let all_names := all_names_of t in
  on_self (set_pending_branches all_names) ;;
  let* disjoint :=
    in_env (are_files_disjoint all_names (remote s +:+ "/" +:+ main s) (remote s)
                               (Some (repo_path s)) (git s)) in
  let msg :=
    if (0 <? length (diverged_branches t))%nat
    then "Diverged branches: "
           +:+ Py.join ", " (map diverged_name (diverged_branches t))
    else "Multiple branches: " +:+ Py.join ", " all_names in
  (if disjoint then
     on_self (set_state_label STOP_Merge_possible) ;;
     on_self (set_info_label ("Disjoint files. " +:+ msg)) ;;
     show_merge_button
   else
     on_self (set_state_label STOP_Human_action_required) ;;
     on_self (set_info_label ("Potential file conflict. " +:+ msg))) ;;
  stop_polling.

(** Lines 197-220: one branch leads. *)
Definition sync_leader (t : tally) : M sys unit :=
  match ahead_branches t with
  | [] => raise IndexError
  | (leader, _) :: _ =>
      let* st := get in
      let s := self st in
      let* (code, out, err) :=
        run_git_here [git s; "pull"; "--ff-only"; remote s; leader] in
      if negb (code =? 0)%Z then
        on_self (set_state_label ERROR) ;;
        on_self (set_info_label ("Pull failed: " +:+ Py.slice_to 100 err)) ;;
        stop_polling
      else
        let* pushed := push_main_and_branches in
        if negb pushed then ret tt
        else
          let* st' := get in
          on_self (set_last_commit_count (<[leader := 0%Z]> (last_commit_count (self st')))) ;;
          on_self (set_state_label Sync_OK) ;;
          let* branches :=
            in_env (get_tracked_branches (remote s) (prefix s)
                                         (Some (repo_path s)) (git s)) in
          let other_count := (Z.of_nat (length branches) - 1)%Z in
          on_self (set_info_label
                     ("Pull from " +:+ leader +:+ ", push to "
                        +:+ Py.str other_count +:+ " other branches"))
  end.

(** Lines 132-220: the decision. *)
Definition sync_decide (branches : list string) (t : tally) : M sys unit :=
  let total_problematic :=
    (length (ahead_branches t) + length (diverged_branches t))%nat in
  if (total_problematic =? 0)%nat then sync_nothing_ahead branches
  else if (0 <? length (diverged_branches t))%nat
          || (1 <? length (ahead_branches t))%nat
  then sync_stop t
  else sync_leader t.

(** What is left of a cycle once the branches are tallied: nothing after
    an early [return], the decision otherwise. *)
Definition conclude (r : option (list string * tally)) : M sys unit :=
  match r with
  | None => ret tt
  | Some (branches, t) => sync_decide branches t
  end.

(** [_do_sync], lines 38-220. *)
Definition _do_sync : M sys unit :=
  let* r := sync_classify in
  conclude r.

(** [sync], lines 21-36. *)
Definition sync : M sys unit :=
  let* acquired := lock_acquire in
  if negb acquired then ret tt
  else
    try_finally
      (on_self (set_syncing true) ;;
       after Update_tab_color ;;
       _do_sync)
      (on_self (set_syncing false) ;;
       after Update_tab_color ;;
       after Update_repo_menu ;;
       lock_release).

(** The loop of [_do_merge_impl], lines 287-300; [false] is the early
    [return] after a failed merge. *)
Fixpoint merge_each (branches : list string) : M sys bool :=
  match branches with
  | [] => ret true
  | branch :: rest =>
      let* st := get in
      let s := self st in
      let* (code, out, err) :=
        run_git_here [git s; "merge"; remote s +:+ "/" +:+ branch; "-m";
                      "Merge " +:+ branch] in
      if negb (code =? 0)%Z then
        on_self (set_state_label ERROR_Merge_failed) ;;
        on_self (set_info_label ("Merge of " +:+ branch +:+ " failed")) ;;
        run_git_here [git s; "merge"; "--abort"] ;;
        stop_polling ;;
        ret false
      else merge_each rest
  end.

(** [_do_merge_impl], lines 275-311. *)
Definition _do_merge_impl : M sys unit :=
  let* st := get in
  match pending_branches (self st) with
  | [] => ret tt
  | _ :: _ =>
      on_self (set_state_label Merging) ;;
      hide_merge_button ;;
      let branches := pending_branches (self st) in
      let* merged := merge_each branches in
      if negb merged then ret tt
      else
        let* pushed := push_main_and_branches in
        if negb pushed then ret tt
        else
          on_self (set_pending_branches []) ;;
          on_self (set_last_commit_count ∅) ;;
          on_self (set_state_label Merge_OK) ;;
          on_self (set_info_label
                     ("Merged " +:+ Py.str (Z.of_nat (length branches))
                        +:+ " branches")) ;;
          after Update_tab_color
  end.

(** [_do_merge], lines 266-273. *)
Definition _do_merge : M sys unit :=
  let* acquired := lock_acquire in
  if negb acquired then ret tt
  else try_finally _do_merge_impl lock_release.

(** [manual_sync], lines 313-317; the worker thread it starts runs [sync]. *)
Definition manual_sync : M sys unit :=
  let* st := get in
  if negb (git_healthy (self st)) then ret tt
  else sync.

(** ** [repo_tab/polling.py] *)

(** Modelled from the spec: [disable_tab(err)] and [enable_tab()]
    ([githerd_pkg/repo_tab/ui.py] is absent) are the "health changed"
    callout, which hands the flag and the message to the notification
    sink. *)
Definition disable_tab (err : string) : M sys unit :=
  in_env (modify (world_notified (Health_changed false err))).

Definition enable_tab : M sys unit :=
  in_env (modify (world_notified (Health_changed true ""))).

(** [check_and_update_health], lines 21-32. *)
Definition check_and_update_health : M sys bool :=
  let* st := get in
  let s := self st in
  let* (ok, err) := in_env (check_git_health (repo_path s) (remote s) (main s) (git s)) in
  on_self (set_health ok err) ;;
  (if negb ok then disable_tab err else enable_tab) ;;
  ret ok.

(** [self.stop_event.wait(timeout=interval)]: the event is already set, or
    the operator's stop (which clears [polling] and sets the event, as
    [toggle_polling] does) arrives during this wait, or the wait times
    out. *)
Definition stop_event_wait : M sys bool :=
  let* st := get in
  let w := env st in
  modify (fun st => Sys (self st) (world_waited (env st))) ;;
  if stop_event (self st) then ret true
  else if operator_stop w (waits w) then
    on_self (set_polling false) ;;
    on_self (set_stop_event true) ;;
    ret true
  else ret false.

(** [polling_loop], lines 120-142, for at most [rounds] iterations; the
    result tells whether the loop has ended.  Reloading the interval touches
    neither the tab's state nor git. *)
Fixpoint polling_loop (rounds : nat) : M sys bool :=
  match rounds with
  | O => ret false
  | S rounds' =>
      let* st := get in
      if stop_event (self st) then ret true
      else
        sync ;;
        let* stopped := stop_event_wait in
        if stopped then ret true
        else polling_loop rounds'
  end.

(** ** [git_utils.py]: the functions around the engine *)

(** [delete_remote_branch(branch_name, remote, cwd, git)], lines 91-94. *)
Definition delete_remote_branch (branch_name remote : string) (cwd : option string)
  (git : string) : M world (bool * string) :=
  let* (code, out, err) := run_git [git; "push"; remote; "--delete"; branch_name] cwd in
  ret ((code =? 0)%Z, err).

(** [is_git_repo(path, git)], lines 97-100. *)
Definition is_git_repo (path : string) (git : string) : M world bool :=
  let* (code, _, _) := run_git [git; "rev-parse"; "--git-dir"] (Some path) in
  ret (code =? 0)%Z.

(** Modelled from the spec: a repository configuration as
    [config.DEFAULT_REPO_CONFIG] gives it ([githerd_pkg/config.py] is
    absent): it holds a remote name and a main-branch name, both texts;
    [cfg_others] stands for the keys [detect_repo_settings] never
    touches. *)
Record repo_config : Type := RepoConfig {
  cfg_remote : string;
  cfg_main_branch : string;
  cfg_others : gmap string string
}.

(** [detect_repo_settings(repo_path, git_binary)], lines 122-156; the first
    argument is the value of [DEFAULT_REPO_CONFIG]. *)
Definition detect_repo_settings (DEFAULT_REPO_CONFIG : repo_config)
  (repo_path : string) (git_binary : string) : M world repo_config :=
  let settings := DEFAULT_REPO_CONFIG in
  let* (code, out, _) := run_git [git_binary; "remote"] (Some repo_path) in
  let settings :=
    if (code =? 0)%Z && negb (bool_decide (out = "")) then
      match Py.splitlines out with
      | first :: _ => RepoConfig first (cfg_main_branch settings) (cfg_others settings)
      | [] => settings
      end
    else settings in
  let remote := cfg_remote settings in
  let* (code, out, _) :=
    run_git [git_binary; "symbolic-ref"; "refs/remotes/" +:+ remote +:+ "/HEAD"]
            (Some repo_path) in
  if (code =? 0)%Z && negb (bool_decide (out = "")) then
    let parts := Py.split out "/" in
    if (4 <=? length parts)%nat
    then ret (RepoConfig (cfg_remote settings) (List.last parts "") (cfg_others settings))
    else ret settings
  else
    let* (code, out, _) :=
      run_git [git_binary; "branch"; "-r"; "--list"; remote +:+ "/main"]
              (Some repo_path) in
    if (code =? 0)%Z && negb (bool_decide (Py.strip out = "")) then
      ret (RepoConfig (cfg_remote settings) "main" (cfg_others settings))
    else
      let* (code, out, _) :=
        run_git [git_binary; "branch"; "-r"; "--list"; remote +:+ "/master"]
                (Some repo_path) in
      if (code =? 0)%Z && negb (bool_decide (Py.strip out = "")) then
        ret (RepoConfig (cfg_remote settings) "master" (cfg_others settings))
      else ret settings.

(** ** [repo_tab/polling.py]: the initial scan and the polling switch *)

(** [str(e)] for the exceptions of the engine. *)
Definition exn_str (e : exn) : string :=
  match e with
  | RuntimeError msg => msg
  | ValueError literal => Py.int_error literal
  | IndexError => "list index out of range"
  end.

(** Callbacks handed to [self.after] with a delay. *)
Inductive timer : Type :=
| Show_merge_button.           (* self.after(100, self.show_merge_button) *)

(** The tab in its world, and the timers set on the tab. *)
Record scan_state : Type := ScanState {
  scanned : sys;
  timers : list (Z * timer)
}.

(** A statement or a call that does not set a timer. *)
Definition in_tab {A} (c : M sys A) : M scan_state A :=
  fun st =>
    match c (scanned st) with
    | (r, st') => (r, ScanState st' (timers st))
    end.

(** [self.after(delay, callback)] *)
Definition after_ms (delay : Z) (callback : timer) : M scan_state unit :=
  modify (fun st => ScanState (scanned st) (timers st ++ [(delay, callback)])).

(** The two accumulators of lines 53-54. *)
Record scan_tally : Type := ScanTally {
  ahead_list : list string;
  diverged_list : list (string * Z * Z)
}.

(** The body of the loop of lines 56-69 for one branch. *)
Definition scan_branch (b : string) (t : scan_tally) : M sys scan_tally :=
  let* st := get in
  let s := self st in
  let main_ref := remote s +:+ "/" +:+ main s in
  let* ahead := in_env (commits_ahead main_ref b (Some (repo_path s)) (git s)) in
  let* behind := in_env (commits_behind main_ref b (Some (repo_path s)) (git s)) in
  if (ahead >? 0)%Z then
    let short := short_name (remote s) b in
    let* st' := get in
    on_self (set_last_commit_count (<[short := ahead]> (last_commit_count (self st')))) ;;
    ret (if (behind >? 0)%Z
         then ScanTally (ahead_list t) (diverged_list t ++ [(short, ahead, behind)])
         else ScanTally (ahead_list t ++ [short]) (diverged_list t))
  else ret t.

(** Lines 56-69. *)
Fixpoint scan_branches (branches : list string) (t : scan_tally) : M sys scan_tally :=
  match branches with
  | [] => ret t
  | b :: rest =>
      let* t' := scan_branch b t in
      scan_branches rest t'
  end.

(** Lines 40-69: the fetch, the count of local main, the listing and the
    counts of the branches.  [None] is the early [return] of line 48. *)
Definition scan_classify : M sys (option (list string * scan_tally)) :=
  let* st := get in
  let s := self st in
  run_git_here [git s; "fetch"; remote s] ;;
  let* local_ahead :=
    in_env (local_main_ahead (remote s) (main s) (Some (repo_path s)) (git s)) in
  if (local_ahead >? 0)%Z then
    on_self (set_state_label (Other_text "Local main ahead")) ;;
    on_self (set_info_label
               ("+" +:+ Py.str local_ahead +:+ " commits to push — click Sync now")) ;;
    ret None
  else
    let* branches :=
      in_env (get_tracked_branches (remote s) (prefix s) (Some (repo_path s)) (git s)) in
    let* t := scan_branches branches (ScanTally [] []) in
    ret (Some (branches, t)).

(** [f"{b[0]} (-{b[1]})"] *)
Definition behind_name (b : string * Z) : string :=
  b.1 +:+ " (-" +:+ Py.str b.2 +:+ ")".

(** Lines 73-88: nothing is ahead; the loop of lines 75-80 is the one of
    [sync.py], lines 136-141. *)
Definition scan_nothing_ahead (branches : list string) : M sys unit :=
  let* behind_list := collect_behind branches in
  match behind_list with
  | _ :: _ =>
      on_self (set_state_label (Other_text "Branches behind")) ;;
      on_self (set_info_label
                 ("To synchronize: " +:+ Py.join ", " (map behind_name behind_list)))
  | [] =>
      on_self (set_state_label Idle) ;;
      on_self (set_info_label "All branches are synchronized")
  end.

(** Lines 89-91: one branch is ahead and none has diverged. *)
Definition scan_one_ahead (t : scan_tally) : M sys unit :=
  on_self (set_state_label (Other_text "1 branch ahead")) ;;
  match ahead_list t with
  | first :: _ => on_self (set_info_label ("Ready to sync: " +:+ first))
  | [] => raise IndexError
  end.

(** [[b[0] for b in diverged_list] + ahead_list] *)
Definition scan_names (t : scan_tally) : list string :=
  map (fun b => b.1.1) (diverged_list t) ++ ahead_list t.

(** Lines 92-113: the scan stops for the operator. *)
Definition scan_stop (t : scan_tally) : M scan_state unit :=
  let* st := in_tab get in
  let s := self st in
  let all_names := scan_names t in
  in_tab (on_self (set_pending_branches all_names)) ;;
  let* disjoint :=
    in_tab (in_env (are_files_disjoint all_names (remote s +:+ "/" +:+ main s) (remote s)
                                       (Some (repo_path s)) (git s))) in
  let msg :=
    if (0 <? length (diverged_list t))%nat
    then "Diverged: " +:+ Py.join ", " (map diverged_name (diverged_list t))
    else "Multiple branches: " +:+ Py.join ", " all_names in
  (if disjoint then
     in_tab (on_self (set_state_label STOP_Merge_possible)) ;;
     in_tab (on_self (set_info_label ("Disjoint files. " +:+ msg))) ;;
     after_ms 100 Show_merge_button
   else
     in_tab (on_self (set_state_label STOP_Human_action_required)) ;;
     in_tab (on_self (set_info_label msg))) ;;
  in_tab (after Update_tab_color).

(** Lines 71-113: the decision of the scan. *)
Definition scan_decide (branches : list string) (t : scan_tally) : M scan_state unit :=
  let total := (length (ahead_list t) + length (diverged_list t))%nat in
  if (total =? 0)%nat then in_tab (scan_nothing_ahead branches)
  else if (length (diverged_list t) =? 0)%nat && (length (ahead_list t) =? 1)%nat
  then in_tab (scan_one_ahead t)
  else scan_stop t.

(** The handler of lines 115-118. *)
Definition scan_failed (e : exn) : M scan_state unit :=
  in_tab (on_self (set_state_label ERROR)) ;;
  in_tab (on_self (set_info_label (exn_str e))) ;;
  in_tab (after Update_tab_color).

(** The [try] block of lines 40-113. *)
Definition scan_try : M scan_state unit :=
  let* r := in_tab scan_classify in
  match r with
  | None => ret tt
  | Some (branches, t) => scan_decide branches t
  end.

(** [initial_scan], lines 34-118. *)
Definition initial_scan : M scan_state unit :=
  let* ok := in_tab check_and_update_health in
  if negb ok then ret tt
  else try_except scan_try scan_failed.

(** [toggle_polling], lines 144-170 (the button text, the countdown, the tab
    color and the title are widgets only).  The polling thread it starts
    runs [polling_loop], here for at most [rounds] iterations; an exception
    ends that thread, not the caller. *)
Definition toggle_polling (rounds : nat) : M sys unit :=
  let* st := get in
  if negb (git_healthy (self st)) then ret tt
  else if polling (self st) then
    on_self (set_polling false) ;;
    on_self (set_stop_event true)
  else
    on_self (set_polling true) ;;
    on_self (set_stop_event false) ;;
    try_except (polling_loop rounds ;; ret tt) (fun _ => ret tt).

(** ** [app/tabs.py] and [app/core.py] *)

(** [if l:] on a list *)
Definition nonempty {A} (l : list A) : bool :=
  match l with [] => false | _ :: _ => true end.

(** [get_tab_bg_state(tab)], [app/tabs.py] lines 23-31. *)
Definition get_tab_bg_state (tab : session) : string :=
  if negb (git_healthy tab) then "red"
  else if nonempty (pending_branches tab) && negb (polling tab) then "red"
  else if polling tab then "green"
  else "default".

(** The loop of [add_repo], [app/tabs.py] lines 82-87, for at most [fuel]
    tests of [tab_name in self.tabs]; [tabs] holds the keys of [self.tabs]
    and [None] tells that the fuel ran out. *)
Fixpoint tab_name_loop (fuel : nat) (repo_name : string) (tabs : list string)
  (counter : Z) (tab_name : string) : option string :=
  match fuel with
  | O => None
  | S fuel' =>
      if bool_decide (tab_name ∈ tabs) then
        let counter := (counter + 1)%Z in
        tab_name_loop fuel' repo_name tabs counter
          (repo_name +:+ " (" +:+ Py.str counter +:+ ")")
      else Some tab_name
  end.

(** Lines 80-87 of [add_repo]: the name of the new tab. *)
Definition new_tab_name (fuel : nat) (repo_name : string) (tabs : list string)
  : option string :=
  tab_name_loop fuel repo_name tabs 1 repo_name.

(** The application, as far as the status functions of [app/core.py] go:
    [self.tabs] in insertion order, the window title and the message boxes
    set to pop up. *)
Record application : Type := App {
  tabs : list (string * session);
  window_title : string;
  message_boxes : list (string * string)
}.

(** [sum(1 for t in self.tabs.values() if t.polling)] *)
Definition polling_count (ts : list (string * session)) : Z :=
  Z.of_nat (length (List.filter (fun t => polling t.2) ts)).

(** [sum(1 for t in self.tabs.values() if t.pending_branches and not t.polling)] *)
Definition stopped_count (ts : list (string * session)) : Z :=
  Z.of_nat (length (List.filter
                      (fun t => nonempty (pending_branches t.2) && negb (polling t.2)) ts)).

(** The text [update_title] gives the window, [app/core.py] lines 91-104. *)
Definition title_of (ts : list (string * session)) : string :=
  let total := Z.of_nat (length ts) in
  let polling := polling_count ts in
  let stopped := stopped_count ts in
  if (total =? 0)%Z then "GitHerd"
  else if (stopped >? 0)%Z then
    "GitHerd — " +:+ Py.str total +:+ " repos, " +:+ Py.str polling +:+ " polling, "
      +:+ Py.str stopped +:+ " STOP"
  else if (polling >? 0)%Z then
    "GitHerd — " +:+ Py.str total +:+ " repos, " +:+ Py.str polling +:+ " polling"
  else "GitHerd — " +:+ Py.str total +:+ " repos".

(** [update_title] *)
Definition update_title : M application unit :=
  modify (fun a => App (tabs a) (title_of (tabs a)) (message_boxes a)).

(** The loop of [stop_all_polling], [app/core.py] lines 108-116, from the
    count [stopped] on: the tabs afterwards and the count (the countdown,
    the button text and the tab color are widgets only). *)
Fixpoint stop_each (ts : list (string * session)) (stopped : Z)
  : list (string * session) * Z :=
  match ts with
  | [] => ([], stopped)
  | (name, tab) :: rest =>
      if polling tab then
        let '(rest', n) := stop_each rest (stopped + 1)%Z in
        ((name, set_stop_event true (set_polling false tab)) :: rest', n)
      else
        let '(rest', n) := stop_each rest stopped in
        ((name, tab) :: rest', n)
  end.

(** [stop_all_polling], [app/core.py] lines 106-126; the message box is
    handed to [self.after(100, ...)]. *)
Definition stop_all_polling : M application unit :=
  let* a := get in
  let '(ts, stopped) := stop_each (tabs a) 0 in
  modify (fun a => App ts (window_title a) (message_boxes a)) ;;
  update_title ;;
  when (stopped >? 0)%Z
    (modify (fun a =>
       App (tabs a) (window_title a)
           (message_boxes a ++
              [("Polling stopped", Py.str stopped +:+ " polling(s) stopped.")]))).

(** The position [ensure_dialog_on_screen] computes, [app/core.py] lines
    58-86, from the sizes of the dialog and of the screen and the place of
    the main window. *)
Definition dialog_position (dlg_width dlg_height screen_width screen_height
  main_x main_y main_width : Z) : Z * Z :=
  let x := (main_x + (main_width - dlg_width) / 2)%Z in
  let y := (main_y + 50)%Z in
  let x := if (x + dlg_width >? screen_width)%Z
           then (screen_width - dlg_width - 10)%Z else x in
  let x := if (x <? 0)%Z then 10%Z else x in
  let y := if (y + dlg_height >? screen_height)%Z
           then (screen_height - dlg_height - 50)%Z else y in
  let y := if (y <? 0)%Z then 10%Z else y in
  (x, y).

(** [ensure_dialog_on_screen(dialog)], [app/core.py] lines 58-89: the
    geometry handed to the dialog. *)
Definition ensure_dialog_on_screen (dlg_width dlg_height screen_width screen_height
  main_x main_y main_width : Z) : string :=
  let '(x, y) := dialog_position dlg_width dlg_height screen_width screen_height
                                 main_x main_y main_width in
  "+" +:+ Py.str x +:+ "+" +:+ Py.str y.

(** ** Vocabulary: what a computation keeps *)

(** [preserves P c]: whatever [c] does, returning or raising, a state
    satisfying [P] is left in a state satisfying [P]. *)
Definition preserves {S A} (P : S -> Prop) (c : M S A) : Prop :=
  forall s, P s -> P (c s).2.

(** A property of the world that no subprocess and no notification can
    break; only a write of the settings file may. *)
Definition env_stable (R : world -> Prop) : Prop :=
  forall w, R w ->
    (forall inv, R (world_ran inv w)) /\
    (forall n, R (world_notified n w)).

(** A property of the tab that survives every assignment the engine makes
    to the labels, the flags [polling] and [syncing], the commit counts and
    the callback queue. *)
Definition display_stable (Q : session -> Prop) : Prop :=
  forall s, Q s ->
    (forall v, Q (set_state_label v s)) /\
    (forall v, Q (set_info_label v s)) /\
    (forall v, Q (set_polling v s)) /\
    (forall v, Q (set_syncing v s)) /\
    (forall v, Q (set_last_commit_count v s)) /\
    (forall j, Q (add_ui_job j s)).

(** Two tabs with the same configuration. *)
Definition same_config (s s' : session) : Prop :=
  git s' = git s /\ remote s' = remote s /\ main s' = main s /\
  prefix s' = prefix s /\ repo_path s' = repo_path s /\ repo_name s' = repo_name s.

(** The history begins with [pre]. *)
Definition begins_with (pre : list invocation) (w : world) : Prop :=
  exists later, history w = pre ++ later.

(** The operator's stop signal, as the world holds it. *)
Definition operator_is (f : nat -> bool) (n : nat) (w : world) : Prop :=
  operator_stop w = f /\ waits w = n.

(** ** Vocabulary: commands and what they answer *)

(** What [run_git] returns, as a function of what the subprocess does. *)
Definition run_git_value (cmd : list string) (p : subprocess_result) : Z * string * string :=
  match p with
  | Completed returncode stdout stderr => (returncode, Py.strip stdout, Py.strip stderr)
  | TimeoutExpired => (1%Z, "", "Timeout")
  | FileNotFoundError => (1%Z, "", "Command not found: " +:+ hd "" cmd)
  | OtherException msg => (1%Z, "", msg)
  end.

(** The subprocess behind [run_git cmd cwd] in world [w]. *)
Definition answer (cmd : list string) (cwd : option string) (w : world) : subprocess_result :=
  match cmd with
  | [] => OtherException "list index out of range"
  | _ :: _ => os w (clock w) (Invocation cmd cwd 30)
  end.

(** The world after [run_git cmd cwd]. *)
Definition ran (cmd : list string) (cwd : option string) (w : world) : world :=
  match cmd with
  | [] => w
  | _ :: _ => world_ran (Invocation cmd cwd 30) w
  end.

(** The exit code [run_git cmd cwd] reports in world [w]. *)
Definition exit_code (cmd : list string) (cwd : option string) (w : world) : Z :=
  (run_git_value cmd (answer cmd cwd w)).1.1.

(** The world after the commands [cmds] have been run one after another. *)
Definition ran_all (cmds : list (list string)) (cwd : option string) (w : world) : world :=
  fold_left (fun w' cmd => ran cmd cwd w') cmds w.

(** The position of the first of the commands [cmds], run one after another
    from world [w], that exits with a code other than 0; [None] when each
    of them exits with code 0. *)
Fixpoint first_failure (cmds : list (list string)) (cwd : option string) (w : world)
  : option nat :=
  match cmds with
  | [] => None
  | cmd :: rest =>
      if (exit_code cmd cwd w =? 0)%Z
      then S <$> first_failure rest cwd (ran cmd cwd w)
      else Some 0%nat
  end.

(** [cwd=self.repo_path] *)
Definition here (st : sys) : option string := Some (repo_path (self st)).

(** The command of [commits_ahead] and [commits_behind]. *)
Definition rev_list_cmd (git from to : string) : list string :=
  [git; "rev-list"; "--count"; from +:+ ".." +:+ to].

(** The command of [get_changed_files]. *)
Definition diff_cmd (git base tip : string) : list string :=
  [git; "diff"; "--name-only"; base +:+ "..." +:+ tip].

(** [git fetch <remote>] as the tab issues it. *)
Definition fetch_cmd (s : session) : list string := [git s; "fetch"; remote s].

(** The rev-list that counts what local main has and [remote/main] lacks. *)
Definition local_count_cmd (s : session) : list string :=
  rev_list_cmd (git s) (remote s +:+ "/" +:+ main s) (main s).

(** [git for-each-ref ...] as the tab issues it. *)
Definition listing_cmd (s : session) : list string :=
  [git s; "for-each-ref"; "--format=%(refname:short)";
   "refs/remotes/" +:+ remote s +:+ "/" +:+ prefix s].

(** What [get_tracked_branches] makes of the result of [run_git]. *)
Definition listing_of (v : Z * string * string) : outcome (list string) :=
  if negb (v.1.1 =? 0)%Z then Raise (RuntimeError v.2)
  else Return (if decide (v.1.2 = "") then [] else Py.splitlines v.1.2).

(** [git push <remote> <refspec>] as the tab issues it. *)
Definition push_cmd (s : session) (refspec : string) : list string :=
  [git s; "push"; remote s; refspec].

(** [git pull --ff-only <remote> <leader>] as the tab issues it. *)
Definition pull_cmd (s : session) (leader : string) : list string :=
  [git s; "pull"; "--ff-only"; remote s; leader].

(** The pushes of the fan-out: one [main:<branch>] per enabled branch of the
    listing, in the order of the listing. *)
Definition fanout (s : session) (all_branches : list string)
  (branch_states : gmap string bool) (default_enabled : bool) : list (list string) :=
  map (fun b => push_cmd s (main s +:+ ":" +:+ short_name (remote s) b))
      (List.filter (fun b => is_enabled branch_states default_enabled
                                        (short_name (remote s) b)) all_branches).

(** The diff of each branch against main, one subprocess per branch. *)
Definition diffs (s : session) (names : list string) : list (list string) :=
  map (fun branch => diff_cmd (git s) (remote s +:+ "/" +:+ main s)
                              (remote s +:+ "/" +:+ branch)) names.

(** The subprocesses started for a list of commands. *)
Definition started (s : session) (cmds : list (list string)) : list invocation :=
  map (fun c => Invocation c (Some (repo_path s)) 30) cmds.

(** ** Vocabulary: the tab at the turning points of a cycle *)

(** The state in which [sync] starts [_do_sync]. *)
Definition entered (st : sys) : sys :=
  Sys (add_ui_job Update_tab_color (set_syncing true (set_lock true (self st)))) (env st).

(** The tab when [sync] has released the lock. *)
Definition left_sync (s : session) : session :=
  set_lock false
    (add_ui_job Update_repo_menu
       (add_ui_job Update_tab_color (set_syncing false s))).

(** The state in which [sync_classify] starts the fetch. *)
Definition reset (st : sys) : sys :=
  Sys (set_pending_branches []
         (set_merge_button false (set_state_label Sync_running (self st))))
      (env st).

(** The tab after a failed fetch. *)
Definition fetch_failed (s : session) : session :=
  add_ui_job Update_tab_color (set_polling false (set_state_label ERROR s)).

(** The state in which the push of a local main that is ahead starts. *)
Definition flushing (st : sys) : sys :=
  Sys (self (reset st))
      (ran (local_count_cmd (self st)) (here st)
           (ran (fetch_cmd (self st)) (here st) (env st))).

(** The tab after a successful flush of [n] local commits. *)
Definition flushed (n : Z) (s : session) : session :=
  set_info_label ("Pushed " +:+ Py.str n +:+ " local commits")
    (set_state_label Sync_OK s).

(** The tab after a failed push of main. *)
Definition main_push_failed (s : session) : session :=
  add_ui_job Update_tab_color (set_polling false (set_state_label ERROR s)).

(** The tab after a failed push of the fan-out. *)
Definition push_failed (target : string) (s : session) : session :=
  add_ui_job Update_tab_color
    (set_polling false
       (set_info_label ("Push to " +:+ target +:+ " failed")
          (set_state_label STOP_Push_failed s))).

(** The tab after a failed pull. *)
Definition pull_failed (err : string) (s : session) : session :=
  add_ui_job Update_tab_color
    (set_polling false
       (set_info_label ("Pull failed: " +:+ Py.slice_to 100 err)
          (set_state_label ERROR s))).

(** The text after "Disjoint files." or "Potential file conflict.". *)
Definition stop_message (t : tally) : string :=
  if (0 <? length (diverged_branches t))%nat
  then "Diverged branches: " +:+ Py.join ", " (map diverged_name (diverged_branches t))
  else "Multiple branches: " +:+ Py.join ", " (all_names_of t).

(** The tab after [sync_stop]. *)
Definition stopped (t : tally) (disjoint : bool) (s : session) : session :=
  let s1 := set_pending_branches (all_names_of t) s in
  add_ui_job Update_tab_color
    (set_polling false
       (if disjoint then
          set_merge_button true
            (set_info_label ("Disjoint files. " +:+ stop_message t)
               (set_state_label STOP_Merge_possible s1))
        else
          set_info_label ("Potential file conflict. " +:+ stop_message t)
            (set_state_label STOP_Human_action_required s1))).

(** The tab when [_do_merge_impl] starts merging. *)
Definition merging (st : sys) : sys :=
  Sys (set_merge_button false (set_state_label Merging (self st))) (env st).

(** The tab after a failed merge of [branch]. *)
Definition merge_failed (branch : string) (s : session) : session :=
  add_ui_job Update_tab_color
    (set_polling false
       (set_info_label ("Merge of " +:+ branch +:+ " failed")
          (set_state_label ERROR_Merge_failed s))).

(** The tab after a successful merge of [n] branches. *)
Definition merged (n : nat) (s : session) : session :=
  add_ui_job Update_tab_color
    (set_info_label ("Merged " +:+ Py.str (Z.of_nat n) +:+ " branches")
       (set_state_label Merge_OK
          (set_last_commit_count ∅ (set_pending_branches [] s)))).

(** ** Vocabulary: what the statements are about *)

(** What git reported for one branch: its full name, its ahead count and
    its behind count. *)
Definition observation : Type := string * Z * Z.

(** The tests of lines 106 and 109: ahead and not behind, ahead and
    behind. *)
Definition is_ahead (o : observation) : bool := (o.1.2 >? 0)%Z && negb (o.2 >? 0)%Z.
Definition is_diverged (o : observation) : bool := (o.1.2 >? 0)%Z && (o.2 >? 0)%Z.

(** The entries the loop appends to [ahead_branches] and to
    [diverged_branches] for a list of observations. *)
Definition ahead_of (remote : string) (obs : list observation) : list (string * Z) :=
  map (fun o => (short_name remote o.1.1, o.1.2)) (List.filter is_ahead obs).

Definition diverged_of (remote : string) (obs : list observation)
  : list (string * Z * Z) :=
  map (fun o => (short_name remote o.1.1, o.1.2, o.2)) (List.filter is_diverged obs).

(** [observes s w branches obs w']: starting in world [w], the two rev-list
    counts of each branch of [branches], taken in order, succeed and give
    [obs]; [w'] is the world afterwards. *)
Inductive observes (s : session) : world -> list string -> list observation -> world -> Prop :=
| observes_nil w : observes s w [] [] w
| observes_cons w b rest ahead behind w1 w2 w3 obs :
    commits_ahead (remote s +:+ "/" +:+ main s) b (Some (repo_path s)) (git s) w
      = (Return ahead, w1) ->
    commits_behind (remote s +:+ "/" +:+ main s) b (Some (repo_path s)) (git s) w1
      = (Return behind, w2) ->
    observes s w2 rest obs w3 ->
    observes s w (b :: rest) ((b, ahead, behind) :: obs) w3.

(** The enabled branches of a listing, as step 4 of the cycle selects them
    from the settings just read. *)
Definition enabled_of (s : session) (st : settings) (all_branches : list string)
  : list string :=
  List.filter (fun b => is_enabled (branch_states_of st (repo_path s))
                                   (default_enabled_of st)
                                   (short_name (remote s) b)) all_branches.

(** Every two file sets at different positions of the list are disjoint. *)
Definition pairwise_disjoint (all_files : list (gset string)) : Prop :=
  forall i j a b, (i < j)%nat ->
    all_files !! i = Some a -> all_files !! j = Some b -> a ∩ b = ∅.

(** What [local_main_ahead] answers right after the fetch of the cycle. *)
Definition local_ahead_after_fetch (st : sys) : outcome Z :=
  (local_main_ahead (remote (self st)) (main (self st)) (here st) (git (self st))
     (ran (fetch_cmd (self st)) (here st) (env st))).1.


(** The short names on the remote, as line 79 collects them. *)
Definition existing_short_names (s : session) (all_branches : list string) : gset string :=
  list_to_set (map (short_name (remote s)) all_branches).

(** [after] is [before] with the branch map of [repo] restricted to the
    names in [existing]; nothing else differs. *)
Definition pruned_to (existing : gset string) (repo : string) (before after : settings)
  : Prop :=
  (forall name,
     branch_states_of after repo !! name =
       if decide (name ∈ existing) then branch_states_of before repo !! name else None) /\
  (forall other, other ≠ repo ->
     branch_states_of after other = branch_states_of before other) /\
  sync_new_branches_by_default after = sync_new_branches_by_default before /\
  other_settings after = other_settings before.

(** The world in which a cycle lists the tracked branches, and the listing
    the cycle obtains: [None] when the cycle ends before it has one (the
    fetch fails, local main is ahead, or the listing itself fails). *)
Definition listing_world (st : sys) : world :=
  ran (local_count_cmd (self st)) (here st)
      (ran (fetch_cmd (self st)) (here st) (env st)).

Definition listing_of_cycle (st : sys) : option (list string) :=
  if negb (exit_code (fetch_cmd (self st)) (here st) (env st) =? 0)%Z then None
  else
    match local_ahead_after_fetch st with
    | Raise _ => None
    | Return n =>
        if (n >? 0)%Z then None
        else
          match (get_tracked_branches (remote (self st)) (prefix (self st)) (here st)
                   (git (self st)) (listing_world st)).1 with
          | Return all_branches => Some all_branches
          | Raise _ => None
          end
    end.

(** The invariant of the data model: [pending_branches] is non-empty only
    under one of the two stop labels. *)
Definition pending_invariant (s : session) : Prop :=
  pending_branches s ≠ [] ->
  state_label s = STOP_Merge_possible \/ state_label s = STOP_Human_action_required.

(** ** Concrete repositories *)

(** A world whose subprocesses answer by a fixed table of commands; a
    command that is not listed succeeds with no output. *)
Definition scripted (table : list (list string * subprocess_result))
  : nat -> invocation -> subprocess_result :=
  fun _ inv =>
    match list_find (fun e => bool_decide (e.1 = inv_cmd inv)) table with
    | Some (_, (_, r)) => r
    | None => Completed 0 "" ""
    end.

(** A tab on [/repo] that is polling: remote [origin], main branch [main],
    prefix [claude/]. *)
Definition tab0 : session :=
  Session "git" "origin" "main" "claude/" "/repo" "repo" true
    false true false false ∅ [] true "" Idle "" false [].

(** A tab stopped on "STOP — Merge possible" with two pending branches. *)
Definition tab_merge_possible : session :=
  Session "git" "origin" "main" "claude/" "/repo" "repo" true
    false false false false ∅ ["claude/a"; "claude/b"] true ""
    STOP_Merge_possible "Disjoint files. Multiple branches: claude/a, claude/b" true [].

(** A tab the last health check found unhealthy. *)
Definition tab_unhealthy : session :=
  Session "git" "origin" "main" "claude/" "/repo" "repo" true
    false false false false ∅ [] false "Fetch failed: fatal: unable to access the remote"
    Idle "" false [].

(** The settings file: three names saved for [/repo], all enabled; [gone]
    is no longer on the remote. *)
Definition settings0 : settings :=
  Settings
    (Some {[ "/repo" := {[ "claude/a" := true; "claude/b" := true; "gone" := true ]} ]})
    None ∅.

(** The world of a table of answers: nothing has run yet, the settings file
    is [settings0], the operator never sends a stop signal. *)
Definition world_of (table : list (list string * subprocess_result)) : world :=
  World (scripted table) 0 [] settings0 [] (fun _ => false) 0.

(** The remote tracks [claude/a] and [claude/b]. *)
Definition listing_ab : list string * subprocess_result :=
  (["git"; "for-each-ref"; "--format=%(refname:short)"; "refs/remotes/origin/claude/"],
   Completed 0 "origin/claude/a
origin/claude/b
" "").

(** [git rev-list --count <from>..<to>] *)
Definition count_cmd (from to : string) : list string :=
  ["git"; "rev-list"; "--count"; from +:+ ".." +:+ to].

(** [git diff --name-only origin/main...<branch>] *)
Definition files_cmd (branch : string) : list string :=
  ["git"; "diff"; "--name-only"; "origin/main..." +:+ branch].

(** The number of times [git fetch origin] occurs in a history. *)
Definition fetches (h : list invocation) : nat :=
  length (List.filter (fun inv => bool_decide (inv_cmd inv = ["git"; "fetch"; "origin"])) h).

(** Scenario A: [claude/a] is three commits ahead and not behind,
    [claude/b] is level with main; every pull and push succeeds. *)
Definition one_ahead : world :=
  world_of [ listing_ab;
             (count_cmd "origin/main" "main", Completed 0 "0" "");
             (count_cmd "origin/main" "origin/claude/a", Completed 0 "3" "");
             (count_cmd "origin/main" "origin/claude/b", Completed 0 "0" "");
             (count_cmd "origin/claude/a" "origin/main", Completed 0 "0" "");
             (count_cmd "origin/claude/b" "origin/main", Completed 0 "0" "") ].

(** Scenario B: [claude/a] and [claude/b] are ahead of main, neither is
    behind; they touch [a.txt] and [b.txt]. *)
Definition two_ahead_disjoint : world :=
  world_of [ listing_ab;
             (count_cmd "origin/main" "main", Completed 0 "0" "");
             (count_cmd "origin/main" "origin/claude/a", Completed 0 "3" "");
             (count_cmd "origin/main" "origin/claude/b", Completed 0 "1" "");
             (count_cmd "origin/claude/a" "origin/main", Completed 0 "0" "");
             (count_cmd "origin/claude/b" "origin/main", Completed 0 "0" "");
             (files_cmd "origin/claude/a", Completed 0 "a.txt" "");
             (files_cmd "origin/claude/b", Completed 0 "b.txt" "") ].

(** Scenario C: both branches touch [shared.txt]. *)
Definition two_ahead_shared : world :=
  world_of [ listing_ab;
             (count_cmd "origin/main" "main", Completed 0 "0" "");
             (count_cmd "origin/main" "origin/claude/a", Completed 0 "3" "");
             (count_cmd "origin/main" "origin/claude/b", Completed 0 "1" "");
             (count_cmd "origin/claude/a" "origin/main", Completed 0 "0" "");
             (count_cmd "origin/claude/b" "origin/main", Completed 0 "0" "");
             (files_cmd "origin/claude/a", Completed 0 "a.txt
shared.txt" "");
             (files_cmd "origin/claude/b", Completed 0 "shared.txt" "") ].

(** Scenario D: local main is two commits ahead, nothing else changed, every
    push succeeds. *)
Definition local_ahead_by_two : world :=
  world_of [ listing_ab;
             (count_cmd "origin/main" "main", Completed 0 "2" "") ].

(** Scenario F: the remote lists [claude/a] and [claude/b] only; [gone] is
    still in the persisted map; nothing is ahead or behind. *)
Definition branch_deleted : world :=
  world_of [ listing_ab;
             (count_cmd "origin/main" "main", Completed 0 "0" "");
             (count_cmd "origin/main" "origin/claude/a", Completed 0 "0" "");
             (count_cmd "origin/main" "origin/claude/b", Completed 0 "0" "");
             (count_cmd "origin/claude/a" "origin/main", Completed 0 "0" "");
             (count_cmd "origin/claude/b" "origin/main", Completed 0 "0" "") ].

(** The fetch fails: the network is down (scenario E). *)
Definition network_down : world :=
  world_of [ (["git"; "fetch"; "origin"],
              Completed 128 "" "fatal: unable to access the remote") ].

(** The rev-list of [origin/claude/a] exits with code 128. *)
Definition ahead_count_fails : world :=
  world_of [ listing_ab;
             (count_cmd "origin/main" "main", Completed 0 "0" "");
             (count_cmd "origin/main" "origin/claude/a",
              Completed 128 "" "fatal: bad revision");
             (count_cmd "origin/main" "origin/claude/b", Completed 0 "0" "");
             (count_cmd "origin/claude/a" "origin/main", Completed 0 "0" "");
             (count_cmd "origin/claude/b" "origin/main", Completed 0 "0" "") ].

(** The fetch without the dry run: [git fetch origin --dry-run] fails while
    the fetch of the cycle goes through and nothing is ahead or behind. *)
Definition dry_run_fails : world :=
  world_of [ listing_ab;
             (["git"; "remote"], Completed 0 "origin" "");
             (["git"; "fetch"; "origin"; "--dry-run"],
              Completed 1 "" "fatal: unable to access the remote");
             (count_cmd "origin/main" "main", Completed 0 "0" "");
             (count_cmd "origin/main" "origin/claude/a", Completed 0 "0" "");
             (count_cmd "origin/main" "origin/claude/b", Completed 0 "0" "");
             (count_cmd "origin/claude/a" "origin/main", Completed 0 "0" "");
             (count_cmd "origin/claude/b" "origin/main", Completed 0 "0" "") ].


(** Local main is two commits ahead and the listing of the tracked branches
    fails. *)
Definition listing_fails_after_push : world :=
  world_of [ (count_cmd "origin/main" "main", Completed 0 "2" "");
             (["git"; "for-each-ref"; "--format=%(refname:short)";
               "refs/remotes/origin/claude/"],
              Completed 128 "" "fatal: bad object") ].

(** Local main is two commits ahead and the remote rejects the push of main
    onto [claude/a]. *)
Definition fanout_rejected : world :=
  world_of [ listing_ab;
             (count_cmd "origin/main" "main", Completed 0 "2" "");
             (["git"; "push"; "origin"; "main:claude/a"],
              Completed 1 "" "! [rejected] main -> claude/a (stale info)") ].

(** The fast-forward pull of [claude/a] is refused. *)
Definition pull_refused : world :=
  world_of [ listing_ab;
             (count_cmd "origin/main" "main", Completed 0 "0" "");
             (count_cmd "origin/main" "origin/claude/a", Completed 0 "3" "");
             (count_cmd "origin/main" "origin/claude/b", Completed 0 "0" "");
             (count_cmd "origin/claude/a" "origin/main", Completed 0 "0" "");
             (count_cmd "origin/claude/b" "origin/main", Completed 0 "0" "");
             (["git"; "pull"; "--ff-only"; "origin"; "claude/a"],
              Completed 1 "" "fatal: Not possible to fast-forward, aborting.") ].

(** No ref can be resolved: the three tolerated commands exit with code
    128. *)
Definition refs_unresolved : world :=
  world_of [ (count_cmd "origin/claude/a" "origin/main",
              Completed 128 "" "fatal: bad revision");
             (files_cmd "origin/claude/a", Completed 128 "" "fatal: bad revision");
             (count_cmd "origin/main" "main", Completed 128 "" "fatal: bad revision") ].

(** The merge of [claude/b] runs into a conflict. *)
Definition merge_conflict : world :=
  world_of [ listing_ab;
             (["git"; "merge"; "origin/claude/b"; "-m"; "Merge claude/b"],
              Completed 1 "" "CONFLICT (content): Merge conflict in shared.txt") ].

(** ** Vocabulary: the commands around the engine *)

(** The three commands of the health check. *)
Definition rev_parse_cmd (git : string) : list string := [git; "rev-parse"; "--git-dir"].

Definition remote_cmd (git : string) : list string := [git; "remote"].

Definition dry_run_cmd (git remote : string) : list string :=
  [git; "fetch"; remote; "--dry-run"].

(** The standard output [run_git cmd cwd] reports in world [w]. *)
Definition output (cmd : list string) (cwd : option string) (w : world) : string :=
  (run_git_value cmd (answer cmd cwd w)).1.2.

(** What [run_git cmd cwd] reports as the error text in world [w]. *)
Definition complaint (cmd : list string) (cwd : option string) (w : world) : string :=
  (run_git_value cmd (answer cmd cwd w)).2.

(** The git verb of a command: its second word. *)
Definition verb (cmd : list string) : string :=
  match cmd with
  | _ :: v :: _ => v
  | _ => ""
  end.

(** Since the history was [pre], only commands whose verb is in [allowed]
    have been started. *)
Definition ran_only (allowed : list string) (pre : list invocation) (w : world) : Prop :=
  exists later,
    history w = pre ++ later /\
    Forall (fun inv => verb (inv_cmd inv) ∈ allowed) later.

(** A property of the world that survives the start of every subprocess
    whose verb is in [allowed]. *)
Definition run_stable (allowed : list string) (R : world -> Prop) : Prop :=
  forall w inv, R w -> verb (inv_cmd inv) ∈ allowed -> R (world_ran inv w).

(** The verbs of the initial scan: they inspect the repository and fetch;
    none of them pushes, pulls or merges. *)
Definition scan_verbs : list string :=
  ["rev-parse"; "remote"; "fetch"; "rev-list"; "for-each-ref"; "diff"].

(** A property of the tab that survives every assignment the initial scan
    makes, the one to [pending_branches] apart: to the health fields, the
    labels, the commit counts and the callback queue. *)
Definition scan_stable (Q : session -> Prop) : Prop :=
  forall s, Q s ->
    (forall ok err, Q (set_health ok err s)) /\
    (forall v, Q (set_state_label v s)) /\
    (forall v, Q (set_info_label v s)) /\
    (forall v, Q (set_last_commit_count v s)) /\
    (forall j, Q (add_ui_job j s)).

(** The tab after the handler of the scan has shown the exception [e]. *)
Definition scan_errored (e : exn) (s : session) : session :=
  add_ui_job Update_tab_color
    (set_info_label (exn_str e) (set_state_label ERROR s)).

(** The text the scan shows for the branches it stops on. *)
Definition scan_message (t : scan_tally) : string :=
  if (0 <? length (diverged_list t))%nat
  then "Diverged: " +:+ Py.join ", " (map diverged_name (diverged_list t))
  else "Multiple branches: " +:+ Py.join ", " (scan_names t).

(** The tab after [scan_stop]. *)
Definition scan_stopped (t : scan_tally) (disjoint : bool) (s : session) : session :=
  let s1 := set_pending_branches (scan_names t) s in
  add_ui_job Update_tab_color
    (if disjoint then
       set_info_label ("Disjoint files. " +:+ scan_message t)
         (set_state_label STOP_Merge_possible s1)
     else
       set_info_label (scan_message t)
         (set_state_label STOP_Human_action_required s1)).

(** How a scan that started with nothing pending and no timer set can leave
    the pending branches, the label and the timers. *)
Definition scan_outcome (st : scan_state) : Prop :=
  let s := self (scanned st) in
  (pending_branches s = [] /\ timers st = []) \/
  (pending_branches s ≠ [] /\
   ((state_label s = STOP_Merge_possible /\ timers st = [(100%Z, Show_merge_button)]) \/
    (state_label s = STOP_Human_action_required /\ timers st = []))).

(** The rev-list that counts what [remote/main] has and branch [b] lacks. *)
Definition behind_cmd (s : session) (b : string) : list string :=
  rev_list_cmd (git s) b (remote s +:+ "/" +:+ main s).

(** What each branch of [branches] is behind main, read one branch after
    the other from world [w]: the counts, or the exception of the first
    count that raises. *)
Fixpoint behind_counts (s : session) (branches : list string) (w : world)
  : outcome (list Z) :=
  match branches with
  | [] => Return []
  | b :: rest =>
      match commits_behind (remote s +:+ "/" +:+ main s) b
              (Some (repo_path s)) (git s) w with
      | (Raise e, _) => Raise e
      | (Return behind, w1) =>
          match behind_counts s rest w1 with
          | Raise e => Raise e
          | Return counts => Return (behind :: counts)
          end
      end
  end.

(** The branches that are behind main according to [counts], by short name
    and with their count, in the order of the branches. *)
Definition behind_of (remote : string) (branches : list string) (counts : list Z)
  : list (string * Z) :=
  map (fun bn => (short_name remote bn.1, bn.2))
      (List.filter (fun bn => (bn.2 >? 0)%Z) (zip branches counts)).

(** The pushes that bring the branches behind main level with it. *)
Definition level_pushes (s : session) (behind_branches : list (string * Z))
  : list (list string) :=
  map (fun b => push_cmd s (main s +:+ ":" +:+ b.1)) behind_branches.

(** The tab after a cycle that found nothing to do. *)
Definition idle (s : session) : session :=
  set_last_commit_count ∅
    (set_info_label "All branches are synchronized" (set_state_label Idle s)).

(** The tab after the branches behind main have been brought level. *)
Definition levelled (n : nat) (s : session) : session :=
  set_info_label (Py.str (Z.of_nat n) +:+ " branches synchronized")
    (set_state_label Sync_OK s).

(** A command [push_main_and_branches] may start, the settings being [st]:
    the push of main, the listing, or the push of main to a listed branch
    whose synchronisation is on. *)
Definition fanout_command (s : session) (st : settings) (cmd : list string) : Prop :=
  cmd = push_cmd s (main s) \/ cmd = listing_cmd s \/
  exists b,
    is_enabled (branch_states_of st (repo_path s)) (default_enabled_of st)
               (short_name (remote s) b) = true /\
    cmd = push_cmd s (main s +:+ ":" +:+ short_name (remote s) b).

(** [git merge <remote>/<branch> -m "Merge <branch>"] and
    [git merge --abort] as the tab issues them. *)
Definition merge_cmd (s : session) (branch : string) : list string :=
  [git s; "merge"; remote s +:+ "/" +:+ branch; "-m"; "Merge " +:+ branch].

Definition abort_cmd (s : session) : list string := [git s; "merge"; "--abort"].

(** A tab after [stop_all_polling] has gone over it. *)
Definition halted (tab : session) : session :=
  if polling tab then set_stop_event true (set_polling false tab) else tab.

(** The names the loop of [add_repo] tries, by the value of [counter]:
    the name of the repository first, then the name with the counter. *)
Definition candidate (repo_name : string) (counter : Z) : string :=
  if (counter =? 1)%Z then repo_name
  else repo_name +:+ " (" +:+ Py.str counter +:+ ")".

(** [git symbolic-ref refs/remotes/<remote>/HEAD] *)
Definition head_cmd (git remote : string) : list string :=
  [git; "symbolic-ref"; "refs/remotes/" +:+ remote +:+ "/HEAD"].

(** [git branch -r --list <ref>] *)
Definition branch_list_cmd (git ref : string) : list string :=
  [git; "branch"; "-r"; "--list"; ref].

(** [run_git cmd cwd] exits with code 0 and prints something in world
    [w]; for [printed_text], something other than blanks. *)
Definition printed (cmd : list string) (cwd : option string) (w : world) : bool :=
  (exit_code cmd cwd w =? 0)%Z && negb (bool_decide (output cmd cwd w = "")).

Definition printed_text (cmd : list string) (cwd : option string) (w : world) : bool :=
  (exit_code cmd cwd w =? 0)%Z && negb (bool_decide (Py.strip (output cmd cwd w) = "")).

(** The remote [detect_repo_settings] settles on in world [w]: the first
    line [git remote] prints, or the default when it fails or prints
    nothing. *)
Definition detected_remote (defaults : repo_config) (git : string)
  (cwd : option string) (w : world) : string :=
  if printed (remote_cmd git) cwd w
  then hd (cfg_remote defaults) (Py.splitlines (output (remote_cmd git) cwd w))
  else cfg_remote defaults.

(** The text holds no slash. *)
Definition no_slash (s : string) : bool :=
  negb (Py.contains_char (fun c => Ascii.eqb c "/") s).

(** A property of the world that survives the start of every subprocess
    and every write of the settings file; only a notification may break
    it. *)
Definition quiet_stable (R : world -> Prop) : Prop :=
  forall w, R w ->
    (forall inv, R (world_ran inv w)) /\
    (forall st, R (world_saved st w)).

(** The alert of a new commit, as the tab requests it. *)
Definition commit_alert (s : session) : list notification :=
  Sound "commit" ::
  (if desktop_notifications s
   then [Desktop ("GitHerd — " +:+ repo_name s) "New commit detected!" "normal"]
   else []).

(** The two counts of each branch of [branches], read one branch after the
    other from world [w] as a cycle reads them: what git reported for every
    branch, or the exception of the first count that raises. *)
Fixpoint observations (s : session) (branches : list string) (w : world)
  : outcome (list observation) :=
  match branches with
  | [] => Return []
  | b :: rest =>
      let main_ref := remote s +:+ "/" +:+ main s in
      match commits_ahead main_ref b (Some (repo_path s)) (git s) w with
      | (Raise e, _) => Raise e
      | (Return ahead, w1) =>
          match commits_behind main_ref b (Some (repo_path s)) (git s) w1 with
          | (Raise e, _) => Raise e
          | (Return behind, w2) =>
              match observations s rest w2 with
              | Raise e => Raise e
              | Return obs => Return ((b, ahead, behind) :: obs)
              end
          end
      end
  end.

(** Whether the observations [obs] hold a new commit, the counts recorded
    on the tab being [counts]: a branch that is ahead is new when its count
    is above the one recorded for its short name (0 when none is
    recorded); its count is recorded before the next branch is looked
    at. *)
Fixpoint new_commit_among (remote : string) (counts : gmap string Z)
  (obs : list observation) : bool :=
  match obs with
  | [] => false
  | o :: rest =>
      if (o.1.2 >? 0)%Z then
        (o.1.2 >? default 0%Z (counts !! short_name remote o.1.1))%Z ||
        new_commit_among remote (<[short_name remote o.1.1 := o.1.2]> counts) rest
      else new_commit_among remote counts rest
  end.

(** Whether the cycle that starts in [st] finds a new commit: it gets as
    far as the listing, every count of the enabled branches succeeds, and
    the counts hold a new commit against those recorded on the tab. *)
Definition finds_new_commit (st : sys) : bool :=
  let s := self st in
  match listing_of_cycle st with
  | None => false
  | Some all_branches =>
      match observations s (enabled_of s (settings_file (env st)) all_branches)
              (ran (listing_cmd s) (here st) (listing_world st)) with
      | Return obs => new_commit_among (remote s) (last_commit_count s) obs
      | Raise _ => false
      end
  end.

(** Two worlds in which git answers alike. *)
Definition same_answers (w w' : world) : Prop :=
  os w = os w' /\ clock w = clock w'.

(** The notifications of a cycle whose classification ended with [r]: the
    alert [a] when the tally holds a new commit, nothing otherwise. *)
Definition alerts_of (r : outcome (option (list string * tally)))
  (a : list notification) : list notification :=
  match r with
  | Return (Some (_, t)) => if new_commits_detected t then a else []
  | _ => []
  end.

(** A subprocess that does not complete with exit code 0. *)
Definition failed (p : subprocess_result) : Prop :=
  match p with
  | Completed 0 _ _ => False
  | _ => True
  end.

(** ** More concrete repositories *)

(** [/repo] is not a git repository. *)
Definition not_a_repository : world :=
  world_of [ (["git"; "rev-parse"; "--git-dir"],
              Completed 128 "" "fatal: not a git repository (or any of the parent directories): .git") ].

(** Every [git diff] exits with code 128; every other command succeeds with
    no output. *)
Definition diff_unavailable : world :=
  World (fun _ inv =>
           if bool_decide (verb (inv_cmd inv) = "diff")
           then Completed 128 "" "fatal: bad revision"
           else Completed 0 "" "")
        0 [] settings0 [] (fun _ => false) 0.

(** [claude/a] has diverged from main, two commits ahead and one behind;
    [claude/b] is level with main. *)
Definition one_diverged : world :=
  world_of [ listing_ab;
             (count_cmd "origin/main" "main", Completed 0 "0" "");
             (count_cmd "origin/main" "origin/claude/a", Completed 0 "2" "");
             (count_cmd "origin/main" "origin/claude/b", Completed 0 "0" "");
             (count_cmd "origin/claude/a" "origin/main", Completed 0 "1" "");
             (count_cmd "origin/claude/b" "origin/main", Completed 0 "0" "");
             (files_cmd "origin/claude/a", Completed 0 "shared.txt" "") ].

(** The line feed that ends what git prints. *)
Definition newline : string := String (ascii_of_nat 10) "".

(** [git rev-list --count origin/main..origin/claude/a] prints 3 and a line
    feed. *)
Definition count_printed : world :=
  world_of [ (count_cmd "origin/main" "origin/claude/a",
              Completed 0 ("3" +:+ newline) "") ].

(** A text made of decimal digits only. *)
Fixpoint all_digits (s : string) : bool :=
  match s with
  | EmptyString => true
  | String c rest =>
      (48 <=? nat_of_ascii c)%nat && (nat_of_ascii c <=? 57)%nat && all_digits rest
  end.

(** A healthy repository whose count of [claude/a] fails: the rev-list
    exits with code 128. *)
Definition scan_count_fails : world :=
  world_of [ (["git"; "remote"], Completed 0 "origin" "");
             listing_ab;
             (count_cmd "origin/main" "main", Completed 0 "0" "");
             (count_cmd "origin/main" "origin/claude/a",
              Completed 128 "" "fatal: bad revision") ].

(** A healthy repository in which [claude/a] and [claude/b] are both ahead
    and touch different files. *)
Definition scan_two_ahead : world :=
  world_of [ (["git"; "remote"], Completed 0 "origin" "");
             listing_ab;
             (count_cmd "origin/main" "main", Completed 0 "0" "");
             (count_cmd "origin/main" "origin/claude/a", Completed 0 "3" "");
             (count_cmd "origin/main" "origin/claude/b", Completed 0 "1" "");
             (count_cmd "origin/claude/a" "origin/main", Completed 0 "0" "");
             (count_cmd "origin/claude/b" "origin/main", Completed 0 "0" "");
             (files_cmd "origin/claude/a", Completed 0 "a.txt" "");
             (files_cmd "origin/claude/b", Completed 0 "b.txt" "") ].

(** A tab that has just been created: nothing pending, not polling, the
    label still empty. *)
Definition tab_new : session :=
  Session "git" "origin" "main" "claude/" "/repo" "repo" true
    false false false false ∅ [] true "" (Other_text "") "" false [].

(** [claude/a] is two commits behind main, [claude/b] is level; nothing is
    ahead. *)
Definition one_behind : world :=
  world_of [ listing_ab;
             (count_cmd "origin/main" "main", Completed 0 "0" "");
             (count_cmd "origin/main" "origin/claude/a", Completed 0 "0" "");
             (count_cmd "origin/main" "origin/claude/b", Completed 0 "0" "");
             (count_cmd "origin/claude/a" "origin/main", Completed 0 "2" "");
             (count_cmd "origin/claude/b" "origin/main", Completed 0 "0" "") ].

(** Both branches are ahead of main, as in scenario B, and nothing has ever
    been saved in the settings file. *)
Definition no_settings_two_ahead : world :=
  World (scripted
           [ listing_ab;
             (count_cmd "origin/main" "main", Completed 0 "0" "");
             (count_cmd "origin/main" "origin/claude/a", Completed 0 "3" "");
             (count_cmd "origin/main" "origin/claude/b", Completed 0 "1" "");
             (count_cmd "origin/claude/a" "origin/main", Completed 0 "0" "");
             (count_cmd "origin/claude/b" "origin/main", Completed 0 "0" "") ])
        0 [] (Settings None None ∅) [] (fun _ => false) 0.

(** The settings file switches [claude/b] off; every push succeeds. *)
Definition b_switched_off : world :=
  World (scripted [ listing_ab ]) 0 []
        (Settings (Some {[ "/repo" := {[ "claude/a" := true; "claude/b" := false ]} ]})
                  None ∅)
        [] (fun _ => false) 0.

(** An application with two tabs: [repo] is polling, [other] has stopped on
    two pending branches. *)
Definition two_tabs : application :=
  App [("repo", tab0); ("other", tab_merge_possible)] "GitHerd" [].

(** The defaults of a repository configuration, as the spec names them. *)
Definition defaults0 : repo_config := RepoConfig "origin" "main" ∅.

(** A clone of a repository whose remote is [upstream] and whose default
    branch is [release/1.0]. *)
Definition upstream_clone : world :=
  world_of [ (["git"; "remote"], Completed 0 "upstream" "");
             (["git"; "symbolic-ref"; "refs/remotes/upstream/HEAD"],
              Completed 0 "refs/remotes/upstream/release/1.0" "") ].

(** A clone whose remote [origin] has no HEAD and whose only branch is
    [master]. *)
Definition headless_clone : world :=
  world_of [ (["git"; "remote"], Completed 0 "origin" "");
             (["git"; "symbolic-ref"; "refs/remotes/origin/HEAD"],
              Completed 128 "" "fatal: ref refs/remotes/origin/HEAD is not a symbolic ref");
             (["git"; "branch"; "-r"; "--list"; "origin/master"],
              Completed 0 "  origin/master" "") ].

(** Scenario A, with the operator pressing "Stop polling" during the first
    wait of the loop. *)
Definition one_ahead_then_stop : world :=
  World (os one_ahead) 0 [] settings0 [] (fun n => (n =? 0)%nat) 0.

(** A tab in the middle of a cycle: the lock is held. *)
Definition tab_busy : session :=
  Session "git" "origin" "main" "claude/" "/repo" "repo" true
    true true false true ∅ [] true "" Sync_running "" false [].

(** * The built-ins at work *)

Example strip_ex : Py.strip "  3
" = "3".
Proof. reflexivity. Qed.

Example splitlines_ex :
  Py.splitlines "origin/claude/a
origin/claude/b
" = ["origin/claude/a"; "origin/claude/b"].
Proof. reflexivity. Qed.

Example replace_ex : Py.replace "origin/claude/a" "origin/" "" = "claude/a".
Proof. reflexivity. Qed.

Example int_ex : Py.int " 42 " = Some 42%Z /\ Py.int "" = None /\ Py.int "-7" = Some (-7)%Z.
Proof. repeat split; reflexivity. Qed.

Example str_ex : Py.str 120 = "120" /\ Py.str (-3) = "-3".
Proof. split; vm_compute; reflexivity. Qed.

(** * Reasoning about computations *)

Lemma bind_Return {S A B} (c : M S A) (k : A -> M S B) s a s' :
  c s = (Return a, s') -> bind c k s = k a s'.
Proof. intros H. unfold bind. rewrite H. reflexivity. Qed.

Lemma bind_Raise {S A B} (c : M S A) (k : A -> M S B) s e s' :
  c s = (Raise e, s') -> bind c k s = (Raise e, s').
Proof. intros H. unfold bind. rewrite H. reflexivity. Qed.

Section Preservation.
Context {S : Type} (P : S -> Prop).

Lemma preserves_ret {A} (a : A) : preserves P (ret a).
Proof. intros s Hs. exact Hs. Qed.

Lemma preserves_raise {A} (e : exn) : preserves P (@raise S A e).
Proof. intros s Hs. exact Hs. Qed.

Lemma preserves_get : preserves P (@get S).
Proof. intros s Hs. exact Hs. Qed.

Lemma preserves_bind {A B} (c : M S A) (k : A -> M S B) :
  preserves P c -> (forall a, preserves P (k a)) -> preserves P (bind c k).
Proof.
  intros Hc Hk s Hs. unfold bind.
  specialize (Hc s Hs). destruct (c s) as [[a | e] s']; simpl in *.
  - apply Hk, Hc.
  - exact Hc.
Qed.

Lemma preserves_when (b : bool) (c : M S unit) :
  preserves P c -> preserves P (when b c).
Proof. intros Hc. destruct b; simpl; [exact Hc | apply preserves_ret]. Qed.

Lemma preserves_try_finally {A} (body : M S A) (cleanup : M S unit) :
  preserves P body -> preserves P cleanup -> preserves P (try_finally body cleanup).
Proof.
  intros Hb Hc s Hs. unfold try_finally.
  specialize (Hb s Hs). destruct (body s) as [r s']; simpl in *.
  specialize (Hc s' Hb). destruct (cleanup s') as [[[] | e] s'']; exact Hc.
Qed.

Lemma preserves_try_except {A} (body : M S A) (handler : exn -> M S A) :
  preserves P body -> (forall e, preserves P (handler e)) ->
  preserves P (try_except body handler).
Proof.
  intros Hb Hh s Hs. unfold try_except.
  specialize (Hb s Hs). destruct (body s) as [[a | e] s']; simpl in *.
  - exact Hb.
  - apply Hh, Hb.
Qed.

Lemma preserves_modify (f : S -> S) :
  (forall s, P s -> P (f s)) -> preserves P (modify f).
Proof. intros Hf s Hs. apply Hf, Hs. Qed.

End Preservation.

(** A property of the tab alone survives every call into the world, and a
    property of the world alone survives every statement on [self]. *)
Lemma preserves_in_env_self {A} (Q : session -> Prop) (c : M world A) :
  preserves (fun st => Q (self st)) (in_env c).
Proof. intros st H. unfold in_env. destruct (c (env st)); exact H. Qed.

Lemma preserves_in_env {A} (R : world -> Prop) (c : M world A) :
  preserves R c -> preserves (fun st => R (env st)) (in_env c).
Proof.
  intros Hc st H. unfold in_env. specialize (Hc (env st) H).
  destruct (c (env st)); exact Hc.
Qed.

Lemma preserves_on_self_env (R : world -> Prop) (f : session -> session) :
  preserves (fun st => R (env st)) (on_self f).
Proof. intros st H. exact H. Qed.

Lemma preserves_on_self (Q : session -> Prop) (f : session -> session) :
  (forall s, Q s -> Q (f s)) -> preserves (fun st => Q (self st)) (on_self f).
Proof. intros Hf st H. apply Hf, H. Qed.

Create HintDb pres discriminated.

#[export] Hint Resolve preserves_ret preserves_raise preserves_get
  preserves_in_env_self preserves_on_self_env : pres.

(** One step of a preservation proof: split the computation along its
    syntax and leave the calls to the hint database. *)
Ltac pres_step :=
  match goal with
  | |- preserves _ (bind _ _) => apply preserves_bind; [ | intros ]
  | |- preserves _ (when _ _) => apply preserves_when
  | |- preserves _ (try_finally _ _) => apply preserves_try_finally
  | |- preserves _ (try_except _ _) => apply preserves_try_except; [ | intros ]
  | |- preserves _ (on_self _) => apply preserves_on_self; intros ? ?
  | |- preserves _ (in_env _) => apply preserves_in_env
  | |- preserves _ (if ?b then _ else _) => destruct b
  | |- preserves _ (match ?x with _ => _ end) => destruct x
  | |- preserves _ _ => solve [ eauto with pres ]
  end.

Ltac pres := repeat pres_step.

(** * The process runner *)

Lemma run_git_eq cmd cwd w :
  run_git cmd cwd w = (Return (run_git_value cmd (answer cmd cwd w)), ran cmd cwd w).
Proof.
  unfold run_git, bind, subprocess_run, answer, ran.
  destruct cmd as [| c0 cmd']; [reflexivity |].
  destruct (os w (clock w) (Invocation (c0 :: cmd') cwd 30)); reflexivity.
Qed.

(** C8. For every command, working directory and world, [run_git] returns
    and never raises.  A process that completes hands back its own exit
    code, zero or not, with both streams stripped; a timeout, a missing
    executable and any other exception become exit code 1 with an empty
    output and a diagnostic text; and every process is started with a
    timeout of 30 seconds. *)
Theorem run_git_never_raises (cmd : list string) (cwd : option string) (w : world) :
  exists code out err w',
    run_git cmd cwd w = (Return (code, out, err), w') /\
    (* the result, case by case *)
    (forall rc so se, answer cmd cwd w = Completed rc so se ->
       code = rc /\ out = Py.strip so /\ err = Py.strip se) /\
    (answer cmd cwd w = TimeoutExpired ->
       code = 1%Z /\ out = "" /\ err = "Timeout") /\
    (answer cmd cwd w = FileNotFoundError ->
       code = 1%Z /\ out = "" /\ exists c0 rest, cmd = c0 :: rest /\
       err = "Command not found: " +:+ c0) /\
    (forall msg, answer cmd cwd w = OtherException msg ->
       code = 1%Z /\ out = "" /\ err = msg) /\
    (* the 30 second ceiling *)
    (forall inv, inv ∈ history w' -> inv ∈ history w \/ inv_timeout inv = 30%Z).
Proof.
  destruct (run_git_value cmd (answer cmd cwd w)) as [[code out] err] eqn:Hv.
  exists code, out, err, (ran cmd cwd w).
  split; [rewrite run_git_eq, Hv; reflexivity |].
  repeat split.
  - rewrite H in Hv. simpl in Hv. congruence.
  - rewrite H in Hv. simpl in Hv. congruence.
  - rewrite H in Hv. simpl in Hv. congruence.
  - rewrite H in Hv. simpl in Hv. congruence.
  - rewrite H in Hv. simpl in Hv. congruence.
  - rewrite H in Hv. simpl in Hv. congruence.
  - rewrite H in Hv. simpl in Hv. congruence.
  - rewrite H in Hv. simpl in Hv. congruence.
  - destruct cmd as [| c0 rest]; [discriminate H |].
    exists c0, rest. split; [reflexivity |].
    rewrite H in Hv. simpl in Hv. congruence.
  - rewrite H in Hv. simpl in Hv. congruence.
  - rewrite H in Hv. simpl in Hv. congruence.
  - rewrite H in Hv. simpl in Hv. congruence.
  - intros inv Hin. destruct cmd as [| c0 rest]; simpl in Hin; [left; exact Hin |].
    apply elem_of_app in Hin as [Hin | Hin]; [left; exact Hin | right].
    apply list_elem_of_singleton in Hin. subst inv. reflexivity.
Qed.

(** A process that times out, one that exits with code 128 and a missing
    executable. *)
Example run_git_examples :
  let w r := World (fun _ _ => r) 0 [] settings0 [] (fun _ => false) 0 in
  (run_git ["git"; "fetch"; "origin"] None (w TimeoutExpired)).1
    = Return (1%Z, "", "Timeout") /\
  (run_git ["git"; "fetch"; "origin"] None (w (Completed 128 "" "fatal: no remote
"))).1
    = Return (128%Z, "", "fatal: no remote") /\
  (run_git ["nogit"; "fetch"] None (w FileNotFoundError)).1
    = Return (1%Z, "", "Command not found: nogit") /\
  map inv_timeout (history (run_git ["git"; "fetch"; "origin"] None (w TimeoutExpired)).2)
    = [30%Z].
Proof. vm_compute. repeat split. Qed.

(** * The branch inspector *)

Lemma commits_behind_failure base tip cwd git w :
  exit_code (rev_list_cmd git tip base) cwd w ≠ 0%Z ->
  commits_behind base tip cwd git w = (Return 0%Z, ran (rev_list_cmd git tip base) cwd w).
Proof.
  intros Hc. unfold commits_behind, exit_code, rev_list_cmd in *.
  erewrite bind_Return by apply run_git_eq.
  destruct (run_git_value _ _) as [[code out] err]; simpl in *.
  destruct (Z.eqb_spec code 0); [contradiction | reflexivity].
Qed.

Lemma get_changed_files_failure base tip cwd git w :
  exit_code (diff_cmd git base tip) cwd w ≠ 0%Z ->
  get_changed_files base tip cwd git w = (Return ∅, ran (diff_cmd git base tip) cwd w).
Proof.
  intros Hc. unfold get_changed_files, exit_code, diff_cmd in *.
  erewrite bind_Return by apply run_git_eq.
  destruct (run_git_value _ _) as [[code out] err]; simpl in *.
  destruct (Z.eqb_spec code 0); [contradiction | reflexivity].
Qed.

Lemma get_changed_files_returns base tip cwd git w :
  exists files,
    get_changed_files base tip cwd git w = (Return files, ran (diff_cmd git base tip) cwd w).
Proof.
  unfold get_changed_files, diff_cmd.
  erewrite bind_Return by apply run_git_eq.
  destruct (run_git_value _ _) as [[code out] err].
  destruct (negb (code =? 0)%Z); eexists; reflexivity.
Qed.

Lemma changed_files_of_returns branches main_ref remote cwd git w :
  exists all_files w',
    changed_files_of branches main_ref remote cwd git w = (Return all_files, w') /\
    length all_files = length branches.
Proof.
  revert w. induction branches as [| b rest IH]; intros w; simpl.
  - exists [], w. split; reflexivity.
  - destruct (get_changed_files_returns main_ref (remote +:+ "/" +:+ b) cwd git w)
      as [files Hf].
    destruct (IH (ran (diff_cmd git main_ref (remote +:+ "/" +:+ b)) cwd w))
      as (others & w' & Ho & Hlen).
    exists (files :: others), w'. split.
    + erewrite bind_Return by exact Hf.
      erewrite bind_Return by exact Ho. reflexivity.
    + simpl. rewrite Hlen. reflexivity.
Qed.

Lemma are_files_disjoint_returns branches main_ref remote cwd git w :
  exists all_files w',
    changed_files_of branches main_ref remote cwd git w = (Return all_files, w') /\
    are_files_disjoint branches main_ref remote cwd git w
      = (Return (no_overlap all_files), w').
Proof.
  destruct (changed_files_of_returns branches main_ref remote cwd git w)
    as (all_files & w' & Hc & _).
  exists all_files, w'. split; [exact Hc |].
  unfold are_files_disjoint. erewrite bind_Return by exact Hc. reflexivity.
Qed.

Lemma local_main_ahead_returns remote main cwd git w :
  exists n,
    local_main_ahead remote main cwd git w
      = (Return n, ran (rev_list_cmd git (remote +:+ "/" +:+ main) main) cwd w).
Proof.
  unfold local_main_ahead, try_except, commits_ahead, rev_list_cmd.
  erewrite bind_Return by apply run_git_eq.
  destruct (run_git_value _ _) as [[code out] err].
  destruct (negb (code =? 0)%Z); [eexists; reflexivity |].
  unfold int_of. destruct (Py.int out); eexists; reflexivity.
Qed.

Lemma local_main_ahead_failure remote main cwd git w :
  exit_code (rev_list_cmd git (remote +:+ "/" +:+ main) main) cwd w ≠ 0%Z ->
  local_main_ahead remote main cwd git w
    = (Return 0%Z, ran (rev_list_cmd git (remote +:+ "/" +:+ main) main) cwd w).
Proof.
  intros Hc. unfold local_main_ahead, try_except, commits_ahead, exit_code, rev_list_cmd in *.
  erewrite bind_Return by apply run_git_eq.
  destruct (run_git_value _ _) as [[code out] err]; simpl in *.
  destruct (Z.eqb_spec code 0); [contradiction | reflexivity].
Qed.

(** C9. For every pair of refs and every branch list: when the rev-list
    command of the behind count exits non-zero, [commits_behind] returns 0;
    when the diff command exits non-zero, [get_changed_files] returns the
    empty set; when the rev-list command of the local-main count exits
    non-zero, [local_main_ahead] returns 0.  Each of them returns instead of
    raising, so the caller goes on; [local_main_ahead] and
    [are_files_disjoint] return whatever happens. *)
Theorem tolerated_failures_return_defaults
  (base tip remote main : string) (branches : list string)
  (cwd : option string) (git : string) (w : world) :
  (exit_code (rev_list_cmd git tip base) cwd w ≠ 0%Z ->
   commits_behind base tip cwd git w
     = (Return 0%Z, ran (rev_list_cmd git tip base) cwd w)) /\
  (exit_code (diff_cmd git base tip) cwd w ≠ 0%Z ->
   get_changed_files base tip cwd git w
     = (Return ∅, ran (diff_cmd git base tip) cwd w)) /\
  (exit_code (rev_list_cmd git (remote +:+ "/" +:+ main) main) cwd w ≠ 0%Z ->
   local_main_ahead remote main cwd git w
     = (Return 0%Z, ran (rev_list_cmd git (remote +:+ "/" +:+ main) main) cwd w)) /\
  returns (local_main_ahead remote main cwd git w).1 = true /\
  returns (get_changed_files base tip cwd git w).1 = true /\
  returns (are_files_disjoint branches base remote cwd git w).1 = true.
Proof.
  split; [apply commits_behind_failure |].
  split; [apply get_changed_files_failure |].
  split; [apply local_main_ahead_failure |].
  split; [| split].
  - destruct (local_main_ahead_returns remote main cwd git w) as [n ->]. reflexivity.
  - destruct (get_changed_files_returns base tip cwd git w) as [f ->]. reflexivity.
  - destruct (are_files_disjoint_returns branches base remote cwd git w)
      as (fs & w' & _ & ->). reflexivity.
Qed.

Lemma tolerated_failures_witness :
  (commits_behind "origin/main" "origin/claude/a" (Some "/repo") "git" refs_unresolved).1
    = Return 0%Z /\
  (get_changed_files "origin/main" "origin/claude/a" (Some "/repo") "git" refs_unresolved).1
    = Return ∅ /\
  (local_main_ahead "origin" "main" (Some "/repo") "git" refs_unresolved).1 = Return 0%Z.
Proof.
  destruct (tolerated_failures_return_defaults "origin/main" "origin/claude/a"
              "origin" "main" [] (Some "/repo") "git" refs_unresolved)
    as (Hb & Hf & Hl & _).
  rewrite Hb by (vm_compute; discriminate).
  rewrite Hf by (vm_compute; discriminate).
  rewrite Hl by (vm_compute; discriminate).
  repeat split.
Defined.

(** * Frame properties *)

Section EnvFrame.
Context (R : world -> Prop) (HR : env_stable R).

Lemma run_git_stable cmd cwd : preserves R (run_git cmd cwd).
Proof.
  intros w Hw. rewrite run_git_eq. simpl.
  destruct cmd; simpl; [exact Hw | apply HR, Hw].
Qed.
Hint Resolve run_git_stable : pres.

Lemma int_of_stable out : preserves R (int_of out).
Proof. unfold int_of. pres. Qed.
Hint Resolve int_of_stable : pres.

Lemma commits_ahead_stable base tip cwd git : preserves R (commits_ahead base tip cwd git).
Proof. unfold commits_ahead. pres. Qed.

Lemma commits_behind_stable base tip cwd git : preserves R (commits_behind base tip cwd git).
Proof. unfold commits_behind. pres. Qed.

Lemma get_tracked_branches_stable remote prefix cwd git :
  preserves R (get_tracked_branches remote prefix cwd git).
Proof. unfold get_tracked_branches. pres. Qed.

Lemma get_changed_files_stable base tip cwd git :
  preserves R (get_changed_files base tip cwd git).
Proof. unfold get_changed_files. pres. Qed.
Hint Resolve commits_ahead_stable get_changed_files_stable : pres.

Lemma changed_files_of_stable branches main_ref remote cwd git :
  preserves R (changed_files_of branches main_ref remote cwd git).
Proof. induction branches; simpl; pres. Qed.
Hint Resolve changed_files_of_stable : pres.

Lemma are_files_disjoint_stable branches main_ref remote cwd git :
  preserves R (are_files_disjoint branches main_ref remote cwd git).
Proof. unfold are_files_disjoint. pres. Qed.

Lemma local_main_ahead_stable remote main cwd git :
  preserves R (local_main_ahead remote main cwd git).
Proof. unfold local_main_ahead. pres. Qed.

Lemma load_global_settings_stable : preserves R load_global_settings.
Proof. intros w Hw. exact Hw. Qed.

Lemma play_sound_stable name : preserves R (play_sound name).
Proof. intros w Hw. apply HR, Hw. Qed.

Lemma send_notification_stable t m u : preserves R (send_notification t m u).
Proof. intros w Hw. apply HR, Hw. Qed.

End EnvFrame.

#[export] Hint Resolve run_git_stable int_of_stable commits_ahead_stable
  commits_behind_stable get_tracked_branches_stable get_changed_files_stable
  changed_files_of_stable are_files_disjoint_stable local_main_ahead_stable
  load_global_settings_stable play_sound_stable send_notification_stable : pres.

Section WorldFrame.
Context (R : world -> Prop) (HR : env_stable R).
Let P : sys -> Prop := fun st => R (env st).

Lemma run_git_here_world cmd : preserves P (run_git_here cmd).
Proof. unfold run_git_here. pres. Qed.
Hint Resolve run_git_here_world : pres.

Lemma stop_polling_world : preserves P stop_polling.
Proof. unfold stop_polling, after. pres. Qed.
Hint Resolve stop_polling_world : pres.

Lemma push_each_world all_branches branch_states default_enabled :
  preserves P (push_each all_branches branch_states default_enabled).
Proof. induction all_branches; simpl; pres. Qed.
Hint Resolve push_each_world : pres.

Lemma push_main_and_branches_world : preserves P push_main_and_branches.
Proof. unfold push_main_and_branches. pres. Qed.
Hint Resolve push_main_and_branches_world : pres.

Lemma classify_branch_world b t : preserves P (classify_branch b t).
Proof. unfold classify_branch. pres. Qed.
Hint Resolve classify_branch_world : pres.

Lemma classify_world branches t : preserves P (classify branches t).
Proof. revert t. induction branches; intros t; simpl; pres. Qed.

Lemma announce_new_commit_world : preserves P announce_new_commit.
Proof. unfold announce_new_commit, after. pres. Qed.
Hint Resolve classify_world announce_new_commit_world : pres.

Lemma sync_tally_world branches : preserves P (sync_tally branches).
Proof. unfold sync_tally. pres. Qed.
Hint Resolve sync_tally_world : pres.

Lemma collect_behind_world branches : preserves P (collect_behind branches).
Proof. induction branches; simpl; pres. Qed.

Lemma push_behind_world behind_branches : preserves P (push_behind behind_branches).
Proof. induction behind_branches as [| [n b] rest IH]; simpl; pres. Qed.
Hint Resolve collect_behind_world push_behind_world : pres.

Lemma sync_nothing_ahead_world branches : preserves P (sync_nothing_ahead branches).
Proof. unfold sync_nothing_ahead. pres. Qed.

Lemma sync_stop_world t : preserves P (sync_stop t).
Proof. unfold sync_stop, show_merge_button. pres. Qed.

Lemma sync_leader_world t : preserves P (sync_leader t).
Proof. unfold sync_leader. pres. Qed.
Hint Resolve sync_nothing_ahead_world sync_stop_world sync_leader_world : pres.

Lemma sync_decide_world branches t : preserves P (sync_decide branches t).
Proof. unfold sync_decide. pres. Qed.
Hint Resolve sync_decide_world : pres.

Lemma merge_each_world branches : preserves P (merge_each branches).
Proof. induction branches; simpl; pres. Qed.
Hint Resolve merge_each_world : pres.

Lemma _do_merge_impl_world : preserves P _do_merge_impl.
Proof. unfold _do_merge_impl, hide_merge_button, after. pres. Qed.

Lemma lock_acquire_world : preserves P lock_acquire.
Proof. unfold lock_acquire. pres. Qed.

Lemma lock_release_world : preserves P lock_release.
Proof. unfold lock_release. pres. Qed.
Hint Resolve _do_merge_impl_world lock_acquire_world lock_release_world : pres.

Lemma _do_merge_world : preserves P _do_merge.
Proof. unfold _do_merge. pres. Qed.

Lemma conclude_world r : preserves P (conclude r).
Proof. unfold conclude. pres. Qed.
Hint Resolve conclude_world : pres.

(** With the settings file out of [R]'s sight as well, the whole cycle
    keeps [R]. *)
Context (HRs : forall st w, R w -> R (world_saved st w)).

Lemma save_global_settings_world st : preserves R (save_global_settings st).
Proof. intros w Hw. apply HRs, Hw. Qed.
Hint Resolve save_global_settings_world : pres.

Lemma clean_persistence_world settings0 all_branches :
  preserves P (clean_persistence settings0 all_branches).
Proof. unfold clean_persistence. pres. Qed.
Hint Resolve clean_persistence_world : pres.

Lemma sync_branches_world all_branches : preserves P (sync_branches all_branches).
Proof. unfold sync_branches. pres. Qed.
Hint Resolve sync_branches_world : pres.

Lemma sync_after_fetch_world code err : preserves P (sync_after_fetch code err).
Proof. unfold sync_after_fetch. pres. Qed.
Hint Resolve sync_after_fetch_world : pres.

Lemma sync_after_fetch_then_decide_world code err :
  preserves P (bind (sync_after_fetch code err) conclude).
Proof. pres. Qed.

End WorldFrame.

#[export] Hint Resolve run_git_here_world stop_polling_world push_each_world
  push_main_and_branches_world classify_branch_world classify_world
  announce_new_commit_world sync_tally_world collect_behind_world push_behind_world
  sync_nothing_ahead_world sync_stop_world sync_leader_world sync_decide_world
  merge_each_world _do_merge_impl_world lock_acquire_world lock_release_world
  _do_merge_world conclude_world : pres.

Section SelfFrame.
Context (Q : session -> Prop) (HQ : display_stable Q).
Let P : sys -> Prop := fun st => Q (self st).

Ltac display := pres; try (apply HQ; assumption).

Lemma run_git_here_self cmd : preserves P (run_git_here cmd).
Proof. unfold run_git_here. display. Qed.
Hint Resolve run_git_here_self : pres.

Lemma after_self j : preserves P (after j).
Proof. unfold after. display. Qed.
Hint Resolve after_self : pres.

Lemma stop_polling_self : preserves P stop_polling.
Proof. unfold stop_polling. display. Qed.
Hint Resolve stop_polling_self : pres.

Lemma push_each_self all_branches branch_states default_enabled :
  preserves P (push_each all_branches branch_states default_enabled).
Proof. induction all_branches; simpl; display. Qed.
Hint Resolve push_each_self : pres.

Lemma push_main_and_branches_self : preserves P push_main_and_branches.
Proof. unfold push_main_and_branches. display. Qed.
Hint Resolve push_main_and_branches_self : pres.

Lemma clean_persistence_self settings0 all_branches :
  preserves P (clean_persistence settings0 all_branches).
Proof. unfold clean_persistence. display. Qed.
Hint Resolve clean_persistence_self : pres.

Lemma classify_branch_self b t : preserves P (classify_branch b t).
Proof. unfold classify_branch. display. Qed.
Hint Resolve classify_branch_self : pres.

Lemma classify_self branches t : preserves P (classify branches t).
Proof. revert t. induction branches; intros t; simpl; display. Qed.

Lemma announce_new_commit_self : preserves P announce_new_commit.
Proof. unfold announce_new_commit. display. Qed.
Hint Resolve classify_self announce_new_commit_self : pres.

Lemma sync_tally_self branches : preserves P (sync_tally branches).
Proof. unfold sync_tally. display. Qed.
Hint Resolve sync_tally_self : pres.

Lemma sync_branches_self all_branches : preserves P (sync_branches all_branches).
Proof. unfold sync_branches. display. Qed.
Hint Resolve sync_branches_self : pres.

Lemma sync_after_fetch_self code err : preserves P (sync_after_fetch code err).
Proof. unfold sync_after_fetch. display. Qed.
Hint Resolve sync_after_fetch_self : pres.

Lemma sync_fetch_self : preserves P sync_fetch.
Proof. unfold sync_fetch. display. Qed.
Hint Resolve sync_fetch_self : pres.

Lemma collect_behind_self branches : preserves P (collect_behind branches).
Proof. induction branches; simpl; display. Qed.

Lemma push_behind_self behind_branches : preserves P (push_behind behind_branches).
Proof. induction behind_branches as [| [n b] rest IH]; simpl; display. Qed.
Hint Resolve collect_behind_self push_behind_self : pres.

Lemma sync_nothing_ahead_self branches : preserves P (sync_nothing_ahead branches).
Proof. unfold sync_nothing_ahead. display. Qed.

Lemma sync_leader_self t : preserves P (sync_leader t).
Proof. unfold sync_leader. display. Qed.

Lemma merge_each_self branches : preserves P (merge_each branches).
Proof. induction branches; simpl; display. Qed.
Hint Resolve sync_nothing_ahead_self sync_leader_self merge_each_self : pres.

(** With [pending_branches] out of [Q]'s sight as well, the whole cycle
    and the whole merge keep [Q]. *)
Context (HQp : forall v s, Q s -> Q (set_pending_branches v s)).
Context (HQm : forall v s, Q s -> Q (set_merge_button v s)).

Ltac display' :=
  pres; try (apply HQ; assumption); try (apply HQp; assumption);
  try (apply HQm; assumption).

Lemma hide_merge_button_self : preserves P hide_merge_button.
Proof. unfold hide_merge_button. display'. Qed.

Lemma show_merge_button_self : preserves P show_merge_button.
Proof. unfold show_merge_button. display'. Qed.
Hint Resolve hide_merge_button_self show_merge_button_self : pres.

Lemma sync_stop_self t : preserves P (sync_stop t).
Proof. unfold sync_stop. display'. Qed.
Hint Resolve sync_stop_self : pres.

Lemma sync_decide_self branches t : preserves P (sync_decide branches t).
Proof. unfold sync_decide. display'. Qed.

Lemma sync_classify_self : preserves P sync_classify.
Proof. unfold sync_classify, hide_merge_button. display'. Qed.
Hint Resolve sync_decide_self sync_classify_self : pres.

Lemma conclude_self r : preserves P (conclude r).
Proof. unfold conclude. display'. Qed.
Hint Resolve conclude_self : pres.

Lemma _do_sync_self : preserves P _do_sync.
Proof. unfold _do_sync. display'. Qed.

Lemma _do_merge_impl_self : preserves P _do_merge_impl.
Proof. unfold _do_merge_impl. display'. Qed.

End SelfFrame.

#[export] Hint Resolve run_git_here_self after_self stop_polling_self
  push_each_self
  push_main_and_branches_self clean_persistence_self classify_branch_self
  classify_self announce_new_commit_self sync_tally_self sync_branches_self
  sync_after_fetch_self sync_fetch_self collect_behind_self push_behind_self
  sync_nothing_ahead_self sync_leader_self merge_each_self : pres.

(** * The lock *)

Lemma lock_display_stable b : display_stable (fun s => lock s = b).
Proof. intros s Hs. repeat split; intros; exact Hs. Qed.

Lemma _do_sync_keeps_lock st :
  lock (self (_do_sync st).2) = lock (self st).
Proof.
  apply (_do_sync_self (fun s => lock s = lock (self st))).
  - apply lock_display_stable.
  - intros v s Hs. exact Hs.
  - intros v s Hs. exact Hs.
  - reflexivity.
Qed.

Lemma _do_merge_impl_keeps_lock st :
  lock (self (_do_merge_impl st).2) = lock (self st).
Proof.
  apply (_do_merge_impl_self (fun s => lock s = lock (self st))).
  - apply lock_display_stable.
  - intros v s Hs. exact Hs.
  - intros v s Hs. exact Hs.
  - reflexivity.
Qed.

Lemma lock_acquire_free st :
  lock (self st) = false ->
  lock_acquire st = (Return true, Sys (set_lock true (self st)) (env st)).
Proof. intros Hl. unfold lock_acquire, bind, get. rewrite Hl. reflexivity. Qed.

Lemma lock_release_held st :
  lock (self st) = true ->
  lock_release st = (Return tt, Sys (set_lock false (self st)) (env st)).
Proof. intros Hl. unfold lock_release, bind, get. rewrite Hl. reflexivity. Qed.

Lemma try_finally_run {S A} (body : M S A) (cleanup : M S unit) s r s1 s2 :
  body s = (r, s1) -> cleanup s1 = (Return tt, s2) ->
  try_finally body cleanup s = (r, s2).
Proof. intros Hb Hc. unfold try_finally. rewrite Hb, Hc. reflexivity. Qed.

Lemma sync_unlocked st :
  lock (self st) = false ->
  (sync st).1 = (_do_sync (entered st)).1 /\ lock (self (sync st).2) = false.
Proof.
  intros Hl.
  pose proof (_do_sync_keeps_lock (entered st)) as Hk. simpl in Hk.
  destruct (_do_sync (entered st)) as [r st1] eqn:Hbody. simpl in Hk.
  assert (Hsync : sync st = (r, Sys (set_lock false
            (add_ui_job Update_repo_menu (add_ui_job Update_tab_color
               (set_syncing false (self st1))))) (env st1))).
  { unfold sync.
    erewrite bind_Return by (apply lock_acquire_free, Hl).
    apply try_finally_run with (s1 := st1); [exact Hbody |].
    do 3 (erewrite bind_Return by reflexivity).
    rewrite lock_release_held; [reflexivity | exact Hk]. }
  rewrite Hsync. split; reflexivity.
Qed.

Lemma _do_merge_unlocked st :
  lock (self st) = false ->
  (_do_merge st).1 = (_do_merge_impl (Sys (set_lock true (self st)) (env st))).1 /\
  lock (self (_do_merge st).2) = false.
Proof.
  intros Hl.
  pose proof (_do_merge_impl_keeps_lock (Sys (set_lock true (self st)) (env st))) as Hk.
  simpl in Hk.
  destruct (_do_merge_impl _) as [r st1] eqn:Hbody. simpl in Hk.
  assert (Hm : _do_merge st = (r, Sys (set_lock false (self st1)) (env st1))).
  { unfold _do_merge.
    erewrite bind_Return by (apply lock_acquire_free, Hl).
    apply try_finally_run with (s1 := st1); [exact Hbody |].
    rewrite lock_release_held; [reflexivity | exact Hk]. }
  rewrite Hm. split; reflexivity.
Qed.

Lemma entry_points_skip_when_locked st :
  lock (self st) = true ->
  sync st = (Return tt, st) /\ _do_merge st = (Return tt, st).
Proof.
  intros Hl.
  assert (Ha : lock_acquire st = (Return false, st))
    by (unfold lock_acquire, bind, get; rewrite Hl; reflexivity).
  split.
  - unfold sync. erewrite bind_Return by exact Ha. reflexivity.
  - unfold _do_merge. erewrite bind_Return by exact Ha. reflexivity.
Qed.

(** C10. When the lock is free, [sync] takes it and gives it back on every
    exit path: whatever [_do_sync] does, return or raise (the exception
    then leaves [sync] as well), the lock is free again afterwards.  The
    same holds for the merge entry point, so after either one the next
    non-blocking acquire succeeds. *)
Theorem sync_releases_lock_on_every_exit (st : sys) :
  lock (self st) = false ->
  (sync st).1 = (_do_sync (entered st)).1 /\
  lock (self (sync st).2) = false /\
  lock (self (_do_merge st).2) = false /\
  (lock_acquire (sync st).2).1 = Return true /\
  (lock_acquire (_do_merge st).2).1 = Return true.
Proof.
  intros Hl.
  destruct (sync_unlocked st Hl) as [Hr Hs].
  destruct (_do_merge_unlocked st Hl) as [_ Hm].
  repeat split; try assumption.
  - unfold lock_acquire, bind, get. rewrite Hs. reflexivity.
  - unfold lock_acquire, bind, get. rewrite Hm. reflexivity.
Qed.

(** The cycle whose ahead count fails raises inside [sync]; the lock is
    free afterwards all the same. *)
Lemma sync_releases_lock_witness :
  lock tab0 = false /\
  (sync (Sys tab0 ahead_count_fails)).1 = Raise (RuntimeError "fatal: bad revision") /\
  lock (self (sync (Sys tab0 ahead_count_fails)).2) = false.
Proof.
  split; [reflexivity |].
  destruct (sync_releases_lock_on_every_exit (Sys tab0 ahead_count_fails) eq_refl)
    as (Hr & Hl & _).
  split; [| exact Hl].
  rewrite Hr. vm_compute. reflexivity.
Defined.

(** * What the pieces of a cycle do *)

Lemma run_git_here_eq cmd st :
  run_git_here cmd st
  = (Return (run_git_value cmd (answer cmd (here st) (env st))),
     Sys (self st) (ran cmd (here st) (env st))).
Proof.
  unfold run_git_here, bind, get, in_env, here. rewrite run_git_eq. reflexivity.
Qed.

Lemma stop_polling_eq st :
  stop_polling st
  = (Return tt, Sys (add_ui_job Update_tab_color (set_polling false (self st))) (env st)).
Proof. reflexivity. Qed.

Lemma sync_fetch_eq st :
  let v := run_git_value (fetch_cmd (self st))
             (answer (fetch_cmd (self st)) (here st) (env st)) in
  sync_fetch st
  = sync_after_fetch v.1.1 v.2
      (Sys (self st) (ran (fetch_cmd (self st)) (here st) (env st))).
Proof.
  cbv zeta. unfold sync_fetch.
  erewrite bind_Return by reflexivity. cbv beta zeta.
  erewrite bind_Return by apply run_git_here_eq.
  fold (fetch_cmd (self st)).
  destruct (run_git_value _ _) as [[code out] err]. reflexivity.
Qed.

Lemma history_ran c cmd cwd w :
  history (ran (c :: cmd) cwd w) = history w ++ [Invocation (c :: cmd) cwd 30].
Proof. reflexivity. Qed.

(** The fan-out never raises.  When it returns [True] every push of the
    fan-out has been run and the tab is untouched; when it returns [False]
    only a non-empty prefix of them has been run, the label reads
    "STOP — Push failed" and polling is off. *)
Lemma push_each_spec all_branches branch_states default_enabled st :
  exists (done : bool) st',
    push_each all_branches branch_states default_enabled st = (Return done, st') /\
    if done then
      self st' = self st /\
      history (env st') = history (env st) ++
        started (self st) (fanout (self st) all_branches branch_states default_enabled)
    else
      exists target k,
        self st' = push_failed target (self st) /\
        (0 < k)%nat /\
        history (env st') = history (env st) ++
          started (self st)
            (take k (fanout (self st) all_branches branch_states default_enabled)).
Proof.
  revert st. induction all_branches as [| b rest IH]; intros st.
  - exists true, st. simpl. split; [reflexivity |]. split; [reflexivity |].
    unfold fanout, started. simpl. rewrite app_nil_r. reflexivity.
  - simpl push_each. erewrite bind_Return by reflexivity. cbv beta zeta.
    unfold fanout. simpl List.filter.
    destruct (is_enabled branch_states default_enabled
                (short_name (remote (self st)) b)) eqn:Hen;
      cbv beta iota delta [negb].
    + erewrite bind_Return by apply run_git_here_eq.
      destruct (run_git_value _ _) as [[code out] err].
      destruct (Z.eqb_spec code 0) as [-> | Hne]; cbv beta iota delta [negb].
      * destruct (IH (Sys (self st)
                       (ran (push_cmd (self st)
                               (main (self st) +:+ ":" +:+ short_name (remote (self st)) b))
                            (here st) (env st))))
          as (done & st' & Hrun & Hpost).
        exists done, st'. split; [exact Hrun |].
        simpl in Hpost. destruct done.
        -- destruct Hpost as [Hs Hh]. split; [exact Hs |].
           rewrite Hh. rewrite <- app_assoc. reflexivity.
        -- destruct Hpost as (target & k & Hs & Hk & Hh).
           exists target, (S k). split; [exact Hs |]. split; [lia |].
           rewrite Hh. rewrite <- app_assoc. reflexivity.
      * exists false. eexists. split.
        -- do 3 (erewrite bind_Return by reflexivity). reflexivity.
        -- exists (short_name (remote (self st)) b), 1%nat.
           split; [reflexivity |]. split; [lia |]. reflexivity.
    + destruct (IH st) as (done & st' & Hrun & Hpost).
      exists done, st'. split; [exact Hrun |]. exact Hpost.
Qed.

Lemma get_tracked_branches_eq s cwd w :
  get_tracked_branches (remote s) (prefix s) cwd (git s) w
  = (listing_of (run_git_value (listing_cmd s) (answer (listing_cmd s) cwd w)),
     ran (listing_cmd s) cwd w).
Proof.
  unfold get_tracked_branches, listing_of.
  erewrite bind_Return by apply run_git_eq.
  fold (listing_cmd s).
  destruct (run_git_value _ _) as [[code out] err]. simpl.
  destruct (negb (code =? 0)%Z); reflexivity.
Qed.

Lemma settings_file_ran cmd cwd w : settings_file (ran cmd cwd w) = settings_file w.
Proof. destruct cmd; reflexivity. Qed.

(** The three ways [push_main_and_branches] can end.  [True]: main and every
    enabled branch of the listing have been pushed, in this order, and the
    tab is untouched.  [False]: a push failed, the label reads "ERROR" or
    "STOP — Push failed" and polling is off.  An exception: the listing
    failed after main was pushed. *)
Lemma push_main_and_branches_spec st :
  let s := self st in
  let branch_states := branch_states_of (settings_file (env st)) (repo_path s) in
  let default_enabled := default_enabled_of (settings_file (env st)) in
  let listed :=
    (get_tracked_branches (remote s) (prefix s) (here st) (git s)
       (ran (push_cmd s (main s)) (here st) (env st))).1 in
  exists r st',
    push_main_and_branches st = (r, st') /\
    match r with
    | Return true =>
        self st' = s /\
        exists all_branches,
          listed = Return all_branches /\
          history (env st') = history (env st) ++
            started s (push_cmd s (main s) :: listing_cmd s ::
                       fanout s all_branches branch_states default_enabled)
    | Return false =>
        (self st' = main_push_failed s /\
         history (env st') = history (env st) ++ started s [push_cmd s (main s)]) \/
        (exists target all_branches k,
           listed = Return all_branches /\
           self st' = push_failed target s /\ (0 < k)%nat /\
           history (env st') = history (env st) ++
             started s (push_cmd s (main s) :: listing_cmd s ::
                        take k (fanout s all_branches branch_states default_enabled)))
    | Raise e =>
        self st' = s /\
        history (env st') = history (env st) ++
          started s [push_cmd s (main s); listing_cmd s]
    end.
Proof.
  intros s branch_states default_enabled listed.
  unfold push_main_and_branches.
  erewrite bind_Return by reflexivity. cbv beta zeta.
  erewrite bind_Return by apply run_git_here_eq.
  fold s. fold (push_cmd s (main s)).
  destruct (run_git_value _ _) as [[code out] err].
  destruct (Z.eqb_spec code 0) as [-> | Hne]; cbv beta iota delta [negb].
  - unfold in_env at 1. unfold bind at 1. cbn [env self].
    unfold listed. rewrite !get_tracked_branches_eq.
    set (w1 := ran (push_cmd s (main s)) (here st) (env st)).
    fold (here st). cbn [fst].
    destruct (listing_of _) as [all_branches | e].
    + unfold bind at 1, in_env, load_global_settings, gets. cbn [env self].
      set (w2 := ran (listing_cmd s) (here st) w1).
      destruct (push_each_spec all_branches
                  (branch_states_of (settings_file w2) (repo_path s))
                  (default_enabled_of (settings_file w2)) (Sys s w2))
        as (done & st' & Hrun & Hpost).
      exists (Return done), st'. split; [exact Hrun |].
      assert (Hset : settings_file w2 = settings_file (env st)).
      { unfold w2, w1. rewrite !settings_file_ran. reflexivity. }
      rewrite Hset in Hpost. cbn [env self] in Hpost.
      destruct done.
      * destruct Hpost as [Hs Hh]. split; [exact Hs |].
        exists all_branches. split; [reflexivity |]. rewrite Hh. unfold w2, w1.
        unfold listing_cmd at 1, push_cmd at 1. rewrite !history_ran.
        rewrite <- !app_assoc. reflexivity.
      * right. destruct Hpost as (target & k & Hs & Hk & Hh).
        exists target, all_branches, k. split; [reflexivity |].
        split; [exact Hs |]. split; [exact Hk |].
        rewrite Hh. unfold w2, w1.
        unfold listing_cmd at 1, push_cmd at 1. rewrite !history_ran.
        rewrite <- !app_assoc. reflexivity.
    + exists (Raise e). eexists. split; [reflexivity |].
      cbn [env self]. split; [reflexivity |].
      unfold w1. unfold listing_cmd at 1, push_cmd at 1. rewrite !history_ran.
      rewrite <- !app_assoc. reflexivity.
  - exists (Return false). eexists. split.
    + do 2 (erewrite bind_Return by reflexivity). reflexivity.
    + left. split; reflexivity.
Qed.

Lemma ran_all_app cmds1 cmds2 cwd w :
  ran_all (cmds1 ++ cmds2) cwd w = ran_all cmds2 cwd (ran_all cmds1 cwd w).
Proof. unfold ran_all. apply fold_left_app. Qed.

Lemma settings_file_ran_all cmds cwd w :
  settings_file (ran_all cmds cwd w) = settings_file w.
Proof.
  revert w. induction cmds as [| c cmds IH]; intros w; [reflexivity |].
  cbn [ran_all fold_left]. fold (ran_all cmds cwd (ran c cwd w)).
  rewrite IH. apply settings_file_ran.
Qed.

(** The loop of the fan-out, by the exit codes of its pushes: it pushes in
    the order of the listing until a push exits with a code other than 0,
    and then names the branch of that push. *)
Lemma push_each_runs all_branches branch_states default_enabled st :
  let s := self st in
  let enabled :=
    List.filter (fun b => is_enabled branch_states default_enabled
                                     (short_name (remote s) b)) all_branches in
  let pushes := fanout s all_branches branch_states default_enabled in
  push_each all_branches branch_states default_enabled st =
    match first_failure pushes (here st) (env st) with
    | None => (Return true, Sys s (ran_all pushes (here st) (env st)))
    | Some k =>
        (Return false,
         Sys (push_failed (short_name (remote s) (nth k enabled "")) s)
             (ran_all (take (S k) pushes) (here st) (env st)))
    end.
Proof.
  cbv zeta. revert st. induction all_branches as [| b rest IH]; intros st.
  - destruct st; reflexivity.
  - cbn [push_each]. erewrite bind_Return by reflexivity. cbv beta zeta.
    unfold fanout. cbn [List.filter].
    destruct (is_enabled branch_states default_enabled
                (short_name (remote (self st)) b)) eqn:Hen;
      cbv beta iota delta [negb].
    + erewrite bind_Return by apply run_git_here_eq.
      cbn [map first_failure]. unfold exit_code.
      fold (push_cmd (self st) (main (self st) +:+ ":" +:+ short_name (remote (self st)) b)).
      destruct (run_git_value _ _) as [[code out] err]. cbn [fst].
      destruct (Z.eqb_spec code 0) as [-> | Hne]; cbv beta iota delta [negb].
      * rewrite IH. cbn [self env]. unfold fanout, here. cbn [self].
        destruct (first_failure _ _ _); reflexivity.
      * do 3 (erewrite bind_Return by reflexivity). reflexivity.
    + apply IH.
Qed.

(** [push_main_and_branches], by the exit codes of the push of main and of
    the listing. *)
Lemma push_main_and_branches_runs st :
  let s := self st in
  let w1 := ran (push_cmd s (main s)) (here st) (env st) in
  let w2 := ran (listing_cmd s) (here st) w1 in
  push_main_and_branches st =
    if negb (exit_code (push_cmd s (main s)) (here st) (env st) =? 0)%Z
    then (Return false, Sys (main_push_failed s) w1)
    else
      match listing_of (run_git_value (listing_cmd s)
                          (answer (listing_cmd s) (here st) w1)) with
      | Raise e => (Raise e, Sys s w2)
      | Return listed =>
          push_each listed (branch_states_of (settings_file (env st)) (repo_path s))
            (default_enabled_of (settings_file (env st))) (Sys s w2)
      end.
Proof.
  cbv zeta. unfold push_main_and_branches.
  erewrite bind_Return by reflexivity. cbv beta zeta.
  erewrite bind_Return by apply run_git_here_eq.
  unfold exit_code. fold (push_cmd (self st) (main (self st))).
  destruct (run_git_value _ _) as [[code out] err]. cbn [fst].
  destruct (Z.eqb_spec code 0) as [-> | Hne]; cbv beta iota delta [negb].
  - unfold in_env at 1. unfold bind at 1. cbn [env self].
    rewrite get_tracked_branches_eq. fold (here st).
    destruct (listing_of _) as [listed | e]; [| reflexivity].
    unfold bind at 1, in_env, load_global_settings, gets. cbn [env self].
    rewrite !settings_file_ran. reflexivity.
  - do 2 (erewrite bind_Return by reflexivity). reflexivity.
Qed.

(** * Classification *)

Lemma same_config_refl s : same_config s s.
Proof. repeat split. Qed.

Lemma same_config_stable s : display_stable (same_config s).
Proof. intros s' H. repeat split; intros; apply H. Qed.

Lemma same_config_pending s v s' : same_config s s' -> same_config s (set_pending_branches v s').
Proof. intros H. exact H. Qed.

Lemma observes_config s s' w bs obs w' :
  same_config s s' -> observes s w bs obs w' -> observes s' w bs obs w'.
Proof.
  intros (Hg & Hr & Hm & _ & Hp & _) H. induction H.
  - constructor.
  - econstructor; [| | exact IHobserves].
    + rewrite Hg, Hr, Hm, Hp. eassumption.
    + rewrite Hg, Hr, Hm, Hp. eassumption.
Qed.

Lemma bind_inv {S A B} (c : M S A) (k : A -> M S B) s b s' :
  bind c k s = (Return b, s') ->
  exists a s1, c s = (Return a, s1) /\ k a s1 = (Return b, s').
Proof.
  unfold bind. destruct (c s) as [[a | e] s1]; intros H.
  - exists a, s1. split; [reflexivity | exact H].
  - discriminate H.
Qed.

Lemma in_env_inv {A} (c : M world A) st (a : A) st' :
  in_env c st = (Return a, st') ->
  c (env st) = (Return a, env st') /\ self st' = self st.
Proof.
  unfold in_env. destruct (c (env st)) as [r w'] eqn:Hc. intros H.
  inversion H; subst. simpl. split; reflexivity.
Qed.

Lemma classify_branch_spec b t st t' st' :
  classify_branch b t st = (Return t', st') ->
  exists ahead behind,
    observes (self st) (env st) [b] [(b, ahead, behind)] (env st') /\
    same_config (self st) (self st') /\
    ahead_branches t' = ahead_branches t ++ ahead_of (remote (self st)) [(b, ahead, behind)] /\
    diverged_branches t' =
      diverged_branches t ++ diverged_of (remote (self st)) [(b, ahead, behind)].
Proof.
  unfold classify_branch. intros H.
  erewrite bind_Return in H by reflexivity. cbv beta zeta in H.
  apply bind_inv in H as (ahead & st1 & Ha & H).
  apply in_env_inv in Ha as [Ha Hs1].
  apply bind_inv in H as (behind & st2 & Hb & H).
  apply in_env_inv in Hb as [Hb Hs2].
  exists ahead, behind.
  assert (Hobs : forall w3, w3 = env st2 ->
            observes (self st) (env st) [b] [(b, ahead, behind)] w3).
  { intros w3 ->. econstructor; [exact Ha | exact Hb | constructor]. }
  unfold ahead_of, diverged_of, is_ahead, is_diverged. simpl List.filter.
  cbn [fst snd].
  destruct (ahead >? 0)%Z; cbn [andb].
  - erewrite bind_Return in H by reflexivity. cbv beta zeta in H.
    erewrite bind_Return in H by reflexivity.
    unfold ret in H. inversion H; subst t' st'. clear H. cbn [env self].
    split; [apply Hobs; reflexivity |].
    split; [rewrite ?Hs2, ?Hs1; repeat split |].
    destruct (behind >? 0)%Z; cbn [negb];
      destruct (ahead >? _)%Z; cbn [ahead_branches diverged_branches map];
      rewrite ?app_nil_r; split; reflexivity.
  - unfold ret in H. inversion H; subst t' st'. clear H.
    split; [apply Hobs; reflexivity |].
    split; [rewrite ?Hs2, ?Hs1; repeat split |].
    cbn [map]. rewrite !app_nil_r. split; reflexivity.
Qed.

Lemma observes_app s w bs1 obs1 w1 bs2 obs2 w2 :
  observes s w bs1 obs1 w1 -> observes s w1 bs2 obs2 w2 ->
  observes s w (bs1 ++ bs2) (obs1 ++ obs2) w2.
Proof.
  intros H1 H2. induction H1; simpl; [exact H2 |].
  econstructor; eauto.
Qed.

Lemma same_config_trans s1 s2 s3 :
  same_config s1 s2 -> same_config s2 s3 -> same_config s1 s3.
Proof.
  intros (A1 & A2 & A3 & A4 & A5 & A6) (B1 & B2 & B3 & B4 & B5 & B6).
  repeat split; congruence.
Qed.

(** The loop of lines 100-119: when it completes, every rev-list count
    succeeded and the two lists have grown by the entries of the branches
    observed ahead and diverged, in the order of the branches. *)
Lemma classify_spec branches t st t' st' :
  classify branches t st = (Return t', st') ->
  exists obs,
    observes (self st) (env st) branches obs (env st') /\
    same_config (self st) (self st') /\
    ahead_branches t' = ahead_branches t ++ ahead_of (remote (self st)) obs /\
    diverged_branches t' = diverged_branches t ++ diverged_of (remote (self st)) obs.
Proof.
  revert t st. induction branches as [| b rest IH]; intros t st H.
  - simpl in H. inversion H; subst. exists []. split; [constructor |].
    split; [apply same_config_refl |].
    unfold ahead_of, diverged_of. simpl. rewrite !app_nil_r. split; reflexivity.
  - simpl in H. apply bind_inv in H as (t1 & st1 & H1 & H).
    apply classify_branch_spec in H1 as (ahead & behind & Ho1 & Hc1 & Ha1 & Hd1).
    apply IH in H as (obs & Ho & Hc & Ha & Hd).
    exists ((b, ahead, behind) :: obs).
    split.
    { apply (observes_app _ _ [b] [(b, ahead, behind)] (env st1) rest obs);
        [exact Ho1 |].
      apply (observes_config (self st1)); [| exact Ho].
      destruct Hc1 as (A1 & A2 & A3 & A4 & A5 & A6). repeat split; congruence. }
    split; [eapply same_config_trans; eassumption |].
    assert (Hr : remote (self st1) = remote (self st)) by apply Hc1.
    rewrite Hr in Ha, Hd. rewrite Ha, Ha1, Hd, Hd1.
    unfold ahead_of, diverged_of. simpl List.filter.
    destruct (is_ahead (b, ahead, behind)), (is_diverged (b, ahead, behind));
      cbn [map]; rewrite <- ?app_assoc; cbn [app]; rewrite ?app_nil_r;
      split; reflexivity.
Qed.

Lemma same_config_sym s s' : same_config s s' -> same_config s' s.
Proof. intros (A1 & A2 & A3 & A4 & A5 & A6). repeat split; congruence. Qed.

Lemma pending_display_stable l : display_stable (fun s => pending_branches s = l).
Proof. intros s Hs. repeat split; intros; exact Hs. Qed.

Lemma sync_classify_eq st : sync_classify st = sync_fetch (reset st).
Proof. reflexivity. Qed.

Lemma sync_classify_clears st :
  pending_branches (self (sync_classify st).2) = [].
Proof.
  rewrite sync_classify_eq.
  apply (sync_fetch_self (fun s => pending_branches s = [])).
  - apply pending_display_stable.
  - reflexivity.
Qed.

Lemma sync_classify_config st : same_config (self st) (self (sync_classify st).2).
Proof.
  apply (sync_classify_self (same_config (self st))).
  - apply same_config_stable.
  - intros v s H. exact H.
  - intros v s H. exact H.
  - apply same_config_refl.
Qed.

(** A cycle that reaches the decision has fetched, has found local main not
    ahead, has listed the tracked branches, and has counted every enabled
    branch; the tally holds exactly the branches observed ahead and
    diverged. *)
Lemma sync_classify_inv st branches t st1 :
  sync_classify st = (Return (Some (branches, t)), st1) ->
  exists all_branches obs wa wb,
    exit_code [git (self st); "fetch"; remote (self st)] (here st) (env st) = 0%Z /\
    branches = enabled_of (self st) (settings_file (env st)) all_branches /\
    observes (self st) wa branches obs wb /\
    ahead_branches t = ahead_of (remote (self st)) obs /\
    diverged_branches t = diverged_of (remote (self st)) obs.
Proof.
  rewrite sync_classify_eq, sync_fetch_eq. cbv zeta. intros H.
  change (fetch_cmd (self (reset st))) with [git (self st); "fetch"; remote (self st)] in H.
  change (here (reset st)) with (here st) in H.
  change (env (reset st)) with (env st) in H.
  unfold exit_code.
  destruct (run_git_value _ _) as [[code out] err]. cbn [fst snd] in H |- *.
  unfold sync_after_fetch in H.
  erewrite bind_Return in H by reflexivity. cbv beta zeta in H.
  cbn [self env] in H.
  change (self (reset st)) with
    (set_pending_branches [] (set_merge_button false
       (set_state_label Sync_running (self st)))) in H.
  cbn [git remote main prefix repo_path set_pending_branches set_merge_button
       set_state_label] in H.
  destruct (Z.eqb_spec code 0) as [-> | Hne]; cbv beta iota delta [negb] in H.
  2:{ apply bind_inv in H as (? & ? & _ & H).
      apply bind_inv in H as (? & ? & _ & H). inversion H. }
  apply bind_inv in H as (local_ahead & st2 & Hla & H).
  apply in_env_inv in Hla as [Hla Hs2].
  destruct (local_main_ahead_returns (remote (self st)) (main (self st))
              (Some (repo_path (self st))) (git (self st))
              (ran [git (self st); "fetch"; remote (self st)] (here st) (env st)))
    as [n Hn].
  cbn [env self] in Hla, Hs2. unfold here in Hla, Hn. rewrite Hn in Hla.
  inversion Hla as [[Hn' He2]]. clear Hla Hn. subst n.
  destruct (local_ahead >? 0)%Z.
  { apply bind_inv in H as (? & ? & _ & H).
    apply bind_inv in H as (? & ? & _ & H). inversion H. }
  apply bind_inv in H as (all_branches & st3 & Hlist & H).
  apply in_env_inv in Hlist as [Hlist Hs3].
  unfold sync_branches in H.
  erewrite bind_Return in H by reflexivity. cbv beta zeta in H.
  apply bind_inv in H as (settings1 & st4 & Hload & H).
  apply in_env_inv in Hload as [Hload Hs4].
  unfold load_global_settings, gets in Hload. inversion Hload as [[Hset He4]].
  clear Hload.
  apply bind_inv in H as ([] & st5 & Hclean & H).
  unfold sync_tally in H.
  apply bind_inv in H as (t0 & st6 & Hcl & H).
  apply bind_inv in H as ([] & st7 & _ & H).
  inversion H; subst branches t0 st7; clear H.
  apply classify_spec in Hcl as (obs & Ho & Hc & Ha & Hd).
  assert (Hs5 : self st5 = self st4).
  { pose proof (clean_persistence_self (fun s => s = self st4)
                  settings1 all_branches st4 eq_refl) as Hk.
    rewrite Hclean in Hk. exact Hk. }
  assert (Hcfg : same_config (self st) (self st5)).
  { rewrite Hs5, Hs4, Hs3, Hs2. repeat split. }
  assert (Hsf : settings_file (env st3) = settings_file (env st)).
  { pose proof (get_tracked_branches_stable
                  (fun w => settings_file w = settings_file (env st))) as Hg.
    specialize (Hg ltac:(intros w Hw; repeat split; intros; exact Hw)).
    specialize (Hg (remote (self st)) (prefix (self st))
                   (Some (repo_path (self st))) (git (self st)) (env st2)).
    rewrite Hlist in Hg. apply Hg. rewrite <- He2. reflexivity. }
  exists all_branches, obs, (env st5), (env st6).
  split; [reflexivity |].
  split.
  { unfold enabled_of. rewrite <- Hsf, Hset.
    rewrite Hs3, Hs2. reflexivity. }
  split; [apply (observes_config (self st5)); [apply same_config_sym, Hcfg | exact Ho] |].
  assert (Hr : remote (self st5) = remote (self st)) by apply Hcfg.
  rewrite Hr in Ha, Hd. split; [exact Ha | exact Hd].
Qed.

(** * Stopping for the operator *)

Lemma no_overlap_spec all_files :
  no_overlap all_files = true <-> pairwise_disjoint all_files.
Proof.
  induction all_files as [| fi rest IH]; simpl.
  - split; [| reflexivity]. intros _ i j a b _ Hi. rewrite lookup_nil in Hi. discriminate.
  - rewrite andb_true_iff, IH, forallb_forall. split.
    + intros [Hfi Hrest] i j a b Hij Hi Hj.
      destruct j as [| j]; [lia |]. simpl in Hj.
      destruct i as [| i]; simpl in Hi.
      * inversion Hi; subst a.
        assert (Hin : In b rest).
        { apply list_elem_of_In, list_elem_of_lookup. eauto. }
        specialize (Hfi b Hin). unfold overlap in Hfi.
        rewrite negb_involutive in Hfi. apply bool_decide_eq_true in Hfi. exact Hfi.
      * apply (Hrest i j a b); [lia | exact Hi | exact Hj].
    + intros Hp. split.
      * intros b Hin. apply list_elem_of_In, list_elem_of_lookup in Hin as [j Hj].
        unfold overlap. rewrite negb_involutive. apply bool_decide_eq_true.
        apply (Hp 0%nat (S j) fi b); [lia | reflexivity | exact Hj].
      * intros i j a b Hij Hi Hj. apply (Hp (S i) (S j) a b); [lia | exact Hi | exact Hj].
Qed.

Lemma changed_files_of_history s names all_files w w' :
  changed_files_of names (remote s +:+ "/" +:+ main s) (remote s)
    (Some (repo_path s)) (git s) w = (Return all_files, w') ->
  history w' = history w ++ started s (diffs s names) /\
  settings_file w' = settings_file w.
Proof.
  revert all_files w. induction names as [| b rest IH]; intros all_files w H.
  - simpl in H. inversion H; subst. unfold diffs, started. simpl.
    rewrite app_nil_r. split; reflexivity.
  - simpl in H.
    destruct (get_changed_files_returns (remote s +:+ "/" +:+ main s)
                (remote s +:+ "/" +:+ b) (Some (repo_path s)) (git s) w) as [files Hf].
    erewrite bind_Return in H by exact Hf.
    apply bind_inv in H as (others & w1 & Ho & H). inversion H; subst; clear H.
    apply IH in Ho as [Hh Hs]. rewrite Hh, Hs. split; [| reflexivity].
    unfold diffs, started. simpl. rewrite <- app_assoc. reflexivity.
Qed.

Lemma sync_stop_eq t st :
  let s := self st in
  exists all_files w',
    changed_files_of (all_names_of t) (remote s +:+ "/" +:+ main s) (remote s)
      (Some (repo_path s)) (git s) (env st) = (Return all_files, w') /\
    sync_stop t st = (Return tt, Sys (stopped t (no_overlap all_files) s) w').
Proof.
  intros s.
  destruct (are_files_disjoint_returns (all_names_of t) (remote s +:+ "/" +:+ main s)
              (remote s) (Some (repo_path s)) (git s) (env st))
    as (all_files & w' & Hc & Hd).
  exists all_files, w'. split; [exact Hc |].
  unfold sync_stop.
  erewrite bind_Return by reflexivity. cbv beta zeta.
  erewrite bind_Return by reflexivity.
  erewrite bind_Return.
  2:{ unfold in_env. cbn [env self]. fold s. rewrite Hd. reflexivity. }
  fold (stop_message t).
  destruct (no_overlap all_files); reflexivity.
Qed.

Lemma sync_classify_button st : merge_button (self (sync_classify st).2) = false.
Proof.
  rewrite sync_classify_eq.
  apply (sync_fetch_self (fun s => merge_button s = false)).
  - intros s Hs. repeat split; intros; exact Hs.
  - reflexivity.
Qed.

Lemma _do_sync_stops st branches t st1 :
  sync_classify st = (Return (Some (branches, t)), st1) ->
  (1 <= length (diverged_branches t) \/
   2 <= length (ahead_branches t) + length (diverged_branches t))%nat ->
  _do_sync st = sync_stop t st1.
Proof.
  intros H Hc. unfold _do_sync. erewrite bind_Return by exact H.
  unfold conclude, sync_decide.
  destruct (Nat.eqb_spec (length (ahead_branches t) + length (diverged_branches t)) 0);
    [lia |].
  destruct (Nat.ltb_spec 0 (length (diverged_branches t)));
    destruct (Nat.ltb_spec 1 (length (ahead_branches t))); simpl; try reflexivity.
  lia.
Qed.

(** The stop decision. Take a cycle that reaches the decision with at least
    one enabled branch observed diverged, or at least two observed ahead or
    diverged.
    Then [pending_branches] becomes the short names of exactly the branches
    observed diverged followed by those observed ahead; the changed files of
    exactly these branches against [remote/main] are computed, one diff
    each; the label ends as "STOP — Merge possible", with the merge button
    shown, when these file sets are pairwise disjoint and as "STOP — Human
    action required", with no merge button, otherwise; and in both cases
    [stop_polling] has cleared the flag [polling]. *)
Lemma diverged_or_several_ahead_stops (st : sys) (branches : list string) (t : tally) :
  (sync_classify st).1 = Return (Some (branches, t)) ->
  (1 <= length (diverged_branches t) \/
   2 <= length (ahead_branches t) + length (diverged_branches t))%nat ->
  let s := self st in
  let st1 := (sync_classify st).2 in
  let final := (_do_sync st).2 in
  exists all_branches obs wa wb all_files,
    (* the branches and what was observed of them *)
    branches = enabled_of s (settings_file (env st)) all_branches /\
    observes s wa branches obs wb /\
    diverged_branches t = diverged_of (remote s) obs /\
    ahead_branches t = ahead_of (remote s) obs /\
    (* the outcome *)
    (_do_sync st).1 = Return tt /\
    pending_branches (self final) =
      map (fun b => b.1.1) (diverged_branches t) ++ map fst (ahead_branches t) /\
    changed_files_of (pending_branches (self final))
      (remote s +:+ "/" +:+ main s) (remote s) (Some (repo_path s)) (git s) (env st1)
      = (Return all_files, env final) /\
    history (env final) =
      history (env st1) ++ started s (diffs s (pending_branches (self final))) /\
    (pairwise_disjoint all_files ->
       state_label (self final) = STOP_Merge_possible /\
       merge_button (self final) = true) /\
    (~ pairwise_disjoint all_files ->
       state_label (self final) = STOP_Human_action_required /\
       merge_button (self final) = false) /\
    polling (self final) = false.
Proof.
  intros Hcl1 Hcond s st1 final.
  assert (Hcl : sync_classify st = (Return (Some (branches, t)), st1)).
  { unfold st1. rewrite <- Hcl1. destruct (sync_classify st); reflexivity. }
  clearbody st1.
  destruct (sync_classify_inv _ _ _ _ Hcl) as (all_branches & obs & wa & wb & _ & Hb & Ho & Ha & Hd).
  pose proof (sync_classify_config st) as Hcfg. rewrite Hcl in Hcfg. cbn [snd] in Hcfg.
  pose proof (sync_classify_button st) as Hbtn. rewrite Hcl in Hbtn. cbn [snd] in Hbtn.
  destruct Hcfg as (Hg & Hr & Hm & _ & Hp & _).
  destruct (sync_stop_eq t st1) as (all_files & w' & Hfiles & Hstop).
  cbv zeta in Hfiles, Hstop. rewrite Hg, Hr, Hm, Hp in Hfiles. fold s in Hfiles.
  assert (Hrun : _do_sync st = (Return tt, Sys (stopped t (no_overlap all_files) (self st1)) w')).
  { rewrite (_do_sync_stops _ _ _ _ Hcl Hcond). exact Hstop. }
  unfold final. rewrite Hrun. cbn [fst snd env self].
  assert (Hpend : pending_branches (stopped t (no_overlap all_files) (self st1))
                  = all_names_of t).
  { unfold stopped. destruct (no_overlap all_files); reflexivity. }
  rewrite Hpend.
  exists all_branches, obs, wa, wb, all_files.
  split; [exact Hb |]. split; [exact Ho |]. split; [exact Hd |]. split; [exact Ha |].
  split; [reflexivity |]. split; [reflexivity |]. split; [exact Hfiles |].
  split; [apply (changed_files_of_history s _ _ _ _ Hfiles) |].
  split; [| split].
  - intros Hdis. apply no_overlap_spec in Hdis. rewrite Hdis. split; reflexivity.
  - intros Hdis. destruct (no_overlap all_files) eqn:Hno.
    + exfalso. apply Hdis, no_overlap_spec, Hno.
    + split; [reflexivity | exact Hbtn].
  - unfold stopped. destruct (no_overlap all_files); reflexivity.
Qed.

Example scenario_B :
  let final := (_do_sync (Sys tab0 two_ahead_disjoint)).2 in
  state_label (self final) = STOP_Merge_possible /\
  pending_branches (self final) = ["claude/a"; "claude/b"] /\
  info_label (self final) = "Disjoint files. Multiple branches: claude/a, claude/b" /\
  polling (self final) = false.
Proof. vm_compute. repeat split. Qed.

Example scenario_C :
  let final := (_do_sync (Sys tab0 two_ahead_shared)).2 in
  state_label (self final) = STOP_Human_action_required /\
  merge_button (self final) = false /\
  polling (self final) = false.
Proof. vm_compute. repeat split. Qed.

Lemma diverged_or_several_ahead_stops_witness :
  let final := (_do_sync (Sys tab0 two_ahead_disjoint)).2 in
  pending_branches (self final) = ["claude/a"; "claude/b"] /\
  polling (self final) = false.
Proof.
  eassert (Hcl : (sync_classify (Sys tab0 two_ahead_disjoint)).1
                 = Return (Some (_, _))) by (vm_compute; reflexivity).
  destruct (diverged_or_several_ahead_stops _ _ _ Hcl)
    as (_ & _ & _ & _ & _ & _ & _ & _ & _ & _ & Hpend & _ & _ & _ & _ & Hpoll).
  - right. simpl. lia.
  - split; [exact Hpend | exact Hpoll].
Defined.

(** * One branch ahead *)

Lemma sync_leader_pull_fails t st leader n rest :
  ahead_branches t = (leader, n) :: rest ->
  exit_code (pull_cmd (self st) leader) (here st) (env st) ≠ 0%Z ->
  exists err,
    sync_leader t st
    = (Return tt, Sys (pull_failed err (self st))
                      (ran (pull_cmd (self st) leader) (here st) (env st))).
Proof.
  intros Ht Hc. unfold sync_leader. rewrite Ht.
  erewrite bind_Return by reflexivity. cbv beta zeta.
  erewrite bind_Return by apply run_git_here_eq.
  unfold exit_code in Hc. fold (pull_cmd (self st) leader).
  destruct (run_git_value _ _) as [[code out] err]. cbn [fst] in Hc.
  destruct (Z.eqb_spec code 0); [contradiction |]. cbv beta iota delta [negb].
  exists err. reflexivity.
Qed.

Lemma sync_leader_pulled t st leader n rest :
  ahead_branches t = (leader, n) :: rest ->
  exit_code (pull_cmd (self st) leader) (here st) (env st) = 0%Z ->
  let pulled := Sys (self st) (ran (pull_cmd (self st) leader) (here st) (env st)) in
  match push_main_and_branches pulled with
  | (Return true, st3) =>
      exists r info,
        sync_leader t st
        = (r, Sys (info (set_state_label Sync_OK
                     (set_last_commit_count
                        (<[leader := 0%Z]> (last_commit_count (self st3))) (self st3))))
                  (ran (listing_cmd (self st)) (here st) (env st3))) /\
        (info = (fun s => s) \/ exists text, info = set_info_label text)
  | (Return false, st3) => sync_leader t st = (Return tt, st3)
  | (Raise e, st3) => sync_leader t st = (Raise e, st3)
  end.
Proof.
  intros Ht Hc pulled. unfold sync_leader. rewrite Ht.
  erewrite bind_Return by reflexivity. cbv beta zeta.
  erewrite bind_Return by apply run_git_here_eq.
  unfold exit_code in Hc. fold (pull_cmd (self st) leader).
  destruct (run_git_value _ _) as [[code out] err]. cbn [fst] in Hc. subst code.
  cbv beta iota delta [negb]. change (0 =? 0)%Z with true. cbv iota.
  fold pulled.
  destruct (push_main_and_branches pulled) as [[[|] | e] st3] eqn:Hpush.
  - erewrite bind_Return by exact Hpush. cbv beta iota delta [negb].
    erewrite bind_Return by reflexivity. cbv beta zeta.
    do 2 (erewrite bind_Return by reflexivity).
    unfold bind at 1, in_env at 1. cbn [env self].
    rewrite get_tracked_branches_eq. fold (here st).
    destruct (listing_of _) as [branches | e].
    + eexists. exists (set_info_label
                 ("Pull from " +:+ leader +:+ ", push to "
                    +:+ Py.str (Z.of_nat (length branches) - 1) +:+ " other branches")).
      split; [reflexivity |]. right. eexists. reflexivity.
    + eexists. exists (fun s => s). split; [reflexivity |]. left. reflexivity.
  - erewrite bind_Return by exact Hpush. reflexivity.
  - erewrite bind_Raise by exact Hpush. reflexivity.
Qed.

Lemma _do_sync_leads st branches t st1 :
  sync_classify st = (Return (Some (branches, t)), st1) ->
  length (ahead_branches t) = 1%nat -> length (diverged_branches t) = 0%nat ->
  _do_sync st = sync_leader t st1.
Proof.
  intros H Ha Hd. unfold _do_sync. erewrite bind_Return by exact H.
  unfold conclude, sync_decide. rewrite Ha, Hd. reflexivity.
Qed.

(** One branch leads. Take a cycle that reaches the decision with exactly
    one enabled branch observed ahead and none observed diverged.  The next
    command is the fast-forward-only pull of that branch.  When the pull
    fails the cycle ends with the label "ERROR" and the flag [polling]
    cleared, and nothing else is run.  When the pull succeeds, main and every enabled branch of the
    listing are pushed next; when all these pushes succeed the label ends
    as "Sync OK" and the commit count recorded for that branch is 0; when
    one of them fails the cycle ends in the state the push left, "ERROR" or
    "STOP — Push failed", with the flag [polling] cleared. *)
Lemma one_branch_ahead_is_pulled_and_pushed
  (st : sys) (branches : list string) (t : tally) :
  (sync_classify st).1 = Return (Some (branches, t)) ->
  length (ahead_branches t) = 1%nat ->
  length (diverged_branches t) = 0%nat ->
  let s := self st in
  let st1 := (sync_classify st).2 in
  let final := (_do_sync st).2 in
  exists all_branches obs wa wb leader ahead,
    (* the branches and what was observed of them *)
    branches = enabled_of s (settings_file (env st)) all_branches /\
    observes s wa branches obs wb /\
    diverged_of (remote s) obs = [] /\
    ahead_of (remote s) obs = [(leader, ahead)] /\
    ahead_branches t = [(leader, ahead)] /\
    let pull := pull_cmd s leader in
    let pulled := Sys (self st1) (ran pull (here st) (env st1)) in
    (* the pull fails *)
    (exit_code pull (here st) (env st1) ≠ 0%Z ->
       (_do_sync st).1 = Return tt /\
       state_label (self final) = ERROR /\
       polling (self final) = false /\
       history (env final) = history (env st1) ++ started s [pull]) /\
    (* the pull succeeds and so do the pushes *)
    (exit_code pull (here st) (env st1) = 0%Z ->
     (push_main_and_branches pulled).1 = Return true ->
       state_label (self final) = Sync_OK /\
       last_commit_count (self final) !! leader = Some 0%Z /\
       exists listed,
         history (env final) = history (env st1) ++
           started s (pull :: push_cmd s (main s) :: listing_cmd s ::
                      fanout s listed
                        (branch_states_of (settings_file (env st1)) (repo_path s))
                        (default_enabled_of (settings_file (env st1)))
                      ++ [listing_cmd s])) /\
    (* the pull succeeds and a push fails *)
    (exit_code pull (here st) (env st1) = 0%Z ->
     (push_main_and_branches pulled).1 = Return false ->
       (_do_sync st).1 = Return tt /\
       (state_label (self final) = ERROR \/
        state_label (self final) = STOP_Push_failed) /\
       polling (self final) = false).
Proof.
  intros Hcl1 Hlen Hdiv s st1 final.
  assert (Hcl : sync_classify st = (Return (Some (branches, t)), st1)).
  { unfold st1. rewrite <- Hcl1. destruct (sync_classify st); reflexivity. }
  clearbody st1.
  destruct (sync_classify_inv _ _ _ _ Hcl)
    as (all_branches & obs & wa & wb & _ & Hb & Ho & Ha & Hd).
  pose proof (sync_classify_config st) as Hcfg. rewrite Hcl in Hcfg. cbn [snd] in Hcfg.
  destruct Hcfg as (Hg & Hr & Hm & Hpre & Hp & _).
  destruct (ahead_branches t) as [| [leader ahead] rest] eqn:Hahead; [discriminate Hlen |].
  destruct rest; [| discriminate Hlen].
  destruct (diverged_branches t) eqn:Hdiverged; [| discriminate Hdiv].
  exists all_branches, obs, wa, wb, leader, ahead.
  split; [exact Hb |]. split; [exact Ho |].
  split; [symmetry; exact Hd |]. split; [symmetry; exact Ha |].
  split; [reflexivity |].
  assert (Hrun : _do_sync st = sync_leader t st1).
  { apply (_do_sync_leads _ _ _ _ Hcl); [rewrite Hahead | rewrite Hdiverged]; reflexivity. }
  assert (Hpull : pull_cmd (self st1) leader = pull_cmd s leader).
  { unfold pull_cmd. rewrite Hg, Hr. reflexivity. }
  assert (Hhere : here st1 = here st).
  { unfold here. rewrite Hp. reflexivity. }
  cbv zeta. unfold final. rewrite Hrun.
  split; [| split].
  - intros Hc.
    destruct (sync_leader_pull_fails t st1 leader ahead [] Hahead) as [err Herr].
    { rewrite Hpull, Hhere. exact Hc. }
    rewrite Herr. cbn [fst snd env self]. rewrite Hpull, Hhere.
    repeat split.
  - intros Hc Hpush1.
    destruct (push_main_and_branches
                (Sys (self st1) (ran (pull_cmd s leader) (here st) (env st1))))
      as [r3 st3] eqn:Hpush.
    cbn [fst] in Hpush1. subst r3.
    pose proof (sync_leader_pulled t st1 leader ahead [] Hahead) as Hl.
    rewrite Hpull, Hhere in Hl. specialize (Hl Hc). cbv zeta in Hl.
    rewrite Hpush in Hl. destruct Hl as (r & info & Hl & Hinfo).
    rewrite Hl. cbn [fst snd env self].
    destruct (push_main_and_branches_spec
                (Sys (self st1) (ran (pull_cmd s leader) (here st) (env st1))))
      as (r' & st3' & Hpush' & Hspec).
    rewrite Hpush in Hpush'. inversion Hpush'; subst r' st3'. clear Hpush'.
    cbn [env self] in Hspec. destruct Hspec as (Hself & listed & _ & Hhist).
    rewrite settings_file_ran in Hhist.
    split; [| split].
    + destruct Hinfo as [-> | [text ->]]; reflexivity.
    + destruct Hinfo as [-> | [text ->]]; cbn; apply lookup_insert_eq.
    + exists listed.
      assert (Hl1 : listing_cmd (self st1) = listing_cmd s).
      { unfold listing_cmd. rewrite Hg, Hr, Hpre. reflexivity. }
      rewrite Hl1. unfold listing_cmd at 1. rewrite history_ran. rewrite Hhist.
      unfold pull_cmd at 1. rewrite history_ran.
      assert (Hst : forall cmds, started (self st1) cmds = started s cmds).
      { intros cmds. unfold started. rewrite Hp. reflexivity. }
      assert (Hf : forall l bs d, fanout (self st1) l bs d = fanout s l bs d).
      { intros l bs d. unfold fanout, push_cmd. rewrite Hg, Hr, Hm. reflexivity. }
      rewrite Hst, Hf.
      assert (Hpm : push_cmd (self st1) (main (self st1)) = push_cmd s (main s)).
      { unfold push_cmd. rewrite Hg, Hr, Hm. reflexivity. }
      rewrite Hpm, Hl1. rewrite Hp.
      unfold started. cbn [map]. rewrite map_app. cbn [map].
      rewrite <- !app_assoc. reflexivity.
  - intros Hc Hpush1.
    destruct (push_main_and_branches
                (Sys (self st1) (ran (pull_cmd s leader) (here st) (env st1))))
      as [r3 st3] eqn:Hpush.
    cbn [fst] in Hpush1. subst r3.
    pose proof (sync_leader_pulled t st1 leader ahead [] Hahead) as Hl.
    rewrite Hpull, Hhere in Hl. specialize (Hl Hc). cbv zeta in Hl.
    rewrite Hpush in Hl. rewrite Hl. cbn [fst snd].
    destruct (push_main_and_branches_spec
                (Sys (self st1) (ran (pull_cmd s leader) (here st) (env st1))))
      as (r' & st3' & Hpush' & Hspec).
    rewrite Hpush in Hpush'. inversion Hpush'; subst r' st3'. clear Hpush'.
    split; [reflexivity |].
    destruct Hspec as [[Hself _] | (target & l & k & _ & Hself & _)];
      rewrite Hself; split; auto.
Qed.

Example scenario_A :
  let final := (_do_sync (Sys tab0 one_ahead)).2 in
  state_label (self final) = Sync_OK /\
  info_label (self final) = "Pull from claude/a, push to 1 other branches" /\
  last_commit_count (self final) !! "claude/a" = Some 0%Z /\
  map inv_cmd (drop 7 (history (env final))) =
    [ ["git"; "pull"; "--ff-only"; "origin"; "claude/a"];
      ["git"; "push"; "origin"; "main"];
      ["git"; "for-each-ref"; "--format=%(refname:short)"; "refs/remotes/origin/claude/"];
      ["git"; "push"; "origin"; "main:claude/a"];
      ["git"; "push"; "origin"; "main:claude/b"];
      ["git"; "for-each-ref"; "--format=%(refname:short)"; "refs/remotes/origin/claude/"] ].
Proof. vm_compute. repeat split. Qed.

Lemma one_branch_ahead_witness :
  let final := (_do_sync (Sys tab0 one_ahead)).2 in
  state_label (self final) = Sync_OK /\
  last_commit_count (self final) !! "claude/a" = Some 0%Z.
Proof.
  eassert (Hcl : (sync_classify (Sys tab0 one_ahead)).1
                 = Return (Some (_, _))) by (vm_compute; reflexivity).
  destruct (one_branch_ahead_is_pulled_and_pushed _ _ _ Hcl eq_refl eq_refl)
    as (all_branches & obs & wa & wb & leader & ahead & _ & _ & _ & _ & Hlead & _ & Hok & _).
  injection Hlead as <- <-.
  destruct Hok as (Hlabel & Hcount & _).
  - vm_compute. reflexivity.
  - vm_compute. reflexivity.
  - split; [exact Hlabel | exact Hcount].
Defined.

(** * Local main ahead *)

Lemma _do_sync_flushes st n :
  exit_code (fetch_cmd (self st)) (here st) (env st) = 0%Z ->
  local_ahead_after_fetch st = Return n ->
  (n > 0)%Z ->
  _do_sync st =
    match push_main_and_branches (flushing st) with
    | (Return true, st3) => (Return tt, Sys (flushed n (self st3)) (env st3))
    | (Return false, st3) => (Return tt, st3)
    | (Raise e, st3) => (Raise e, st3)
    end.
Proof.
  intros Hf Hn Hpos. unfold _do_sync. unfold bind at 1.
  rewrite sync_classify_eq, sync_fetch_eq. cbv zeta.
  unfold exit_code in Hf.
  change (fetch_cmd (self (reset st))) with (fetch_cmd (self st)).
  change (here (reset st)) with (here st).
  change (env (reset st)) with (env st).
  destruct (run_git_value _ _) as [[code out] err]. cbn [fst snd] in Hf |- *. subst code.
  unfold sync_after_fetch. unfold bind at 1. unfold get at 1. cbv beta iota zeta.
  cbn [self env].
  change (git (self (reset st))) with (git (self st)).
  change (remote (self (reset st))) with (remote (self st)).
  change (main (self (reset st))) with (main (self st)).
  change (0 =? 0)%Z with true. cbv beta iota delta [negb]. unfold fetch_cmd.
  unfold local_ahead_after_fetch, fetch_cmd, here in Hn.
  destruct (local_main_ahead_returns (remote (self st)) (main (self st))
              (Some (repo_path (self st))) (git (self st))
              (ran [git (self st); "fetch"; remote (self st)]
                   (Some (repo_path (self st))) (env st))) as [n' Hn'].
  rewrite Hn' in Hn. cbn [fst] in Hn. injection Hn as ->.
  unfold bind at 1, in_env at 1. cbn [env self].
  change (repo_path (self (reset st))) with (repo_path (self st)).
  unfold here. rewrite Hn'.
  destruct (Z.gtb_spec n 0) as [_ | Hle]; [| lia].
  change (Sys (self (reset st))
            (ran (rev_list_cmd (git (self st))
                    (remote (self st) +:+ "/" +:+ main (self st)) (main (self st)))
                 (Some (repo_path (self st)))
                 (ran [git (self st); "fetch"; remote (self st)]
                      (Some (repo_path (self st))) (env st))))
    with (flushing st).
  unfold bind at 1.
  destruct (push_main_and_branches (flushing st)) as [[[|] | e] st3]; reflexivity.
Qed.



Lemma started_elem s cmds inv :
  inv ∈ started s cmds -> inv_cmd inv ∈ cmds.
Proof.
  unfold started. intros Hin. apply list_elem_of_fmap in Hin as (c & -> & Hc). exact Hc.
Qed.


Example scenario_D :
  let final := (_do_sync (Sys tab0 local_ahead_by_two)).2 in
  state_label (self final) = Sync_OK /\
  info_label (self final) = "Pushed 2 local commits" /\
  map inv_cmd (history (env final)) =
    [ ["git"; "fetch"; "origin"];
      ["git"; "rev-list"; "--count"; "origin/main..main"];
      ["git"; "push"; "origin"; "main"];
      ["git"; "for-each-ref"; "--format=%(refname:short)"; "refs/remotes/origin/claude/"];
      ["git"; "push"; "origin"; "main:claude/a"];
      ["git"; "push"; "origin"; "main:claude/b"] ].
Proof. vm_compute. repeat split. Qed.

(** The flush where the listing fails: main has been pushed, the
    [RuntimeError] of the listing leaves the cycle, the label still reads
    "Sync…" and polling is on. *)
Example flush_with_failing_listing :
  let run := _do_sync (Sys tab0 listing_fails_after_push) in
  run.1 = Raise (RuntimeError "fatal: bad object") /\
  state_label (self run.2) = Sync_running /\
  polling (self run.2) = true /\
  map inv_cmd (history (env run.2)) =
    [ ["git"; "fetch"; "origin"];
      ["git"; "rev-list"; "--count"; "origin/main..main"];
      ["git"; "push"; "origin"; "main"];
      ["git"; "for-each-ref"; "--format=%(refname:short)"; "refs/remotes/origin/claude/"] ].
Proof. vm_compute. repeat split. Qed.

(** The flush where a push of the fan-out is rejected: the branches after
    it are not pushed. *)
Example flush_with_rejected_branch :
  let final := (_do_sync (Sys tab0 fanout_rejected)).2 in
  state_label (self final) = STOP_Push_failed /\
  info_label (self final) = "Push to claude/a failed" /\
  polling (self final) = false /\
  map inv_cmd (history (env final)) =
    [ ["git"; "fetch"; "origin"];
      ["git"; "rev-list"; "--count"; "origin/main..main"];
      ["git"; "push"; "origin"; "main"];
      ["git"; "for-each-ref"; "--format=%(refname:short)"; "refs/remotes/origin/claude/"];
      ["git"; "push"; "origin"; "main:claude/a"] ].
Proof. vm_compute. repeat split. Qed.




(** * Pruning the persisted branch map *)

Lemma prune_saved_lookup keys existing saved cleaned :
  forall name,
    (prune_saved keys existing saved cleaned).1 !! name =
      if decide (name ∈ keys /\ name ∉ existing) then None else saved !! name.
Proof.
  revert saved cleaned.
  induction keys as [| k rest IH]; intros saved cleaned name; cbn [prune_saved fst].
  - case_decide as H; [| reflexivity]. destruct H as [H _]. inversion H.
  - case_bool_decide as Hk; rewrite IH.
    + destruct (decide (name = k)) as [-> | Hne].
      * rewrite lookup_delete_eq.
        do 2 case_decide; try reflexivity; exfalso; set_solver.
      * rewrite lookup_delete_ne by congruence.
        do 2 case_decide; try reflexivity; exfalso; set_solver.
    + do 2 case_decide; try reflexivity; exfalso; set_solver.
Qed.

Lemma prune_saved_unchanged keys existing saved :
  (prune_saved keys existing saved false).2 = false ->
  (prune_saved keys existing saved false).1 = saved.
Proof.
  revert saved. induction keys as [| k rest IH]; intros saved H; simpl in *.
  - reflexivity.
  - destruct (bool_decide (k ∉ existing)).
    + exfalso. clear IH. revert H. generalize (delete k saved).
      induction rest as [| k' rest IH']; intros m H; simpl in H; [discriminate |].
      destruct (bool_decide (k' ∉ existing)); eapply IH'; exact H.
    + apply IH, H.
Qed.

(** The names saved for the repository after the loop of lines 84-87: a
    name on the remote keeps its entry, any other name has none. *)
Lemma prune_all_lookup existing (saved : gmap string bool) name :
  (prune_saved (map_to_list saved).*1 existing saved false).1 !! name =
    if decide (name ∈ existing) then saved !! name else None.
Proof.
  rewrite prune_saved_lookup.
  destruct (decide (name ∈ existing)) as [Hin | Hout].
  - case_decide as H; [destruct H as [_ H]; contradiction | reflexivity].
  - case_decide as H; [reflexivity |].
    destruct (saved !! name) as [v |] eqn:Hv; [| reflexivity].
    exfalso. apply H. split; [| exact Hout].
    apply list_elem_of_fmap. exists (name, v). split; [reflexivity |].
    apply elem_of_map_to_list. exact Hv.
Qed.

Lemma clean_persistence_spec settings0 all_branches st :
  settings_file (env st) = settings0 ->
  exists w',
    clean_persistence settings0 all_branches st = (Return tt, Sys (self st) w') /\
    pruned_to (existing_short_names (self st) all_branches) (repo_path (self st))
      settings0 (settings_file w').
Proof.
  intros Hs. unfold clean_persistence.
  erewrite bind_Return by reflexivity. cbv beta zeta.
  fold (existing_short_names (self st) all_branches).
  set (existing := existing_short_names (self st) all_branches).
  set (repo := repo_path (self st)).
  destruct (default ∅ (branch_update_enabled settings0) !! repo) as [saved |] eqn:Hrepo.
  - pose proof (prune_all_lookup existing saved) as Hlookup.
    pose proof (prune_saved_unchanged (map_to_list saved).*1 existing saved) as Hsame.
    destruct (prune_saved (map_to_list saved).*1 existing saved false)
      as [saved' cleaned]. cbn [fst snd] in Hlookup, Hsame.
    destruct cleaned; cbn [when].
    + eexists. split; [reflexivity |]. cbn [settings_file world_saved env].
      unfold pruned_to, branch_states_of. cbn.
      split; [| split; [| split; reflexivity]].
      * intros name. rewrite lookup_insert_eq. cbn. rewrite Hlookup, Hrepo. reflexivity.
      * intros other Hne. rewrite lookup_insert_ne by congruence. reflexivity.
    + exists (env st). split; [destruct st; reflexivity |].
      rewrite Hs. rewrite (Hsame eq_refl) in Hlookup.
      unfold pruned_to, branch_states_of. rewrite Hrepo. cbn.
      split; [| split; [| split; reflexivity]].
      * intros name. rewrite <- Hlookup. reflexivity.
      * reflexivity.
  - exists (env st). split; [destruct st; reflexivity |].
    rewrite Hs. unfold pruned_to, branch_states_of. rewrite Hrepo. cbn.
    split; [| split; [| split; reflexivity]].
    + intros name. rewrite lookup_empty. case_decide; reflexivity.
    + reflexivity.
Qed.

Lemma settings_stable x : env_stable (fun w => settings_file w = x).
Proof. intros w Hw. repeat split; intros; exact Hw. Qed.

Lemma sync_tally_then_decide_settings branches st x :
  settings_file (env st) = x ->
  settings_file (env (bind (sync_tally branches) conclude st).2) = x.
Proof.
  apply (preserves_bind (fun st => settings_file (env st) = x)).
  - apply (sync_tally_world _ (settings_stable x)).
  - intros r. apply (conclude_world _ (settings_stable x)).
Qed.

Lemma bind_assoc {S A B C} (c : M S A) (k : A -> M S B) (h : B -> M S C) s :
  bind (bind c k) h s = bind c (fun a => bind (k a) h) s.
Proof. unfold bind. destruct (c s) as [[a | e] s']; reflexivity. Qed.

Lemma _do_sync_eq st : _do_sync st = bind sync_fetch conclude (reset st).
Proof. reflexivity. Qed.

Lemma _do_sync_fetch_fails st :
  exit_code (fetch_cmd (self st)) (here st) (env st) ≠ 0%Z ->
  _do_sync st
  = (Return tt, Sys (fetch_failed (self (reset st)))
                    (ran (fetch_cmd (self st)) (here st) (env st))).
Proof.
  intros Hf. rewrite _do_sync_eq. unfold bind at 1.
  rewrite sync_fetch_eq. cbv zeta.
  unfold exit_code in Hf.
  change (fetch_cmd (self (reset st))) with (fetch_cmd (self st)).
  change (here (reset st)) with (here st).
  change (env (reset st)) with (env st).
  destruct (run_git_value _ _) as [[code out] err]. cbn [fst snd] in Hf |- *.
  unfold sync_after_fetch. unfold bind at 1. unfold get at 1. cbv beta iota zeta.
  destruct (Z.eqb_spec code 0); [contradiction |]. reflexivity.
Qed.

Lemma _do_sync_lists st n :
  exit_code (fetch_cmd (self st)) (here st) (env st) = 0%Z ->
  local_ahead_after_fetch st = Return n ->
  (n >? 0)%Z = false ->
  _do_sync st =
    match get_tracked_branches (remote (self st)) (prefix (self st)) (here st)
            (git (self st)) (listing_world st) with
    | (Return all_branches, w3) =>
        bind (sync_branches all_branches) conclude (Sys (self (reset st)) w3)
    | (Raise e, w3) => (Raise e, Sys (self (reset st)) w3)
    end.
Proof.
  intros Hf Hn Hpos. rewrite _do_sync_eq. unfold bind at 1.
  rewrite sync_fetch_eq. cbv zeta.
  unfold exit_code in Hf.
  change (fetch_cmd (self (reset st))) with (fetch_cmd (self st)).
  change (here (reset st)) with (here st).
  change (env (reset st)) with (env st).
  destruct (run_git_value _ _) as [[code out] err]. cbn [fst snd] in Hf |- *. subst code.
  unfold sync_after_fetch. unfold bind at 1. unfold get at 1. cbv beta iota zeta.
  cbn [self env].
  change (git (self (reset st))) with (git (self st)).
  change (remote (self (reset st))) with (remote (self st)).
  change (main (self (reset st))) with (main (self st)).
  change (prefix (self (reset st))) with (prefix (self st)).
  change (0 =? 0)%Z with true. cbv beta iota delta [negb]. unfold fetch_cmd.
  unfold local_ahead_after_fetch, fetch_cmd, here in Hn.
  destruct (local_main_ahead_returns (remote (self st)) (main (self st))
              (Some (repo_path (self st))) (git (self st))
              (ran [git (self st); "fetch"; remote (self st)]
                   (Some (repo_path (self st))) (env st))) as [n' Hn'].
  rewrite Hn' in Hn. cbn [fst] in Hn. injection Hn as ->.
  unfold bind at 1, in_env at 1. cbn [env self].
  change (repo_path (self (reset st))) with (repo_path (self st)).
  unfold here. rewrite Hn'. rewrite Hpos.
  unfold bind at 1, in_env at 1. cbn [env self].
  unfold listing_world, local_count_cmd, fetch_cmd, here.
  destruct (get_tracked_branches _ _ _ _ _) as [[l | e] w3]; reflexivity.
Qed.

Lemma sync_branches_settings all_branches st :
  pruned_to (existing_short_names (self st) all_branches) (repo_path (self st))
    (settings_file (env st))
    (settings_file (env (bind (sync_branches all_branches) conclude st).2)).
Proof.
  destruct st as [s w].
  destruct (clean_persistence_spec (settings_file w) all_branches (Sys s w) eq_refl)
    as (w' & Hclean & Hpruned).
  cbn [env self] in *.
  unfold sync_branches.
  rewrite bind_assoc. erewrite bind_Return by reflexivity. cbv beta zeta.
  rewrite bind_assoc. erewrite bind_Return by reflexivity.
  rewrite bind_assoc. erewrite bind_Return by exact Hclean.
  rewrite (sync_tally_then_decide_settings _ _ (settings_file w')); [exact Hpruned |].
  reflexivity.
Qed.

(** The settings file after a cycle. *)
Lemma _do_sync_settings st :
  let final := (_do_sync st).2 in
  match listing_of_cycle st with
  | Some all_branches =>
      pruned_to (existing_short_names (self st) all_branches) (repo_path (self st))
        (settings_file (env st)) (settings_file (env final))
  | None => settings_file (env final) = settings_file (env st)
  end.
Proof.
  cbv zeta. unfold listing_of_cycle.
  destruct (Z.eqb_spec (exit_code (fetch_cmd (self st)) (here st) (env st)) 0)
    as [Hf | Hf]; cbv beta iota delta [negb].
  2:{ rewrite (_do_sync_fetch_fails st Hf). cbn [snd env]. apply settings_file_ran. }
  destruct (local_ahead_after_fetch st) as [n | e] eqn:Hn.
  2:{ exfalso. unfold local_ahead_after_fetch in Hn.
      destruct (local_main_ahead_returns (remote (self st)) (main (self st)) (here st)
                  (git (self st)) (ran (fetch_cmd (self st)) (here st) (env st)))
        as [n Hn']. rewrite Hn' in Hn. discriminate Hn. }
  destruct (n >? 0)%Z eqn:Hpos.
  - assert (Hgt : (n > 0)%Z) by (apply Z.gtb_lt in Hpos; lia).
    rewrite (_do_sync_flushes st n Hf Hn Hgt).
    pose proof (push_main_and_branches_world _ (settings_stable (settings_file (env st)))
                  (flushing st)) as Hk.
    cbn beta in Hk. unfold flushing at 1 in Hk. cbn [env] in Hk.
    rewrite !settings_file_ran in Hk. specialize (Hk eq_refl).
    destruct (push_main_and_branches (flushing st)) as [[[|] | e] st3]; exact Hk.
  - rewrite (_do_sync_lists st n Hf Hn Hpos).
    destruct (get_tracked_branches _ _ _ _ _) as [[l | e] w3] eqn:Hlist; cbn [fst].
    + pose proof (sync_branches_settings l (Sys (self (reset st)) w3)) as Hp.
      cbn [env self] in Hp.
      assert (Hw3 : settings_file w3 = settings_file (env st)).
      { pose proof (get_tracked_branches_stable _
                      (settings_stable (settings_file (env st)))
                      (remote (self st)) (prefix (self st)) (here st) (git (self st))
                      (listing_world st)) as Hk.
        rewrite Hlist in Hk. apply Hk. unfold listing_world.
        rewrite !settings_file_ran. reflexivity. }
      rewrite Hw3 in Hp. exact Hp.
    + cbn [snd env].
      pose proof (get_tracked_branches_stable _
                    (settings_stable (settings_file (env st)))
                    (remote (self st)) (prefix (self st)) (here st) (git (self st))
                    (listing_world st)) as Hk.
      rewrite Hlist in Hk. apply Hk. unfold listing_world.
      rewrite !settings_file_ran. reflexivity.
Qed.

Example scenario_F :
  let final := (_do_sync (Sys tab0 branch_deleted)).2 in
  state_label (self final) = Idle /\
  branch_states_of (settings_file (env final)) "/repo" !! "gone" = None /\
  branch_states_of (settings_file (env final)) "/repo" !! "claude/a" = Some true /\
  branch_states_of (settings_file (env final)) "/repo" !! "claude/b" = Some true.
Proof. vm_compute. repeat split. Qed.

(** C7, as stated, fails: in a cycle that finds local main ahead, [gone] is
    in the persisted map and is not among the tracked branches of the
    remote, which this very cycle lists, and yet [gone] is still in the
    persisted map when the cycle is over. *)
Lemma stale_entry_survives_a_flush :
  let st := Sys tab0 local_ahead_by_two in
  let final := (_do_sync st).2 in
  branch_states_of (settings_file (env st)) "/repo" !! "gone" = Some true /\
  (get_tracked_branches "origin" "claude/" (Some "/repo") "git" (env st)).1
    = Return ["origin/claude/a"; "origin/claude/b"] /\
  (_do_sync st).1 = Return tt /\
  branch_states_of (settings_file (env final)) "/repo" !! "gone" = Some true.
Proof. vm_compute. repeat split. Qed.

(** C7, amended. A cycle that gets as far as listing the tracked branches
    (the fetch succeeded, local main is not ahead, the listing succeeded)
    leaves the settings file pruned: in the map saved for this repository a
    name whose branch is on the remote keeps its entry and every other name
    has none; the maps of other repositories and all other settings are as
    before.  A cycle that ends earlier leaves the settings file as it was,
    and so does a merge: the pruning is the only change the engine makes to
    the configuration. *)
Theorem stale_branch_entries_are_pruned (st : sys) :
  let final := (_do_sync st).2 in
  match listing_of_cycle st with
  | Some all_branches =>
      pruned_to (existing_short_names (self st) all_branches) (repo_path (self st))
        (settings_file (env st)) (settings_file (env final))
  | None => settings_file (env final) = settings_file (env st)
  end /\
  settings_file (env (_do_merge st).2) = settings_file (env st).
Proof.
  split; [apply _do_sync_settings |].
  apply (_do_merge_world _ (settings_stable (settings_file (env st)))). reflexivity.
Qed.

Lemma stale_branch_entries_witness :
  let final := (_do_sync (Sys tab0 branch_deleted)).2 in
  branch_states_of (settings_file (env final)) "/repo" !! "gone" = None /\
  branch_states_of (settings_file (env final)) "/repo" !! "claude/a" = Some true /\
  settings_file (env (_do_sync (Sys tab0 local_ahead_by_two)).2) = settings0.
Proof.
  cbv zeta.
  destruct (stale_branch_entries_are_pruned (Sys tab0 branch_deleted)) as [Hpruned _].
  destruct (stale_branch_entries_are_pruned (Sys tab0 local_ahead_by_two)) as [Hsame _].
  cbv zeta in Hpruned, Hsame.
  assert (Hlisted : listing_of_cycle (Sys tab0 branch_deleted)
                    = Some ["origin/claude/a"; "origin/claude/b"])
    by (vm_compute; reflexivity).
  assert (Hnone : listing_of_cycle (Sys tab0 local_ahead_by_two) = None)
    by (vm_compute; reflexivity).
  rewrite Hlisted in Hpruned. rewrite Hnone in Hsame.
  destruct Hpruned as (Hlookup & _).
  split; [| split].
  - etransitivity; [exact (Hlookup "gone") | vm_compute; reflexivity].
  - etransitivity; [exact (Hlookup "claude/a") | vm_compute; reflexivity].
  - exact Hsame.
Defined.

(** * Pending branches *)

(** The merges never raise; they leave the tab untouched when all succeed
    and in the merge-failed state otherwise. *)
Lemma merge_each_spec branches st :
  exists (done : bool) st',
    merge_each branches st = (Return done, st') /\
    if done then self st' = self st
    else exists branch, self st' = merge_failed branch (self st).
Proof.
  revert st. induction branches as [| b rest IH]; intros st.
  - exists true, st. split; reflexivity.
  - simpl merge_each. erewrite bind_Return by reflexivity. cbv beta zeta.
    erewrite bind_Return by apply run_git_here_eq.
    destruct (run_git_value _ _) as [[code out] err].
    destruct (Z.eqb_spec code 0) as [-> | Hne]; cbv beta iota delta [negb].
    + match goal with |- context [merge_each rest ?s] =>
        destruct (IH s) as (done & st' & Hrun & Hpost) end.
      exists done, st'. split; [exact Hrun | exact Hpost].
    + exists false. eexists. split.
      * do 2 (erewrite bind_Return by reflexivity).
        erewrite bind_Return by apply run_git_here_eq.
        erewrite bind_Return by reflexivity. reflexivity.
      * exists b. reflexivity.
Qed.

Lemma _do_merge_impl_cases st :
  match pending_branches (self st) with
  | [] => _do_merge_impl st = (Return tt, st)
  | _ :: _ =>
      exists r st',
        _do_merge_impl st = (r, st') /\
        match r with
        | Return _ =>
            (exists s2, same_config (self st) s2 /\
               pending_branches s2 = pending_branches (self st) /\
               self st' = merged (length (pending_branches (self st))) s2) \/
            (pending_branches (self st') = pending_branches (self st) /\
             polling (self st') = false /\
             (state_label (self st') = ERROR_Merge_failed \/
              state_label (self st') = ERROR \/
              state_label (self st') = STOP_Push_failed))
        | Raise _ =>
            pending_branches (self st') = pending_branches (self st) /\
            state_label (self st') = Merging
        end
  end.
Proof.
  destruct (pending_branches (self st)) as [| b rest] eqn:Hpend.
  - unfold _do_merge_impl. erewrite bind_Return by reflexivity. rewrite Hpend. reflexivity.
  - assert (Heq : _do_merge_impl st =
              bind (merge_each (b :: rest))
                (fun done =>
                   if negb done then ret tt
                   else
                     let* pushed := push_main_and_branches in
                     if negb pushed then ret tt
                     else modify (fun st' => Sys (merged (length (b :: rest)) (self st'))
                                                 (env st')))
                (merging st)).
    { unfold _do_merge_impl. erewrite bind_Return by reflexivity. cbv beta.
      rewrite Hpend. reflexivity. }
    destruct (merge_each_spec (b :: rest) (merging st)) as (done & st2 & Hm & Hpost).
    erewrite bind_Return in Heq by exact Hm.
    destruct done; cbv beta iota delta [negb] in Heq.
    + destruct (push_main_and_branches_spec st2) as (r & st3 & Hpush & Hspec).
      destruct r as [[|] | e].
      * erewrite bind_Return in Heq by exact Hpush. cbv beta iota delta [negb] in Heq.
        eexists _, _. split; [exact Heq |]. left.
        destruct Hspec as [Hs3 _]. exists (self st2).
        split; [rewrite Hpost; repeat split |].
        split; [rewrite Hpost; exact Hpend |].
        cbn. rewrite Hs3. reflexivity.
      * erewrite bind_Return in Heq by exact Hpush. cbv beta iota delta [negb] in Heq.
        eexists _, _. split; [exact Heq |]. right.
        destruct Hspec as [[Hs3 _] | (target & l & k & _ & Hs3 & _)];
          rewrite Hs3, Hpost; cbn; rewrite Hpend; auto.
      * erewrite bind_Raise in Heq by exact Hpush.
        eexists _, _. split; [exact Heq |].
        destruct Hspec as [Hs3 _]. rewrite Hs3, Hpost. cbn. rewrite Hpend. auto.
    + eexists _, _. split; [exact Heq |]. right.
      destruct Hpost as [branch Hs2]. rewrite Hs2. cbn. rewrite Hpend. auto.
Qed.

Lemma _do_sync_pending_invariant st : pending_invariant (self (_do_sync st).2).
Proof.
  unfold _do_sync, bind.
  pose proof (sync_classify_clears st) as Hclear.
  destruct (sync_classify st) as [[[[branches t] |] | e] st1]; cbn [snd] in Hclear.
  2,3: intros Hne; unfold conclude, ret in Hne; cbn [snd] in Hne;
    rewrite Hclear in Hne; contradiction.
  unfold conclude, sync_decide.
  destruct (_ =? 0)%nat.
  - intros Hne. exfalso. apply Hne.
    apply (sync_nothing_ahead_self (fun s => pending_branches s = [])
             (pending_display_stable []) branches st1 Hclear).
  - destruct (_ || _).
    + destruct (sync_stop_eq t st1) as (all_files & w' & _ & ->).
      intros _. cbn [snd self]. unfold stopped.
      destruct (no_overlap all_files); [left | right]; reflexivity.
    + intros Hne. exfalso. apply Hne.
      apply (sync_leader_self (fun s => pending_branches s = [])
               (pending_display_stable []) t st1 Hclear).
Qed.

(** C3, as stated, fails: the invariant holds before this manual merge and
    not after it; the merge fails and leaves both branches pending under
    the label "ERROR — Merge failed". *)
Lemma failed_merge_keeps_pending_branches :
  let st := Sys tab_merge_possible merge_conflict in
  pending_invariant (self st) /\
  (_do_merge st).1 = Return tt /\
  pending_branches (self (_do_merge st).2) = ["claude/a"; "claude/b"] /\
  state_label (self (_do_merge st).2) = ERROR_Merge_failed /\
  ~ pending_invariant (self (_do_merge st).2).
Proof.
  cbv zeta.
  assert (Hp : pending_branches (self (_do_merge (Sys tab_merge_possible merge_conflict)).2)
               = ["claude/a"; "claude/b"]) by (vm_compute; reflexivity).
  assert (Hl : state_label (self (_do_merge (Sys tab_merge_possible merge_conflict)).2)
               = ERROR_Merge_failed) by (vm_compute; reflexivity).
  split; [intros _; left; reflexivity |].
  split; [vm_compute; reflexivity |].
  split; [exact Hp |]. split; [exact Hl |].
  intros Hinv. destruct Hinv as [H | H].
  - rewrite Hp. discriminate.
  - rewrite Hl in H. discriminate H.
  - rewrite Hl in H. discriminate H.
Qed.

(** C3, amended. Whatever the state before, a sync cycle ends, also when it
    fails or raises, with [pending_branches] non-empty only under "STOP —
    Merge possible" or "STOP — Human action required".  A manual merge that
    returns has either left [pending_branches] empty (it succeeded, or
    nothing was pending) or has failed: then the pending branches are kept
    as they were, polling is off and the label is "ERROR — Merge failed",
    "ERROR" or "STOP — Push failed". *)
Theorem pending_only_under_a_stop_label (st : sys) :
  pending_invariant (self (_do_sync st).2) /\
  let after := _do_merge_impl st in
  (returns after.1 = true ->
   pending_branches (self after.2) = [] \/
   (pending_branches (self after.2) = pending_branches (self st) /\
    polling (self after.2) = false /\
    (state_label (self after.2) = ERROR_Merge_failed \/
     state_label (self after.2) = ERROR \/
     state_label (self after.2) = STOP_Push_failed))).
Proof.
  split; [apply _do_sync_pending_invariant |].
  cbv zeta. pose proof (_do_merge_impl_cases st) as Hc.
  destruct (pending_branches (self st)) as [| b rest] eqn:Hpend.
  - rewrite Hc. intros _. left. exact Hpend.
  - destruct Hc as (r & st' & -> & Hr). cbn [fst snd].
    destruct r as [[] | e]; [| discriminate]. intros _.
    destruct Hr as [(s2 & _ & _ & ->) | Hfail]; [left; reflexivity | right; exact Hfail].
Qed.

Lemma pending_only_under_a_stop_label_witness :
  let st := Sys tab_merge_possible merge_conflict in
  pending_invariant (self (_do_sync st).2) /\
  pending_branches (self (_do_merge_impl st).2) = pending_branches (self st) /\
  state_label (self (_do_merge_impl st).2) = ERROR_Merge_failed.
Proof.
  cbv zeta.
  destruct (pending_only_under_a_stop_label (Sys tab_merge_possible merge_conflict))
    as [Hsync Hmerge].
  split; [exact Hsync |].
  destruct (Hmerge ltac:(vm_compute; reflexivity)) as [Hnil | (Hkeep & _ & _)].
  - exfalso. revert Hnil. vm_compute. discriminate.
  - split; [exact Hkeep |]. vm_compute. reflexivity.
Defined.

(** * Health *)

Lemma health_display_stable b : display_stable (fun s => git_healthy s = b).
Proof. intros s Hs. repeat split; intros; exact Hs. Qed.

Lemma _do_sync_keeps_health st :
  git_healthy (self (_do_sync st).2) = git_healthy (self st).
Proof.
  apply (_do_sync_self (fun s => git_healthy s = git_healthy (self st))).
  - apply health_display_stable.
  - intros v s Hs. exact Hs.
  - intros v s Hs. exact Hs.
  - reflexivity.
Qed.

Lemma begins_with_stable pre : env_stable (begins_with pre).
Proof.
  intros w [later Hw]. repeat split; intros; try (exists later; exact Hw).
  exists (later ++ [inv]). simpl. rewrite Hw, app_assoc. reflexivity.
Qed.

Lemma _do_sync_begins_with_fetch st :
  begins_with (history (env st) ++ [Invocation (fetch_cmd (self st)) (here st) 30])
    (env (_do_sync st).2).
Proof.
  rewrite _do_sync_eq. unfold bind at 1. rewrite sync_fetch_eq. cbv zeta.
  change (fetch_cmd (self (reset st))) with (fetch_cmd (self st)).
  change (here (reset st)) with (here st).
  change (env (reset st)) with (env st).
  match goal with
  | |- begins_with ?pre (env (let (o, s') := sync_after_fetch ?c ?e ?s in _).2) =>
      pose proof (sync_after_fetch_then_decide_world _ (begins_with_stable pre)
                    ltac:(intros x w H; exact H) c e s) as Hk
  end.
  unfold bind in Hk. apply Hk. exists []. rewrite app_nil_r. reflexivity.
Qed.

(** C2, as stated, fails: the health check reports this repository
    unhealthy, and yet the cycle runs its decision engine and ends in
    "Idle" with polling still on; none of the commands of the health check
    is run by the cycle, whose first command is the fetch. *)
Lemma unhealthy_repository_is_synchronised :
  let st := Sys tab0 dry_run_fails in
  let final := (_do_sync st).2 in
  (check_git_health "/repo" "origin" "main" "git" (env st)).1
    = Return (false, "Fetch failed: fatal: unable to access the remote") /\
  state_label (self final) = Idle /\
  polling (self final) = true /\
  map inv_cmd (history (env final)) =
    [ ["git"; "fetch"; "origin"];
      ["git"; "rev-list"; "--count"; "origin/main..main"];
      ["git"; "for-each-ref"; "--format=%(refname:short)"; "refs/remotes/origin/claude/"];
      ["git"; "rev-list"; "--count"; "origin/main..origin/claude/a"];
      ["git"; "rev-list"; "--count"; "origin/claude/a..origin/main"];
      ["git"; "rev-list"; "--count"; "origin/main..origin/claude/b"];
      ["git"; "rev-list"; "--count"; "origin/claude/b..origin/main"];
      ["git"; "rev-list"; "--count"; "origin/claude/a..origin/main"];
      ["git"; "rev-list"; "--count"; "origin/claude/b..origin/main"] ].
Proof. vm_compute. repeat split. Qed.

(** C2, amended. A sync cycle does not run the health check: the first
    command it runs is the fetch, and it leaves the recorded health flag as
    it found it.  When that fetch fails the cycle ends with the label
    "ERROR" and polling stopped, having run nothing else, so the decision
    engine does not run.  A tab whose recorded health flag is off refuses a
    manual sync: nothing is run and nothing changes. *)
Theorem cycle_starts_with_the_fetch (st : sys) :
  let s := self st in
  let fetch := Invocation (fetch_cmd s) (here st) 30 in
  let final := (_do_sync st).2 in
  (exists later, history (env final) = (history (env st) ++ [fetch]) ++ later) /\
  git_healthy (self final) = git_healthy s /\
  (exit_code (fetch_cmd s) (here st) (env st) ≠ 0%Z ->
     (_do_sync st).1 = Return tt /\
     state_label (self final) = ERROR /\
     polling (self final) = false /\
     pending_branches (self final) = [] /\
     history (env final) = history (env st) ++ [fetch]) /\
  (git_healthy s = false -> manual_sync st = (Return tt, st)).
Proof.
  cbv zeta. split; [apply _do_sync_begins_with_fetch |].
  split; [apply _do_sync_keeps_health |].
  split.
  - intros Hf. rewrite (_do_sync_fetch_fails st Hf). cbn [fst snd env self].
    repeat split.
  - intros Hh. unfold manual_sync.
    erewrite bind_Return by reflexivity. rewrite Hh. reflexivity.
Qed.

Lemma cycle_starts_with_the_fetch_witness :
  state_label (self (_do_sync (Sys tab0 network_down)).2) = ERROR /\
  polling (self (_do_sync (Sys tab0 network_down)).2) = false /\
  manual_sync (Sys tab_unhealthy network_down) = (Return tt, Sys tab_unhealthy network_down).
Proof.
  destruct (cycle_starts_with_the_fetch (Sys tab0 network_down)) as (_ & _ & Hfail & _).
  destruct (cycle_starts_with_the_fetch (Sys tab_unhealthy network_down))
    as (_ & _ & _ & Hmanual).
  destruct Hfail as (_ & Hlabel & Hpoll & _); [vm_compute; discriminate |].
  split; [exact Hlabel |]. split; [exact Hpoll |].
  apply Hmanual. reflexivity.
Defined.

(** * A failing ahead count *)

Lemma commits_ahead_failure base tip cwd git w :
  exit_code (rev_list_cmd git base tip) cwd w ≠ 0%Z ->
  exists err,
    commits_ahead base tip cwd git w
    = (Raise (RuntimeError err), ran (rev_list_cmd git base tip) cwd w).
Proof.
  intros Hc. unfold commits_ahead, exit_code, rev_list_cmd in *.
  erewrite bind_Return by apply run_git_eq.
  destruct (run_git_value _ _) as [[code out] err]; simpl in *.
  destruct (Z.eqb_spec code 0); [contradiction |]. exists err. reflexivity.
Qed.

(** C1 at its failing input. The fetch succeeds, local main is not ahead,
    and the rev-list that counts the commits of [claude/a] exits with code
    128.  [commits_ahead] raises; the exception leaves [_do_sync], leaves
    [sync] (which still releases the lock) and leaves the polling loop.
    The label is left at "Sync…" and [polling] is still set: the cycle ends
    neither in "ERROR" nor with polling stopped. *)
Theorem ahead_count_failure_escapes_the_worker :
  let st := Sys tab0 ahead_count_fails in
  exit_code (count_cmd "origin/main" "origin/claude/a") (here st) (env st) = 128%Z /\
  (_do_sync st).1 = Raise (RuntimeError "fatal: bad revision") /\
  (sync st).1 = Raise (RuntimeError "fatal: bad revision") /\
  (polling_loop 1 st).1 = Raise (RuntimeError "fatal: bad revision") /\
  state_label (self (sync st).2) = Sync_running /\
  polling (self (sync st).2) = true /\
  lock (self (sync st).2) = false.
Proof. vm_compute. repeat split; discriminate. Qed.

(** * The polling loop after a stop *)

Lemma sync_eq st :
  lock (self st) = false ->
  sync st = ((_do_sync (entered st)).1,
             Sys (left_sync (self (_do_sync (entered st)).2))
                 (env (_do_sync (entered st)).2)).
Proof.
  intros Hl.
  pose proof (_do_sync_keeps_lock (entered st)) as Hk. simpl in Hk.
  destruct (_do_sync (entered st)) as [r st1] eqn:Hbody. simpl in Hk.
  unfold sync.
  erewrite bind_Return by (apply lock_acquire_free, Hl).
  apply try_finally_run with (s1 := st1); [exact Hbody |].
  do 3 (erewrite bind_Return by reflexivity).
  rewrite lock_release_held; [reflexivity | exact Hk].
Qed.

Lemma stop_event_display_stable b : display_stable (fun s => stop_event s = b).
Proof. intros s Hs. repeat split; intros; exact Hs. Qed.

Lemma _do_sync_keeps_stop_event st :
  stop_event (self (_do_sync st).2) = stop_event (self st).
Proof.
  apply (_do_sync_self (fun s => stop_event s = stop_event (self st))).
  - apply stop_event_display_stable.
  - intros v s Hs. exact Hs.
  - intros v s Hs. exact Hs.
  - reflexivity.
Qed.

Lemma operator_stable f n : env_stable (operator_is f n).
Proof. intros w Hw. repeat split; intros; apply Hw. Qed.

Lemma _do_sync_keeps_operator st :
  operator_is (operator_stop (env st)) (waits (env st)) (env (_do_sync st).2).
Proof.
  rewrite _do_sync_eq. unfold bind at 1. rewrite sync_fetch_eq. cbv zeta.
  match goal with
  | |- operator_is ?f ?n (env (let (o, s') := sync_after_fetch ?c ?e ?s in _).2) =>
      pose proof (sync_after_fetch_then_decide_world _ (operator_stable f n)
                    ltac:(intros x w H; exact H) c e s) as Hk
  end.
  unfold bind in Hk. apply Hk. destruct (fetch_cmd _); split; reflexivity.
Qed.

Lemma stop_event_wait_spec st :
  exists stopped st',
    stop_event_wait st = (Return stopped, st') /\
    history (env st') = history (env st).
Proof.
  unfold stop_event_wait, bind, get, modify, on_self. cbn.
  destruct (stop_event (self st)); [eexists _, _; split; reflexivity |].
  destruct (operator_stop (env st) (waits (env st)));
    eexists _, _; split; reflexivity.
Qed.

(** [stop_polling] does not end the polling loop.  Whatever a cycle does,
    stopping included, as long as it returns and the operator sends no stop
    signal, the loop waits and then starts the next cycle: the fetch of a
    second cycle is run. *)
Lemma polling_loop_survives_stop_polling (st : sys) :
  stop_event (self st) = false ->
  lock (self st) = false ->
  operator_stop (env st) (waits (env st)) = false ->
  returns (sync st).1 = true ->
  exists later,
    history (env (polling_loop 2 st).2) =
      (history (env (sync st).2)
         ++ [Invocation (fetch_cmd (self st)) (here st) 30]) ++ later.
Proof.
  intros Hev Hl Hop Hret.
  pose proof (sync_eq st Hl) as Hs.
  pose proof (_do_sync_keeps_stop_event (entered st)) as Hev1.
  pose proof (_do_sync_keeps_operator (entered st)) as [Hop1 Hw1].
  pose proof (_do_sync_self (same_config (self st)) (same_config_stable _)
                ltac:(intros v s H; exact H) ltac:(intros v s H; exact H)
                (entered st) ltac:(repeat split)) as Hcfg.
  cbn beta in Hcfg.
  destruct (_do_sync (entered st)) as [r st1] eqn:Hbody.
  cbn [fst snd] in Hs, Hev1, Hop1, Hw1, Hcfg.
  change (stop_event (self (entered st))) with (stop_event (self st)) in Hev1.
  change (env (entered st)) with (env st) in Hop1, Hw1.
  rewrite Hs in Hret |- *. cbn [fst snd env] in Hret |- *.
  destruct r as [[] | e]; [| discriminate Hret].
  (* the first round *)
  cbn [polling_loop]. erewrite bind_Return by reflexivity.
  rewrite Hev. erewrite bind_Return by exact Hs.
  set (st2 := Sys (left_sync (self st1)) (env st1)).
  assert (Hwait : stop_event_wait st2
                  = (Return false, Sys (self st2) (world_waited (env st2)))).
  { unfold stop_event_wait. erewrite bind_Return by reflexivity. cbv beta zeta.
    erewrite bind_Return by reflexivity.
    change (stop_event (self st2)) with (stop_event (self st1)). rewrite Hev1, Hev.
    change (env st2) with (env st1). rewrite Hop1, Hw1, Hop. reflexivity. }
  erewrite bind_Return by exact Hwait. cbv iota.
  (* the second round *)
  set (st3 := Sys (self st2) (world_waited (env st2))).
  erewrite bind_Return by reflexivity.
  change (stop_event (self st3)) with (stop_event (self st1)). rewrite Hev1, Hev.
  assert (Hl3 : lock (self st3) = false) by reflexivity.
  pose proof (sync_eq st3 Hl3) as Hs3.
  pose proof (_do_sync_begins_with_fetch (entered st3)) as [later Hh].
  assert (Hfetch : Invocation (fetch_cmd (self (entered st3))) (here (entered st3)) 30
                   = Invocation (fetch_cmd (self st)) (here st) 30).
  { destruct Hcfg as (Hg & Hr & _ & _ & Hp & _).
    unfold fetch_cmd, here. cbn. rewrite Hg, Hr, Hp. reflexivity. }
  rewrite Hfetch in Hh. change (history (env (entered st3))) with (history (env st1)) in Hh.
  unfold bind at 1. rewrite Hs3.
  destruct (_do_sync (entered st3)) as [r3 st4]. cbn [fst snd env] in Hh |- *.
  destruct r3 as [[] | e3].
  - cbn [fst snd].
    destruct (stop_event_wait_spec (Sys (left_sync (self st4)) (env st4)))
      as (stopped & st5 & Hw5 & Hh5).
    erewrite bind_Return by exact Hw5.
    exists later. cbn [env] in Hh5. rewrite <- Hh, <- Hh5.
    destruct stopped; reflexivity.
  - exists later. cbn [snd env]. exact Hh.
Qed.

(** C4 at its failing input: scenario B, the operator sends no stop signal.
    The cycle does what the decision table says: the label is "STOP — Merge
    possible", both branches are pending, the merge button is shown and
    [stop_polling] has cleared [polling].  The scheduler is not stopped:
    [stop_event] is not set and the polling loop, which tests nothing else,
    runs a second cycle after the wait and is still running. *)
Theorem scheduler_runs_on_after_merge_possible :
  let st := Sys tab0 two_ahead_disjoint in
  let once := (sync st).2 in
  let twice := polling_loop 2 st in
  state_label (self once) = STOP_Merge_possible /\
  pending_branches (self once) = ["claude/a"; "claude/b"] /\
  merge_button (self once) = true /\
  polling (self once) = false /\
  stop_event (self once) = false /\
  fetches (history (env once)) = 1%nat /\
  twice.1 = Return false /\
  fetches (history (env twice.2)) = 2%nat.
Proof. vm_compute. repeat split. Qed.

(** C6 at its failing input: one branch is ahead, its pull is refused, the
    operator sends no stop signal.  The cycle pulls that branch and, the
    pull failing, ends with the label "ERROR" and [polling] cleared.  The
    scheduler is not stopped: [stop_event] is not set and the polling loop
    runs a second cycle, which pulls again, and is still running. *)
Theorem scheduler_runs_on_after_failed_pull :
  let st := Sys tab0 pull_refused in
  let once := (sync st).2 in
  let twice := polling_loop 2 st in
  map inv_cmd (drop 7 (history (env once)))
    = [["git"; "pull"; "--ff-only"; "origin"; "claude/a"]] /\
  state_label (self once) = ERROR /\
  info_label (self once) = "Pull failed: fatal: Not possible to fast-forward, aborting." /\
  polling (self once) = false /\
  stop_event (self once) = false /\
  fetches (history (env once)) = 1%nat /\
  twice.1 = Return false /\
  fetches (history (env twice.2)) = 2%nat.
Proof. vm_compute. repeat split. Qed.

(** * Around the engine: the rest of [git_utils.py] *)

Lemma check_git_health_eq repo_path remote main_branch git w :
  let cwd := Some repo_path in
  let w1 := ran (rev_parse_cmd git) cwd w in
  let w2 := ran (remote_cmd git) cwd w1 in
  let w3 := ran (dry_run_cmd git remote) cwd w2 in
  let v1 := run_git_value (rev_parse_cmd git) (answer (rev_parse_cmd git) cwd w) in
  let v2 := run_git_value (remote_cmd git) (answer (remote_cmd git) cwd w1) in
  let v3 := run_git_value (dry_run_cmd git remote)
              (answer (dry_run_cmd git remote) cwd w2) in
  check_git_health repo_path remote main_branch git w =
    if negb (v1.1.1 =? 0)%Z then (Return (false, "Not a Git repository: " +:+ v1.2), w1)
    else if negb (v2.1.1 =? 0)%Z then (Return (false, "Git remote error: " +:+ v2.2), w2)
    else if negb (bool_decide (remote ∈ Py.splitlines v2.1.2))
    then (Return (false, "Remote '" +:+ remote +:+ "' not found"), w2)
    else if negb (v3.1.1 =? 0)%Z then (Return (false, "Fetch failed: " +:+ v3.2), w3)
    else (Return (true, ""), w3).
Proof.
  cbv zeta. unfold check_git_health.
  erewrite bind_Return by apply run_git_eq.
  fold (rev_parse_cmd git).
  destruct (run_git_value (rev_parse_cmd git) _) as [[c1 o1] e1]. cbn [fst snd].
  destruct (negb (c1 =? 0)%Z); [reflexivity |].
  erewrite bind_Return by apply run_git_eq.
  fold (remote_cmd git).
  destruct (run_git_value (remote_cmd git) _) as [[c2 o2] e2]. cbn [fst snd].
  destruct (negb (c2 =? 0)%Z); [reflexivity |].
  destruct (negb (bool_decide _)); [reflexivity |].
  erewrite bind_Return by apply run_git_eq.
  fold (dry_run_cmd git remote).
  destruct (run_git_value (dry_run_cmd git remote) _) as [[c3 o3] e3]. cbn [fst snd].
  destruct (negb (c3 =? 0)%Z); reflexivity.
Qed.

(** X1. The health check stops at the first check that fails.  It runs
    [git rev-parse --git-dir], then [git remote], then
    [git fetch <remote> --dry-run], each in the repository, and never
    raises.  If [rev-parse] exits with a code other than 0 the verdict is
    False with "Not a Git repository: " and the error text, and no other
    subprocess is started.  Otherwise, if [git remote] exits with a code
    other than 0 the verdict is False with "Git remote error: " and the
    error text, and if the remote's name is none of the lines it prints the
    verdict is False with "Remote '<remote>' not found"; in both cases the
    dry run is not started.  Otherwise, if the dry run exits with a code
    other than 0 the verdict is False with "Fetch failed: " and the error
    text.  Only when all three checks pass is the verdict True, with an
    empty message. *)
Theorem health_check_verdict (repo_path remote main_branch git : string) (w : world) :
  let cwd := Some repo_path in
  let c1 := rev_parse_cmd git in
  let c2 := remote_cmd git in
  let c3 := dry_run_cmd git remote in
  let w1 := ran c1 cwd w in
  let w2 := ran c2 cwd w1 in
  let w3 := ran c3 cwd w2 in
  let remotes := Py.splitlines (output c2 cwd w1) in
  let check := check_git_health repo_path remote main_branch git w in
  (exit_code c1 cwd w ≠ 0%Z ->
   check = (Return (false, "Not a Git repository: " +:+ complaint c1 cwd w), w1)) /\
  (exit_code c1 cwd w = 0%Z -> exit_code c2 cwd w1 ≠ 0%Z ->
   check = (Return (false, "Git remote error: " +:+ complaint c2 cwd w1), w2)) /\
  (exit_code c1 cwd w = 0%Z -> exit_code c2 cwd w1 = 0%Z -> remote ∉ remotes ->
   check = (Return (false, "Remote '" +:+ remote +:+ "' not found"), w2)) /\
  (exit_code c1 cwd w = 0%Z -> exit_code c2 cwd w1 = 0%Z -> remote ∈ remotes ->
   exit_code c3 cwd w2 ≠ 0%Z ->
   check = (Return (false, "Fetch failed: " +:+ complaint c3 cwd w2), w3)) /\
  (exit_code c1 cwd w = 0%Z -> exit_code c2 cwd w1 = 0%Z -> remote ∈ remotes ->
   exit_code c3 cwd w2 = 0%Z ->
   check = (Return (true, ""), w3)) /\
  history w1 = history w ++ [Invocation c1 cwd 30] /\
  history w2 = history w ++ [Invocation c1 cwd 30; Invocation c2 cwd 30] /\
  history w3 = history w ++
    [Invocation c1 cwd 30; Invocation c2 cwd 30; Invocation c3 cwd 30].
Proof.
  cbv zeta. rewrite check_git_health_eq. cbv zeta.
  unfold exit_code, output, complaint.
  destruct (run_git_value (rev_parse_cmd git) _) as [[x1 o1] e1].
  destruct (run_git_value (remote_cmd git) _) as [[x2 o2] e2].
  destruct (run_git_value (dry_run_cmd git remote) _) as [[x3 o3] e3].
  cbn [fst snd].
  repeat split.
  - intros H1. destruct (Z.eqb_spec x1 0); [contradiction | reflexivity].
  - intros -> H2. cbn [Z.eqb negb].
    destruct (Z.eqb_spec x2 0); [contradiction | reflexivity].
  - intros -> -> Hout. cbn [Z.eqb negb].
    rewrite bool_decide_eq_false_2 by exact Hout. reflexivity.
  - intros -> -> Hin H3. cbn [Z.eqb negb].
    rewrite bool_decide_eq_true_2 by exact Hin. cbn [negb].
    destruct (Z.eqb_spec x3 0); [contradiction | reflexivity].
  - intros -> -> Hin ->. cbn [Z.eqb negb].
    rewrite bool_decide_eq_true_2 by exact Hin. reflexivity.
  - cbn. rewrite <- ?app_assoc. reflexivity.
  - cbn. rewrite <- ?app_assoc. reflexivity.
Qed.

Lemma health_check_witness :
  let run := check_git_health "/repo" "origin" "main" "git" upstream_clone in
  run.1 = Return (false, "Remote 'origin' not found") /\
  map inv_cmd (history run.2) = [ ["git"; "rev-parse"; "--git-dir"]; ["git"; "remote"] ].
Proof.
  destruct (health_check_verdict "/repo" "origin" "main" "git" upstream_clone)
    as (_ & _ & Hmissing & _ & _ & _ & Hh & _).
  cbv zeta in Hmissing, Hh |- *.
  assert (Hout : Py.splitlines
                   (output (remote_cmd "git") (Some "/repo")
                      (ran (rev_parse_cmd "git") (Some "/repo") upstream_clone))
                 = ["upstream"]) by (vm_compute; reflexivity).
  rewrite Hmissing.
  - split; [reflexivity |]. cbn [snd]. rewrite Hh. reflexivity.
  - vm_compute. reflexivity.
  - vm_compute. reflexivity.
  - rewrite Hout. intros Hin. apply list_elem_of_singleton in Hin. discriminate Hin.
Defined.

Lemma is_git_repo_eq path git w :
  is_git_repo path git w
  = (Return (exit_code (rev_parse_cmd git) (Some path) w =? 0)%Z,
     ran (rev_parse_cmd git) (Some path) w).
Proof.
  unfold is_git_repo, exit_code. erewrite bind_Return by apply run_git_eq.
  fold (rev_parse_cmd git).
  destruct (run_git_value _ _) as [[c o] e]. reflexivity.
Qed.

(** X2. [is_git_repo] and the health check agree on their first step.
    Where [is_git_repo] answers False, the health check run in the same
    world starts that one subprocess only and reports "Not a Git
    repository: " followed by what git complained about. *)
Theorem not_a_repository_fails_the_health_check
  (path remote main_branch git : string) (w : world) :
  (is_git_repo path git w).1 = Return false ->
  check_git_health path remote main_branch git w
  = (Return (false,
             "Not a Git repository: " +:+
               (run_git_value (rev_parse_cmd git)
                  (answer (rev_parse_cmd git) (Some path) w)).2),
     (is_git_repo path git w).2) /\
  history (is_git_repo path git w).2
  = history w ++ [Invocation (rev_parse_cmd git) (Some path) 30].
Proof.
  rewrite is_git_repo_eq. cbn [fst snd]. intros H.
  rewrite check_git_health_eq. cbv zeta.
  unfold exit_code in H.
  destruct (run_git_value (rev_parse_cmd git) _) as [[c1 o1] e1]. cbn [fst snd] in *.
  assert (Hc : (c1 =? 0)%Z = false) by congruence.
  rewrite Hc. split; reflexivity.
Qed.

Lemma not_a_repository_witness :
  check_git_health "/repo" "origin" "main" "git" not_a_repository
  = (Return (false,
             "Not a Git repository: " +:+
               (run_git_value (rev_parse_cmd "git")
                  (answer (rev_parse_cmd "git") (Some "/repo") not_a_repository)).2),
     (is_git_repo "/repo" "git" not_a_repository).2) /\
  history (is_git_repo "/repo" "git" not_a_repository).2
  = history not_a_repository ++ [Invocation (rev_parse_cmd "git") (Some "/repo") 30].
Proof.
  apply (not_a_repository_fails_the_health_check "/repo" "origin" "main" "git"
           not_a_repository).
  vm_compute. reflexivity.
Defined.

(** X3. [delete_remote_branch] never raises and starts exactly one
    subprocess, [git push <remote> --delete <branch>].  It reports success
    exactly when that process completed with exit code 0: a timeout is
    reported as a failed deletion with the message "Timeout", a missing
    executable as a failed deletion with "Command not found: " and the
    name of the executable. *)
Theorem deletion_succeeds_only_on_exit_code_zero
  (branch_name remote : string) (cwd : option string) (git : string) (w : world) :
  let inv := Invocation [git; "push"; remote; "--delete"; branch_name] cwd 30 in
  exists ok err,
    delete_remote_branch branch_name remote cwd git w
      = (Return (ok, err), world_ran inv w) /\
    (ok = true <-> exists out stderr, os w (clock w) inv = Completed 0 out stderr) /\
    (forall code out stderr,
       os w (clock w) inv = Completed code out stderr -> err = Py.strip stderr) /\
    (os w (clock w) inv = TimeoutExpired -> err = "Timeout") /\
    (os w (clock w) inv = FileNotFoundError -> err = "Command not found: " +:+ git).
Proof.
  cbv zeta. unfold delete_remote_branch.
  erewrite bind_Return by apply run_git_eq.
  unfold answer, ran.
  destruct (os w (clock w) _) as [code out stderr | | | msg] eqn:Hos; cbn [run_git_value].
  - eexists _, _. split; [reflexivity |]. split; [| split; [| split]].
    + destruct (Z.eqb_spec code 0) as [-> | Hne]; split; intros H.
      * eauto.
      * reflexivity.
      * discriminate.
      * destruct H as (o & e & H). congruence.
    + intros c o e H. congruence.
    + discriminate.
    + discriminate.
  - eexists _, _. split; [reflexivity |]. split; [| split; [| split]].
    + split; [discriminate | intros (o & e & H); discriminate].
    + intros c o e H. discriminate.
    + reflexivity.
    + discriminate.
  - eexists _, _. split; [reflexivity |]. split; [| split; [| split]].
    + split; [discriminate | intros (o & e & H); discriminate].
    + intros c o e H. discriminate.
    + discriminate.
    + reflexivity.
  - eexists _, _. split; [reflexivity |]. split; [| split; [| split]].
    + split; [discriminate | intros (o & e & H); discriminate].
    + intros c o e H. discriminate.
    + discriminate.
    + discriminate.
Qed.

Lemma os_ran cmd cwd w : os (ran cmd cwd w) = os w.
Proof. destruct cmd; reflexivity. Qed.

Lemma failed_exit_code cmd p : failed p -> (run_git_value cmd p).1.1 ≠ 0%Z.
Proof.
  destruct p as [code out err | | |]; cbn; try discriminate.
  destruct code; [contradiction | discriminate | discriminate].
Qed.

Lemma no_overlap_empty n : no_overlap (replicate n (∅ : gset string)) = true.
Proof.
  induction n as [| n IH]; [reflexivity |].
  cbn [replicate no_overlap]. rewrite IH, andb_true_r.
  apply forallb_forall. intros x Hx. apply list_elem_of_In, elem_of_replicate in Hx. destruct Hx as [-> _].
  unfold overlap. rewrite bool_decide_eq_true_2 by set_solver. reflexivity.
Qed.

Lemma changed_files_of_failed branches main_ref remote cwd git w :
  (forall n inv, verb (inv_cmd inv) = "diff" -> failed (os w n inv)) ->
  exists w',
    changed_files_of branches main_ref remote cwd git w
    = (Return (replicate (length branches) ∅), w').
Proof.
  revert w. induction branches as [| b rest IH]; intros w Hw.
  - exists w. reflexivity.
  - cbn [changed_files_of length replicate].
    erewrite bind_Return.
    2:{ apply get_changed_files_failure. unfold exit_code, answer, diff_cmd.
        apply failed_exit_code, Hw. reflexivity. }
    destruct (IH (ran (diff_cmd git main_ref (remote +:+ "/" +:+ b)) cwd w)) as [w' Hrest].
    { intros n inv Hv. rewrite os_ran. apply Hw, Hv. }
    erewrite bind_Return by exact Hrest. eexists. reflexivity.
Qed.

(** X4. A diff that fails counts as "no file changed": in a world where
    every [git diff] fails (a non-zero exit code, a timeout, a missing
    executable), [are_files_disjoint] answers True for every list of
    branches, whatever the branches really touch. *)
Theorem failed_diffs_read_as_disjoint
  (branches : list string) (main_ref remote : string) (cwd : option string)
  (git : string) (w : world) :
  (forall n inv, verb (inv_cmd inv) = "diff" -> failed (os w n inv)) ->
  exists w',
    changed_files_of branches main_ref remote cwd git w
      = (Return (replicate (length branches) ∅), w') /\
    are_files_disjoint branches main_ref remote cwd git w = (Return true, w').
Proof.
  intros Hw.
  destruct (changed_files_of_failed branches main_ref remote cwd git w Hw) as [w' Hc].
  exists w'. split; [exact Hc |].
  unfold are_files_disjoint. erewrite bind_Return by exact Hc.
  unfold ret. rewrite no_overlap_empty. reflexivity.
Qed.

Lemma failed_diffs_witness :
  (are_files_disjoint ["claude/a"; "claude/b"] "origin/main" "origin" (Some "/repo") "git"
     diff_unavailable).1 = Return true.
Proof.
  destruct (failed_diffs_read_as_disjoint ["claude/a"; "claude/b"] "origin/main" "origin"
              (Some "/repo") "git" diff_unavailable) as (w' & _ & Hd).
  - intros n inv Hv. cbn. rewrite bool_decide_eq_true_2 by exact Hv. exact I.
  - rewrite Hd. reflexivity.
Defined.

(** X5. A lone diverged branch is always offered for a merge.  When a cycle
    reaches the decision with one enabled branch diverged and none ahead,
    there is no second file set to overlap with: whatever the branch
    touches, and even when its diff fails, the cycle ends on "STOP — Merge
    possible" with the merge button shown, that branch pending and polling
    switched off; it never ends on "STOP — Human action required". *)
Theorem lone_diverged_branch_is_offered_for_merge
  (st : sys) (branches : list string) (t : tally) (name : string) (ahead behind : Z) :
  (sync_classify st).1 = Return (Some (branches, t)) ->
  ahead_branches t = [] ->
  diverged_branches t = [(name, ahead, behind)] ->
  let final := (_do_sync st).2 in
  (_do_sync st).1 = Return tt /\
  state_label (self final) = STOP_Merge_possible /\
  merge_button (self final) = true /\
  pending_branches (self final) = [name] /\
  info_label (self final)
    = "Disjoint files. Diverged branches: " +:+ name +:+ " (+" +:+ Py.str ahead
        +:+ "/-" +:+ Py.str behind +:+ ")" /\
  polling (self final) = false.
Proof.
  intros Hcl1 Ha Hd final.
  assert (Hcl : sync_classify st = (Return (Some (branches, t)), (sync_classify st).2)).
  { rewrite <- Hcl1. destruct (sync_classify st); reflexivity. }
  set (st1 := (sync_classify st).2) in *. clearbody st1.
  assert (Hrun : _do_sync st = sync_stop t st1).
  { apply (_do_sync_stops _ _ _ _ Hcl). left. rewrite Hd. simpl. lia. }
  destruct (sync_stop_eq t st1) as (all_files & w' & Hfiles & Hstop). cbv zeta in *.
  assert (Hnames : all_names_of t = [name]).
  { unfold all_names_of. rewrite Ha, Hd. reflexivity. }
  assert (Hone : no_overlap all_files = true).
  { destruct (changed_files_of_returns (all_names_of t)
                (remote (self st1) +:+ "/" +:+ main (self st1)) (remote (self st1))
                (Some (repo_path (self st1))) (git (self st1)) (env st1))
      as (fs & w'' & Hc & Hlen).
    rewrite Hfiles in Hc. injection Hc as <- _.
    rewrite Hnames in Hlen.
    destruct all_files as [| f [| g rest]]; try discriminate Hlen. reflexivity. }
  unfold final. rewrite Hrun, Hstop, Hone. cbn [fst snd self].
  unfold stopped, stop_message. rewrite Hnames, Hd. cbn.
  repeat split.
Qed.

Lemma lone_diverged_branch_witness :
  let final := (_do_sync (Sys tab0 one_diverged)).2 in
  state_label (self final) = STOP_Merge_possible /\
  pending_branches (self final) = ["claude/a"] /\
  polling (self final) = false.
Proof.
  destruct (lone_diverged_branch_is_offered_for_merge (Sys tab0 one_diverged)
              ["origin/claude/a"; "origin/claude/b"]
              (Tally [] [("claude/a", 2%Z, 1%Z)] true) "claude/a" 2 1)
    as (_ & Hl & _ & Hp & _ & Hpoll).
  - vm_compute. reflexivity.
  - reflexivity.
  - reflexivity.
  - split; [exact Hl |]. split; [exact Hp | exact Hpoll].
Defined.

(** * Reading a count *)

Lemma pretty_N_char_digit d :
  (d < 10)%N ->
  Py.digit_val (pretty_N_char d) = Some (Z.of_N d) /\
  Py.is_underscore (pretty_N_char d) = false /\
  all_digits (String (pretty_N_char d) "") = true.
Proof.
  intros Hd.
  assert (d = 0 \/ d = 1 \/ d = 2 \/ d = 3 \/ d = 4 \/ d = 5 \/ d = 6 \/ d = 7
          \/ d = 8 \/ d = 9)%N as H by lia.
  repeat (destruct H as [-> | H]; [repeat split |]). subst d. repeat split.
Qed.

Lemma parse_pretty_N_go x :
  (0 < x)%N ->
  forall s, Py.parse_digits 0 false (pretty_N_go x s) = Py.parse_digits (Z.of_N x) true s.
Proof.
  induction (N.lt_wf_0 x) as [x _ IH]. intros Hx s.
  rewrite pretty_N_go_step by exact Hx.
  destruct (pretty_N_char_digit (x `mod` 10)%N) as (Hd & Hu & _).
  { apply N.mod_lt. lia. }
  destruct (decide (x `div` 10 = 0)%N) as [H0 | Hpos].
  - rewrite H0, pretty_N_go_0. cbn [Py.parse_digits]. rewrite Hu, Hd.
    f_equal. rewrite (N.div_mod x 10) at 2 by lia. lia.
  - rewrite IH; [| apply N.div_lt; lia | apply N.neq_0_lt_0; exact Hpos].
    cbn [Py.parse_digits]. rewrite Hu, Hd.
    f_equal. rewrite (N.div_mod x 10) at 3 by lia. lia.
Qed.

Lemma pretty_N_go_digits x s :
  all_digits s = true -> s ≠ "" ->
  all_digits (pretty_N_go x s) = true /\ pretty_N_go x s ≠ "".
Proof.
  revert s. induction (N.lt_wf_0 x) as [x _ IH]. intros s Hs Hne.
  destruct (decide (x = 0)%N) as [-> | Hx].
  - rewrite pretty_N_go_0. split; assumption.
  - rewrite pretty_N_go_step by lia.
    destruct (pretty_N_char_digit (x `mod` 10)%N) as (_ & _ & Hc).
    { apply N.mod_lt. lia. }
    apply IH; [apply N.div_lt; lia | | discriminate].
    cbn [all_digits] in Hc |- *. rewrite andb_true_r in Hc. rewrite Hc, Hs. reflexivity.
Qed.

Lemma str_digits (n : N) :
  all_digits (Py.str (Z.of_N n)) = true /\ Py.str (Z.of_N n) ≠ "" /\
  Py.parse_digits 0 false (Py.str (Z.of_N n)) = Some (Z.of_N n).
Proof.
  destruct n as [| p]; [repeat split; discriminate |].
  change (Py.str (Z.of_N (N.pos p))) with (pretty (N.pos p)).
  unfold pretty, pretty_N. rewrite decide_False by discriminate.
  rewrite (pretty_N_go_step (N.pos p)) by lia.
  destruct (pretty_N_char_digit (N.pos p `mod` 10)%N) as (_ & _ & Hc).
  { apply N.mod_lt. lia. }
  destruct (pretty_N_go_digits (N.pos p `div` 10)
              (String (pretty_N_char (N.pos p `mod` 10)) "") Hc) as [Hd Hne];
    [discriminate |].
  split; [exact Hd |]. split; [exact Hne |].
  rewrite <- (pretty_N_go_step (N.pos p)) by lia.
  rewrite parse_pretty_N_go by lia. reflexivity.
Qed.

Lemma digit_not_space c :
  (48 <=? nat_of_ascii c)%nat && (nat_of_ascii c <=? 57)%nat = true ->
  Py.isspace c = false /\
  (nat_of_ascii c =? 43)%nat = false /\ (nat_of_ascii c =? 45)%nat = false.
Proof.
  intros H. apply andb_true_iff in H as [H1 H2].
  apply Nat.leb_le in H1. apply Nat.leb_le in H2.
  unfold Py.isspace. cbv zeta.
  repeat split.
  - destruct (Nat.leb_spec 9 (nat_of_ascii c)), (Nat.leb_spec (nat_of_ascii c) 13),
      (Nat.leb_spec 28 (nat_of_ascii c)), (Nat.leb_spec (nat_of_ascii c) 32);
      simpl; try reflexivity; lia.
  - apply Nat.eqb_neq. lia.
  - apply Nat.eqb_neq. lia.
Qed.

Lemma rstrip_digits s :
  all_digits s = true -> Py.rstrip (s +:+ newline) = s /\ Py.rstrip s = s.
Proof.
  induction s as [| c r IH]; intros Hs; [split; reflexivity |].
  cbn [all_digits] in Hs. apply andb_true_iff in Hs as [Hc Hr].
  destruct (IH Hr) as [IH1 IH2].
  destruct (digit_not_space c Hc) as (Hsp & _).
  change (String c r +:+ newline) with (String c (r +:+ newline)).
  cbn [Py.rstrip]. rewrite IH1, IH2.
  destruct r; [rewrite Hsp |]; split; reflexivity.
Qed.

Lemma digit_count_digits s :
  all_digits s = true -> Py.digit_count s = Z.of_nat (String.length s).
Proof.
  induction s as [| c r IH]; intros Hs; [reflexivity |].
  cbn [all_digits] in Hs. apply andb_true_iff in Hs as [Hc Hr].
  cbn [Py.digit_count String.length]. unfold Py.digit_val. cbv zeta.
  rewrite Hc, (IH Hr). lia.
Qed.

Lemma int_of_printed_count (n : N) :
  Py.int (Py.strip (Py.str (Z.of_N n) +:+ newline)) =
    if (Z.of_nat (String.length (Py.str (Z.of_N n))) <=? Py.int_max_str_digits)%Z
    then Some (Z.of_N n) else None.
Proof.
  destruct (str_digits n) as (Hd & Hne & Hp).
  pose proof (digit_count_digits _ Hd) as Hcount.
  destruct (Py.str (Z.of_N n)) as [| c r] eqn:Hs; [contradiction |].
  pose proof Hd as Hd'. cbn [all_digits] in Hd'.
  apply andb_true_iff in Hd' as [Hc _].
  destruct (digit_not_space c Hc) as (Hsp & Hplus & Hminus).
  assert (Hstrip : Py.strip (String c r +:+ newline) = String c r).
  { unfold Py.strip. change (String c r +:+ newline) with (String c (r +:+ newline)).
    cbn [Py.lstrip]. rewrite Hsp.
    apply (rstrip_digits (String c r) Hd). }
  assert (Hstrip' : Py.strip (String c r) = String c r).
  { unfold Py.strip. cbn [Py.lstrip]. rewrite Hsp.
    apply (rstrip_digits (String c r) Hd). }
  rewrite Hstrip. unfold Py.int. rewrite Hstrip', Hplus, Hminus. cbv zeta.
  cbn [orb]. rewrite Hcount, Hp, Z.ltb_antisym.
  destruct (_ <=? _)%Z; reflexivity.
Qed.

Lemma strip_printed_count (n : N) :
  Py.strip (Py.str (Z.of_N n) +:+ newline) = Py.str (Z.of_N n).
Proof.
  destruct (str_digits n) as (Hd & Hne & _).
  destruct (Py.str (Z.of_N n)) as [| c r] eqn:Hs; [contradiction |].
  pose proof Hd as Hd'. cbn [all_digits] in Hd'.
  apply andb_true_iff in Hd' as [Hc _].
  destruct (digit_not_space c Hc) as (Hsp & _).
  unfold Py.strip. change (String c r +:+ newline) with (String c (r +:+ newline)).
  cbn [Py.lstrip]. rewrite Hsp.
  apply (rstrip_digits (String c r) Hd).
Qed.

(** X6. The counts are read back, up to the limit of [int].  When
    [git rev-list --count] exits with code 0 and prints a natural number in
    decimal followed by a line feed, [commits_ahead] and [commits_behind]
    return that number if it has at most 4300 digits: stripping the output
    and [int] undo what git printed.  A number of more digits is refused by
    [int], and the [ValueError] leaves the function. *)
Theorem printed_count_is_read_back
  (base tip : string) (cwd : option string) (git : string) (w : world)
  (n : N) (err : string) :
  let printed := Py.str (Z.of_N n) in
  let read :=
    if (Z.of_nat (String.length printed) <=? 4300)%Z
    then Return (Z.of_N n) else Raise (ValueError printed) in
  (os w (clock w) (Invocation (rev_list_cmd git base tip) cwd 30)
     = Completed 0 (printed +:+ newline) err ->
   commits_ahead base tip cwd git w
     = (read, ran (rev_list_cmd git base tip) cwd w)) /\
  (os w (clock w) (Invocation (rev_list_cmd git tip base) cwd 30)
     = Completed 0 (printed +:+ newline) err ->
   commits_behind base tip cwd git w
     = (read, ran (rev_list_cmd git tip base) cwd w)).
Proof.
  cbv zeta.
  change 4300%Z with Py.int_max_str_digits.
  split; intros Hos.
  - unfold commits_ahead. erewrite bind_Return by apply run_git_eq.
    fold (rev_list_cmd git base tip). unfold answer, rev_list_cmd in *. rewrite Hos.
    cbn [run_git_value Z.eqb negb]. unfold int_of.
    rewrite int_of_printed_count, strip_printed_count.
    destruct (_ <=? _)%Z; reflexivity.
  - unfold commits_behind. erewrite bind_Return by apply run_git_eq.
    fold (rev_list_cmd git tip base). unfold answer, rev_list_cmd in *. rewrite Hos.
    cbn [run_git_value Z.eqb negb]. unfold int_of.
    rewrite int_of_printed_count, strip_printed_count.
    destruct (_ <=? _)%Z; reflexivity.
Qed.

Lemma printed_count_witness :
  commits_ahead "origin/main" "origin/claude/a" (Some "/repo") "git" count_printed
  = (Return 3%Z,
     ran (rev_list_cmd "git" "origin/main" "origin/claude/a") (Some "/repo") count_printed).
Proof.
  apply (printed_count_is_read_back "origin/main" "origin/claude/a" (Some "/repo") "git"
           count_printed 3 "").
  reflexivity.
Defined.

(** * The initial scan *)

Lemma check_git_health_returns repo_path remote main_branch git w :
  exists ok err w',
    check_git_health repo_path remote main_branch git w = (Return (ok, err), w') /\
    (ok = true <-> err = "").
Proof.
  rewrite check_git_health_eq. cbv zeta.
  repeat match goal with
         | |- context [if ?b then _ else _] => destruct b
         end;
    eexists _, _, _; (split; [reflexivity |]); split; (discriminate || reflexivity).
Qed.

Lemma check_and_update_health_eq st :
  exists ok err w',
    check_git_health (repo_path (self st)) (remote (self st)) (main (self st))
      (git (self st)) (env st) = (Return (ok, err), w') /\
    (ok = true <-> err = "") /\
    check_and_update_health st
    = (Return ok, Sys (set_health ok err (self st))
                      (world_notified (Health_changed ok err) w')).
Proof.
  destruct (check_git_health_returns (repo_path (self st)) (remote (self st))
              (main (self st)) (git (self st)) (env st)) as (ok & err & w' & Hc & Hiff).
  exists ok, err, w'. split; [exact Hc |]. split; [exact Hiff |].
  unfold check_and_update_health.
  erewrite bind_Return by reflexivity. cbv beta zeta.
  erewrite bind_Return by (unfold in_env; rewrite Hc; reflexivity).
  destruct ok; [| reflexivity].
  rewrite (proj1 Hiff eq_refl). reflexivity.
Qed.

Lemma preserves_in_tab {A} (P : sys -> Prop) (c : M sys A) :
  preserves P c -> preserves (fun st => P (scanned st)) (in_tab c).
Proof.
  intros Hc st H. unfold in_tab. specialize (Hc (scanned st) H).
  destruct (c (scanned st)); exact Hc.
Qed.

Lemma preserves_in_tab_timers {A} (T : list (Z * timer) -> Prop) (c : M sys A) :
  preserves (fun st => T (timers st)) (in_tab c).
Proof. intros st H. unfold in_tab. destruct (c (scanned st)); exact H. Qed.

Lemma preserves_after_ms (P : sys -> Prop) delay callback :
  preserves (fun st => P (scanned st)) (after_ms delay callback).
Proof. intros st H. exact H. Qed.

(** What the commands of the scan leave alone in the world. *)
Section RunFrame.
Context (allowed : list string) (R : world -> Prop) (HR : run_stable allowed R).

Lemma run_git_allowed cmd cwd : verb cmd ∈ allowed -> preserves R (run_git cmd cwd).
Proof.
  intros Hv w Hw. rewrite run_git_eq. cbn [snd].
  destruct cmd; [exact Hw | apply HR; [exact Hw | exact Hv]].
Qed.

Lemma int_of_allowed out : preserves R (int_of out).
Proof. unfold int_of. destruct (Py.int out); intros w Hw; exact Hw. Qed.
Hint Resolve int_of_allowed : pres.

Context (Hrev_parse : "rev-parse" ∈ allowed) (Hremote : "remote" ∈ allowed)
        (Hfetch : "fetch" ∈ allowed) (Hrev_list : "rev-list" ∈ allowed)
        (Hlisting : "for-each-ref" ∈ allowed) (Hdiff : "diff" ∈ allowed).

Ltac runs := pres; try (apply run_git_allowed; assumption).

Lemma commits_ahead_allowed base tip cwd git : preserves R (commits_ahead base tip cwd git).
Proof. unfold commits_ahead. runs. Qed.

Lemma commits_behind_allowed base tip cwd git : preserves R (commits_behind base tip cwd git).
Proof. unfold commits_behind. runs. Qed.

Lemma get_tracked_branches_allowed remote prefix cwd git :
  preserves R (get_tracked_branches remote prefix cwd git).
Proof. unfold get_tracked_branches. runs. Qed.

Lemma get_changed_files_allowed base tip cwd git :
  preserves R (get_changed_files base tip cwd git).
Proof. unfold get_changed_files. runs. Qed.
Hint Resolve commits_ahead_allowed commits_behind_allowed get_tracked_branches_allowed
  get_changed_files_allowed : pres.

Lemma changed_files_of_allowed branches main_ref remote cwd git :
  preserves R (changed_files_of branches main_ref remote cwd git).
Proof. induction branches; simpl; runs. Qed.
Hint Resolve changed_files_of_allowed : pres.

Lemma are_files_disjoint_allowed branches main_ref remote cwd git :
  preserves R (are_files_disjoint branches main_ref remote cwd git).
Proof. unfold are_files_disjoint. runs. Qed.

Lemma local_main_ahead_allowed remote main cwd git :
  preserves R (local_main_ahead remote main cwd git).
Proof. unfold local_main_ahead. runs. Qed.

Lemma check_git_health_allowed repo_path remote main_branch git :
  preserves R (check_git_health repo_path remote main_branch git).
Proof. unfold check_git_health. runs. Qed.
Hint Resolve are_files_disjoint_allowed local_main_ahead_allowed
  check_git_health_allowed : pres.

Let P : sys -> Prop := fun st => R (env st).

Lemma run_git_here_allowed cmd : verb cmd ∈ allowed -> preserves P (run_git_here cmd).
Proof. intros Hv. unfold run_git_here. pres. apply run_git_allowed, Hv. Qed.

Lemma after_allowed j : preserves P (after j).
Proof. unfold after. pres. Qed.
Hint Resolve after_allowed : pres.

Lemma scan_branch_allowed b t : preserves P (scan_branch b t).
Proof. unfold scan_branch. runs. Qed.
Hint Resolve scan_branch_allowed : pres.

Lemma scan_branches_allowed branches t : preserves P (scan_branches branches t).
Proof. revert t. induction branches; intros t; simpl; runs. Qed.
Hint Resolve scan_branches_allowed : pres.

Lemma scan_classify_allowed : preserves P scan_classify.
Proof. unfold scan_classify. pres. apply run_git_here_allowed. exact Hfetch. Qed.

Lemma collect_behind_allowed branches : preserves P (collect_behind branches).
Proof. induction branches; simpl; runs. Qed.
Hint Resolve collect_behind_allowed : pres.

Lemma scan_nothing_ahead_allowed branches : preserves P (scan_nothing_ahead branches).
Proof. unfold scan_nothing_ahead. runs. Qed.

Lemma scan_one_ahead_allowed t : preserves P (scan_one_ahead t).
Proof. unfold scan_one_ahead. runs. Qed.
Hint Resolve scan_classify_allowed
  scan_nothing_ahead_allowed scan_one_ahead_allowed : pres.

Let P' : scan_state -> Prop := fun st => R (env (scanned st)).

Ltac scans :=
  repeat first
    [ apply (preserves_in_tab P)
    | apply (preserves_after_ms P)
    | pres_step ].

Lemma scan_stop_allowed t : preserves P' (scan_stop t).
Proof. unfold scan_stop. scans. Qed.
Hint Resolve scan_stop_allowed : pres.

Lemma scan_decide_allowed branches t : preserves P' (scan_decide branches t).
Proof. unfold scan_decide. scans. Qed.

Lemma scan_failed_allowed e : preserves P' (scan_failed e).
Proof. unfold scan_failed. scans. Qed.
Hint Resolve scan_decide_allowed scan_failed_allowed : pres.

Lemma scan_try_allowed : preserves P' scan_try.
Proof. unfold scan_try. scans. Qed.
Hint Resolve scan_try_allowed : pres.

Lemma scan_guarded_allowed : preserves P' (try_except scan_try scan_failed).
Proof. scans. Qed.

Context (Hhealth : forall w healthy message,
           R w -> R (world_notified (Health_changed healthy message) w)).

Lemma check_and_update_health_allowed : preserves P check_and_update_health.
Proof.
  unfold check_and_update_health, disable_tab, enable_tab. runs.
  all: intros w Hw; apply Hhealth, Hw.
Qed.
Hint Resolve check_and_update_health_allowed : pres.

Lemma initial_scan_allowed : preserves P' initial_scan.
Proof. unfold initial_scan. scans. Qed.

End RunFrame.

Lemma ran_only_run_stable allowed pre : run_stable allowed (ran_only allowed pre).
Proof.
  intros w inv (later & Hh & Hall) Hv. exists (later ++ [inv]). split.
  - cbn. rewrite Hh, app_assoc. reflexivity.
  - apply Forall_app. split; [exact Hall | repeat constructor; exact Hv].
Qed.

Lemma ran_only_refl allowed w : ran_only allowed (history w) w.
Proof. exists []. split; [rewrite app_nil_r; reflexivity | constructor]. Qed.

Ltac verb_allowed :=
  unfold scan_verbs;
  repeat first [ apply list_elem_of_here | apply list_elem_of_further ].

(** X7. The initial scan only inspects and fetches.  Whatever git answers,
    every subprocess the scan starts runs one of [rev-parse], [remote],
    [fetch], [rev-list], [for-each-ref] and [diff]: it never pushes, pulls
    or merges, also where a cycle of the engine would. *)
Theorem initial_scan_only_inspects (st : scan_state) :
  exists later,
    history (env (scanned (initial_scan st).2)) = history (env (scanned st)) ++ later /\
    Forall (fun inv => verb (inv_cmd inv) ∈ scan_verbs) later /\
    Forall (fun inv => verb (inv_cmd inv) ∉ ["push"; "pull"; "merge"]) later.
Proof.
  destruct (initial_scan_allowed scan_verbs
              (ran_only scan_verbs (history (env (scanned st))))
              (ran_only_run_stable _ _)
              ltac:(verb_allowed) ltac:(verb_allowed) ltac:(verb_allowed)
              ltac:(verb_allowed) ltac:(verb_allowed) ltac:(verb_allowed)
              ltac:(intros w healthy message Hw; exact Hw)
              st (ran_only_refl _ _)) as (later & Hh & Hall).
  exists later. split; [exact Hh |]. split; [exact Hall |].
  eapply Forall_impl; [exact Hall |].
  intros inv Hv. cbv beta in *. unfold scan_verbs in Hv.
  repeat (apply elem_of_cons in Hv as [-> | Hv]); [.. | inversion Hv];
    intros Hin; repeat (apply elem_of_cons in Hin as [Hin | Hin]; [discriminate |]);
    inversion Hin.
Qed.

(** What the scan leaves alone on the tab. *)
Section ScanFrame.
Context (Q : session -> Prop) (HQ : scan_stable Q).
Let P : sys -> Prop := fun st => Q (self st).

Ltac kept := pres; try (apply HQ; assumption).

Lemma run_git_here_kept cmd : preserves P (run_git_here cmd).
Proof. unfold run_git_here. kept. Qed.

Lemma after_kept j : preserves P (after j).
Proof. unfold after. kept. Qed.
Hint Resolve run_git_here_kept after_kept : pres.

Lemma check_and_update_health_kept : preserves P check_and_update_health.
Proof. unfold check_and_update_health, disable_tab, enable_tab. kept. Qed.

Lemma scan_branch_kept b t : preserves P (scan_branch b t).
Proof. unfold scan_branch. kept. Qed.
Hint Resolve scan_branch_kept : pres.

Lemma scan_branches_kept branches t : preserves P (scan_branches branches t).
Proof. revert t. induction branches; intros t; simpl; kept. Qed.
Hint Resolve scan_branches_kept : pres.

Lemma scan_classify_kept : preserves P scan_classify.
Proof. unfold scan_classify. kept. Qed.

Lemma collect_behind_kept branches : preserves P (collect_behind branches).
Proof. induction branches; simpl; kept. Qed.
Hint Resolve collect_behind_kept : pres.

Lemma scan_nothing_ahead_kept branches : preserves P (scan_nothing_ahead branches).
Proof. unfold scan_nothing_ahead. kept. Qed.

Lemma scan_one_ahead_kept t : preserves P (scan_one_ahead t).
Proof. unfold scan_one_ahead. kept. Qed.
Hint Resolve check_and_update_health_kept scan_classify_kept
  scan_nothing_ahead_kept scan_one_ahead_kept : pres.

Let P' : scan_state -> Prop := fun st => Q (self (scanned st)).

Ltac scans :=
  repeat first
    [ apply (preserves_in_tab P)
    | apply (preserves_after_ms P)
    | pres_step ];
  try (apply HQ; assumption).

Lemma scan_failed_kept e : preserves P' (scan_failed e).
Proof. unfold scan_failed. scans. Qed.
Hint Resolve scan_failed_kept : pres.

Context (HQp : forall v s, Q s -> Q (set_pending_branches v s)).

Lemma scan_stop_kept t : preserves P' (scan_stop t).
Proof. unfold scan_stop. scans. apply HQp. assumption. Qed.
Hint Resolve scan_stop_kept : pres.

Lemma scan_decide_kept branches t : preserves P' (scan_decide branches t).
Proof. unfold scan_decide. scans. Qed.
Hint Resolve scan_decide_kept : pres.

Lemma scan_try_kept : preserves P' scan_try.
Proof. unfold scan_try. scans. Qed.
Hint Resolve scan_try_kept : pres.

Lemma scan_guarded_kept : preserves P' (try_except scan_try scan_failed).
Proof. scans. Qed.

Lemma initial_scan_kept : preserves P' initial_scan.
Proof. unfold initial_scan. scans. Qed.

End ScanFrame.

Lemma initial_scan_after_health st :
  initial_scan st =
    match check_and_update_health (scanned st) with
    | (Return true, st1) => try_except scan_try scan_failed (ScanState st1 (timers st))
    | (_, st1) => (Return tt, ScanState st1 (timers st))
    end.
Proof.
  destruct (check_and_update_health_eq (scanned st)) as (ok & err & w' & _ & _ & Hc).
  unfold initial_scan, bind, in_tab. rewrite Hc.
  destruct ok; reflexivity.
Qed.

(** X8. What the initial scan leaves alone once the health is checked.
    From the state in which [check_and_update_health] leaves the tab, the
    scan never takes the lock and never starts or stops polling: the flags
    [lock], [polling], [stop_event] and [syncing] stay as the health check
    left them, the merge button is not shown or hidden by the scan itself,
    and the tab's configuration is untouched.  The scan never writes the
    settings file and hands nothing to the notification sink. *)
Theorem initial_scan_leaves_the_switches_alone (st : scan_state) :
  let checked := (check_and_update_health (scanned st)).2 in
  let final := scanned (initial_scan st).2 in
  lock (self final) = lock (self checked) /\
  polling (self final) = polling (self checked) /\
  stop_event (self final) = stop_event (self checked) /\
  syncing (self final) = syncing (self checked) /\
  merge_button (self final) = merge_button (self checked) /\
  same_config (self checked) (self final) /\
  settings_file (env final) = settings_file (env checked) /\
  notifications (env final) = notifications (env checked).
Proof.
  cbv zeta. rewrite initial_scan_after_health.
  destruct (check_and_update_health (scanned st)) as [r checked].
  cbn [snd].
  assert (Hstop : forall (x : scan_state),
            scanned x = checked ->
            lock (self (scanned x)) = lock (self checked) /\
            polling (self (scanned x)) = polling (self checked) /\
            stop_event (self (scanned x)) = stop_event (self checked) /\
            syncing (self (scanned x)) = syncing (self checked) /\
            merge_button (self (scanned x)) = merge_button (self checked) /\
            same_config (self checked) (self (scanned x)) /\
            settings_file (env (scanned x)) = settings_file (env checked) /\
            notifications (env (scanned x)) = notifications (env checked)).
  { intros x ->. repeat split. }
  destruct r as [[|] | e]; [| apply Hstop; reflexivity | apply Hstop; reflexivity].
  pose proof (scan_guarded_kept
                (fun s => lock s = lock (self checked) /\
                          polling s = polling (self checked) /\
                          stop_event s = stop_event (self checked) /\
                          syncing s = syncing (self checked) /\
                          merge_button s = merge_button (self checked) /\
                          same_config (self checked) s)) as Hs.
  pose proof (scan_guarded_allowed scan_verbs
                (fun w => settings_file w = settings_file (env checked) /\
                          notifications w = notifications (env checked))) as Hw.
  cbv beta in Hs, Hw.
  destruct (Hs ltac:(intros s Hq; repeat split; intros; apply Hq)
               ltac:(intros v s Hq; repeat split; apply Hq)
               (ScanState checked (timers st)) ltac:(repeat split))
    as (H1 & H2 & H3 & H4 & H5 & H6).
  destruct (Hw ltac:(intros w inv Hq _; exact Hq)
               ltac:(verb_allowed) ltac:(verb_allowed) ltac:(verb_allowed)
               ltac:(verb_allowed)
               (ScanState checked (timers st)) ltac:(split; reflexivity)) as (H7 & H8).
  exact (conj H1 (conj H2 (conj H3 (conj H4 (conj H5 (conj H6 (conj H7 H8))))))).
Qed.

Lemma scan_failed_eq e st :
  scan_failed e st
  = (Return tt,
     ScanState (Sys (scan_errored e (self (scanned st))) (env (scanned st))) (timers st)).
Proof. reflexivity. Qed.

Lemma in_tab_eq {A} (c : M sys A) st :
  in_tab c st = ((c (scanned st)).1, ScanState (c (scanned st)).2 (timers st)).
Proof. unfold in_tab. destruct (c (scanned st)); reflexivity. Qed.

Lemma in_tab_Return {A} (c : M sys A) st a st' :
  c (scanned st) = (Return a, st') -> in_tab c st = (Return a, ScanState st' (timers st)).
Proof. intros H. unfold in_tab. rewrite H. reflexivity. Qed.

Lemma initial_scan_eq st :
  initial_scan st =
    match check_and_update_health (scanned st) with
    | (Return true, st1) => try_except scan_try scan_failed (ScanState st1 (timers st))
    | (_, st1) => (Return tt, ScanState st1 (timers st))
    end.
Proof. apply initial_scan_after_health. Qed.

(** X9. The initial scan never raises.  Everything after the health check
    runs inside a handler: when the fetch, a count, the listing or the
    reading of a count raises, the scan still returns, the label reads
    "ERROR", the information line shows the text of the exception and the
    refresh of the tab color is queued.  A failing ahead count, which
    escapes a cycle of the engine, is shown on the tab here. *)
Theorem initial_scan_never_raises (st : scan_state) :
  (initial_scan st).1 = Return tt /\
  forall e,
    (check_and_update_health (scanned st)).1 = Return true ->
    let st1 := ScanState (check_and_update_health (scanned st)).2 (timers st) in
    (scan_try st1).1 = Raise e ->
    let st2 := (scan_try st1).2 in
    (initial_scan st).2
    = ScanState (Sys (scan_errored e (self (scanned st2))) (env (scanned st2)))
                (timers st2).
Proof.
  rewrite initial_scan_eq.
  destruct (check_and_update_health_eq (scanned st)) as (ok & err & w' & _ & _ & ->).
  cbn [fst snd]. split.
  - destruct ok; [| reflexivity].
    unfold try_except. destruct (scan_try _) as [[[] | e] st2]; reflexivity.
  - intros e Hok. injection Hok as ->. cbv zeta.
    unfold try_except. destruct (scan_try _) as [[[] | e'] st2]; cbn [fst snd].
    + discriminate.
    + intros He. injection He as ->. rewrite scan_failed_eq. reflexivity.
Qed.

Lemma initial_scan_never_raises_witness :
  let final := (initial_scan (ScanState (Sys tab_new scan_count_fails) [])).2 in
  state_label (self (scanned final)) = ERROR /\
  info_label (self (scanned final)) = "fatal: bad revision".
Proof.
  destruct (initial_scan_never_raises (ScanState (Sys tab_new scan_count_fails) []))
    as [_ H].
  specialize (H (RuntimeError "fatal: bad revision")).
  cbv zeta in H |- *. rewrite H.
  - split; reflexivity.
  - vm_compute. reflexivity.
  - vm_compute. reflexivity.
Defined.

(** X10. An unhealthy repository is not scanned.  When the health check
    fails, the initial scan returns at once and leaves the tab, its world
    and the timers as [check_and_update_health] left them: the verdict and
    its message, which is not empty, are in [git_healthy] and [git_error],
    and the scan itself sets no label, no pending branch and no timer.  The
    subprocesses started are those of [check_git_health] and no other: the
    scan neither fetches nor counts. *)
Theorem unhealthy_repository_is_not_scanned (st : scan_state) :
  let s := self (scanned st) in
  let checked := (check_and_update_health (scanned st)).2 in
  (check_and_update_health (scanned st)).1 = Return false ->
  initial_scan st = (Return tt, ScanState checked (timers st)) /\
  git_healthy (self checked) = false /\
  git_error (self checked) ≠ "" /\
  history (env checked) =
    history (check_git_health (repo_path s) (remote s) (main s) (git s)
               (env (scanned st))).2.
Proof.
  cbv zeta. intros Hbad.
  rewrite initial_scan_after_health.
  destruct (check_and_update_health_eq (scanned st)) as (ok & err & w' & Hc & Hiff & Heq).
  rewrite Heq in Hbad |- *. cbn [fst snd] in Hbad |- *. injection Hbad as ->.
  split; [reflexivity |]. split; [reflexivity |]. split.
  - cbn. intros ->. destruct Hiff as [_ H]. discriminate (H eq_refl).
  - rewrite Hc. reflexivity.
Qed.

Lemma unhealthy_repository_witness :
  let st := ScanState (Sys tab_new not_a_repository) [] in
  git_healthy (self (scanned (initial_scan st).2)) = false /\
  timers (initial_scan st).2 = [] /\
  map inv_cmd (history (env (scanned (initial_scan st).2)))
  = [["git"; "rev-parse"; "--git-dir"]].
Proof.
  destruct (unhealthy_repository_is_not_scanned
              (ScanState (Sys tab_new not_a_repository) []))
    as (Hrun & Hflag & _ & _).
  - vm_compute. reflexivity.
  - cbv zeta. rewrite Hrun. cbn [snd scanned timers].
    split; [exact Hflag |]. split; [reflexivity |].
    vm_compute. reflexivity.
Defined.

Lemma scan_stop_eq t st :
  let s := self (scanned st) in
  exists all_files w',
    changed_files_of (scan_names t) (remote s +:+ "/" +:+ main s) (remote s)
      (Some (repo_path s)) (git s) (env (scanned st)) = (Return all_files, w') /\
    scan_stop t st
    = (Return tt,
       ScanState (Sys (scan_stopped t (no_overlap all_files) s) w')
                 (timers st ++
                    if no_overlap all_files then [(100%Z, Show_merge_button)] else [])).
Proof.
  intros s.
  destruct (are_files_disjoint_returns (scan_names t) (remote s +:+ "/" +:+ main s)
              (remote s) (Some (repo_path s)) (git s) (env (scanned st)))
    as (all_files & w' & Hc & Hd).
  exists all_files, w'. split; [exact Hc |].
  unfold scan_stop.
  erewrite bind_Return by (apply in_tab_Return; reflexivity). cbv beta zeta.
  erewrite bind_Return by (apply in_tab_Return; reflexivity).
  erewrite bind_Return.
  2:{ apply in_tab_Return. unfold in_env. cbn [scanned env self]. fold s.
      rewrite Hd. reflexivity. }
  fold (scan_message t).
  destruct (no_overlap all_files); cbn; rewrite ?app_nil_r; reflexivity.
Qed.

Lemma scan_outcome_start st :
  pending_branches (self (scanned st)) = [] -> timers st = [] -> scan_outcome st.
Proof. intros Hp Ht. left. split; assumption. Qed.

Lemma nothing_pending_scan_stable :
  scan_stable (fun s => pending_branches s = []).
Proof. intros s Hs. repeat split; intros; exact Hs. Qed.

Lemma scan_decide_outcome branches t st :
  pending_branches (self (scanned st)) = [] -> timers st = [] ->
  match scan_decide branches t st with
  | (Return _, st') => scan_outcome st'
  | (Raise _, st') => pending_branches (self (scanned st')) = [] /\ timers st' = []
  end.
Proof.
  intros Hp Ht. unfold scan_decide.
  destruct (Nat.eqb_spec (length (ahead_list t) + length (diverged_list t)) 0) as [H0 | H0].
  - pose proof (preserves_in_tab _ _
                  (scan_nothing_ahead_kept _ nothing_pending_scan_stable branches) st Hp)
      as Hp'.
    pose proof (preserves_in_tab_timers (fun l => l = []) (scan_nothing_ahead branches)
                  st Ht) as Ht'.
    cbv beta in Hp', Ht'.
    destruct (in_tab (scan_nothing_ahead branches) st) as [[[] | e] st']; cbn [snd] in *.
    + left. split; assumption.
    + split; assumption.
  - destruct ((length (diverged_list t) =? 0)%nat && (length (ahead_list t) =? 1)%nat)
      eqn:Hone.
    + pose proof (preserves_in_tab _ _
                    (scan_one_ahead_kept _ nothing_pending_scan_stable t) st Hp) as Hp'.
      pose proof (preserves_in_tab_timers (fun l => l = []) (scan_one_ahead t) st Ht)
        as Ht'.
      cbv beta in Hp', Ht'.
      destruct (in_tab (scan_one_ahead t) st) as [[[] | e] st']; cbn [snd] in *.
      * left. split; assumption.
      * split; assumption.
    + destruct (scan_stop_eq t st) as (all_files & w' & _ & ->). cbv zeta.
      right. cbn [scanned self timers]. rewrite Ht. split.
      * unfold scan_stopped, scan_names.
        assert (Hne : map (fun b => b.1.1) (diverged_list t) ++ ahead_list t ≠ []).
        { intros Hnil. apply app_eq_nil in Hnil as [Hd Ha].
          apply map_eq_nil in Hd. rewrite Hd, Ha in H0. apply H0. reflexivity. }
        destruct (no_overlap all_files); exact Hne.
      * unfold scan_stopped. destruct (no_overlap all_files);
          [left | right]; split; reflexivity.
Qed.

(** X11. What the initial scan can leave pending.  A scan that starts with
    no pending branch and no timer set ends in one of three ways: nothing
    is pending and no timer is set; or branches are pending, the label
    reads "STOP — Merge possible" and the one timer set shows the merge
    button after 100 ms; or branches are pending, the label reads
    "STOP — Human action required" and no timer is set.  So the invariant
    of the engine, pending branches only under a stop label, holds after
    the scan as well, also when the scan ends on an exception. *)
Theorem initial_scan_pending_only_under_a_stop_label (st : scan_state) :
  pending_branches (self (scanned st)) = [] ->
  timers st = [] ->
  scan_outcome (initial_scan st).2 /\
  pending_invariant (self (scanned (initial_scan st).2)).
Proof.
  intros Hp Ht.
  assert (Hout : scan_outcome (initial_scan st).2).
  { rewrite initial_scan_eq.
    pose proof (check_and_update_health_kept _ nothing_pending_scan_stable (scanned st) Hp)
      as Hp1. cbv beta in Hp1.
    destruct (check_and_update_health (scanned st)) as [[[|] | e] st1]; cbn [snd] in Hp1;
      try (left; split; assumption).
    unfold try_except, scan_try, bind.
    rewrite in_tab_eq.
    pose proof (scan_classify_kept _ nothing_pending_scan_stable st1 Hp1) as Hp2.
    cbv beta in Hp2. cbn [scanned timers].
    destruct (scan_classify st1) as [[[[branches t] |] | e] st2]; cbn [fst snd] in *.
    - pose proof (scan_decide_outcome branches t (ScanState st2 (timers st)) Hp2 Ht) as Hd.
      destruct (scan_decide branches t _) as [[[] | e] st3].
      + exact Hd.
      + rewrite scan_failed_eq. left. exact Hd.
    - left. split; assumption.
    - rewrite scan_failed_eq. left. split; assumption. }
  split; [exact Hout |].
  intros Hne. destruct Hout as [[Hnil _] | [_ [[Hl _] | [Hl _]]]].
  - contradiction.
  - left. exact Hl.
  - right. exact Hl.
Qed.

Lemma initial_scan_pending_witness :
  let final := (initial_scan (ScanState (Sys tab_new scan_two_ahead) [])).2 in
  scan_outcome final /\
  pending_invariant (self (scanned final)) /\
  pending_branches (self (scanned final)) = ["claude/a"; "claude/b"] /\
  timers final = [(100%Z, Show_merge_button)].
Proof.
  destruct (initial_scan_pending_only_under_a_stop_label
              (ScanState (Sys tab_new scan_two_ahead) [])) as [Hout Hinv].
  - reflexivity.
  - reflexivity.
  - cbv zeta. split; [exact Hout |]. split; [exact Hinv |].
    split; vm_compute; reflexivity.
Defined.

(** * The polling switch *)

(** X12. Stopping through the polling switch does stop the loop.  On a
    healthy tab that is polling, [toggle_polling] clears [polling] and sets
    the stop event, and starts no subprocess; the polling loop then ends
    before its next cycle, without a fetch and without a wait, however
    many rounds it is given. *)
Theorem toggle_polling_stops_the_loop (st : sys) (rounds n : nat) :
  git_healthy (self st) = true ->
  polling (self st) = true ->
  let halted := Sys (set_stop_event true (set_polling false (self st))) (env st) in
  toggle_polling rounds st = (Return tt, halted) /\
  polling_loop (S n) halted = (Return true, halted).
Proof.
  intros Hh Hp. cbv zeta. split.
  - unfold toggle_polling, bind, get. cbv beta iota. rewrite Hh, Hp. reflexivity.
  - reflexivity.
Qed.

Lemma toggle_polling_witness :
  let halted := Sys (set_stop_event true (set_polling false tab0)) one_ahead in
  toggle_polling 5 (Sys tab0 one_ahead) = (Return tt, halted) /\
  polling_loop 3 halted = (Return true, halted).
Proof.
  apply (toggle_polling_stops_the_loop (Sys tab0 one_ahead) 5 2); reflexivity.
Defined.

(** X13. A failed health check closes the tab to the operator.  After
    [check_and_update_health] has answered False, the cached flag
    [git_healthy] is off and [git_error] holds a message that is not
    empty; a manual sync and the polling switch then return at once: no
    lock is taken, no subprocess is started and no flag changes, until a
    later health check succeeds. *)
Theorem failed_health_check_blocks_the_tab (st : sys) (rounds : nat) :
  (check_and_update_health st).1 = Return false ->
  let st' := (check_and_update_health st).2 in
  git_healthy (self st') = false /\
  git_error (self st') ≠ "" /\
  manual_sync st' = (Return tt, st') /\
  toggle_polling rounds st' = (Return tt, st').
Proof.
  intros Hbad. cbv zeta.
  destruct (check_and_update_health_eq st) as (ok & err & w' & _ & Hiff & Heq).
  rewrite Heq in Hbad |- *. cbn [fst] in Hbad. injection Hbad as ->.
  cbn [snd self]. split; [reflexivity |]. split.
  - cbn. intros ->. destruct Hiff as [_ H]. discriminate (H eq_refl).
  - split; reflexivity.
Qed.

Lemma failed_health_check_witness :
  let st' := (check_and_update_health (Sys tab0 not_a_repository)).2 in
  git_healthy (self st') = false /\
  manual_sync st' = (Return tt, st') /\
  toggle_polling 4 st' = (Return tt, st').
Proof.
  destruct (failed_health_check_blocks_the_tab (Sys tab0 not_a_repository) 4)
    as (Hh & _ & Hm & Ht).
  - vm_compute. reflexivity.
  - split; [exact Hh |]. split; [exact Hm | exact Ht].
Defined.

(** * A cycle with nothing ahead *)

(** The counts depend on the answers of git only. *)
Lemma same_answers_ran cmd cwd w w' :
  same_answers w w' ->
  answer cmd cwd w = answer cmd cwd w' /\ same_answers (ran cmd cwd w) (ran cmd cwd w').
Proof.
  intros [Ho Hc]. unfold answer, ran, same_answers.
  destruct cmd; [split; [reflexivity | split; assumption] |].
  cbn. rewrite Ho, Hc. repeat split.
Qed.

Lemma commits_ahead_runs base tip cwd git w :
  commits_ahead base tip cwd git w
  = ((commits_ahead base tip cwd git w).1, ran (rev_list_cmd git base tip) cwd w) /\
  forall w', same_answers w w' ->
    (commits_ahead base tip cwd git w').1 = (commits_ahead base tip cwd git w).1.
Proof.
  unfold commits_ahead. fold (rev_list_cmd git base tip). split.
  - erewrite bind_Return by apply run_git_eq.
    destruct (run_git_value _ _) as [[code out] err].
    destruct (negb (code =? 0)%Z); [reflexivity |].
    unfold int_of. destruct (Py.int out); reflexivity.
  - intros w' Hw. erewrite !bind_Return by apply run_git_eq.
    rewrite <- (proj1 (same_answers_ran (rev_list_cmd git base tip) cwd w w' Hw)).
    destruct (run_git_value _ _) as [[code out] err].
    destruct (negb (code =? 0)%Z); [reflexivity |].
    unfold int_of. destruct (Py.int out); reflexivity.
Qed.

Lemma commits_behind_runs base tip cwd git w :
  commits_behind base tip cwd git w
  = ((commits_behind base tip cwd git w).1, ran (rev_list_cmd git tip base) cwd w) /\
  forall w', same_answers w w' ->
    (commits_behind base tip cwd git w').1 = (commits_behind base tip cwd git w).1.
Proof.
  unfold commits_behind. fold (rev_list_cmd git tip base). split.
  - erewrite bind_Return by apply run_git_eq.
    destruct (run_git_value _ _) as [[code out] err].
    destruct (negb (code =? 0)%Z); [reflexivity |].
    unfold int_of. destruct (Py.int out); reflexivity.
  - intros w' Hw. erewrite !bind_Return by apply run_git_eq.
    rewrite <- (proj1 (same_answers_ran (rev_list_cmd git tip base) cwd w w' Hw)).
    destruct (run_git_value _ _) as [[code out] err].
    destruct (negb (code =? 0)%Z); [reflexivity |].
    unfold int_of. destruct (Py.int out); reflexivity.
Qed.

(** The loop that collects the branches behind, by the counts it reads. *)
Lemma collect_behind_reads branches st :
  match behind_counts (self st) branches (env st) with
  | Return counts =>
      collect_behind branches st =
        (Return (behind_of (remote (self st)) branches counts),
         Sys (self st) (ran_all (map (behind_cmd (self st)) branches) (here st) (env st)))
  | Raise e => (collect_behind branches st).1 = Raise e
  end.
Proof.
  revert st. induction branches as [| b rest IH]; intros st.
  - destruct st; reflexivity.
  - cbn [collect_behind behind_counts]. erewrite bind_Return by reflexivity.
    cbv beta zeta.
    destruct (commits_behind_runs (remote (self st) +:+ "/" +:+ main (self st)) b
                (Some (repo_path (self st))) (git (self st)) (env st)) as [Hb _].
    fold (behind_cmd (self st) b) in Hb. rewrite Hb.
    destruct (commits_behind _ _ _ _ (env st)).1 as [behind | e].
    + erewrite bind_Return by (unfold in_env; rewrite Hb; reflexivity).
      specialize (IH (Sys (self st) (ran (behind_cmd (self st) b)
                                         (Some (repo_path (self st))) (env st)))).
      cbn [self env] in IH.
      destruct (behind_counts (self st) rest _) as [counts | e].
      * erewrite bind_Return by exact IH.
        unfold behind_of. cbn [zip zip_with List.filter snd fst map ran_all fold_left].
        unfold ret. f_equal.
        -- destruct (behind >? 0)%Z; reflexivity.
      * unfold bind at 1.
        destruct (collect_behind rest _) as [[others | e'] st']; cbn [fst] in IH;
          [discriminate IH | injection IH as ->; reflexivity].
    + erewrite bind_Raise by (unfold in_env; rewrite Hb; reflexivity). reflexivity.
Qed.

(** The pushes that level the branches, by their exit codes: they run in
    order until one exits with a code other than 0. *)
Lemma push_behind_runs behind_branches st :
  let pushes := level_pushes (self st) behind_branches in
  push_behind behind_branches st =
    match first_failure pushes (here st) (env st) with
    | None => (Return true, Sys (self st) (ran_all pushes (here st) (env st)))
    | Some k =>
        (Return false,
         Sys (main_push_failed (self st))
             (ran_all (take (S k) pushes) (here st) (env st)))
    end.
Proof.
  cbv zeta. revert st. induction behind_branches as [| [name n] rest IH]; intros st.
  - destruct st; reflexivity.
  - cbn [push_behind]. erewrite bind_Return by reflexivity. cbv beta zeta.
    erewrite bind_Return by apply run_git_here_eq.
    cbn [level_pushes map first_failure fst]. unfold exit_code.
    fold (push_cmd (self st) (main (self st) +:+ ":" +:+ name)).
    destruct (run_git_value _ _) as [[code out] err]. cbn [fst].
    destruct (Z.eqb_spec code 0) as [-> | Hne]; cbv beta iota delta [negb].
    + rewrite IH. cbn [self env]. unfold here. cbn [self].
      fold (level_pushes (self st) rest).
      destruct (first_failure _ _ _); reflexivity.
    + do 2 (erewrite bind_Return by reflexivity). reflexivity.
Qed.

Lemma _do_sync_nothing_ahead st branches t st1 :
  sync_classify st = (Return (Some (branches, t)), st1) ->
  ahead_branches t = [] -> diverged_branches t = [] ->
  _do_sync st = sync_nothing_ahead branches st1.
Proof.
  intros H Ha Hd. unfold _do_sync. erewrite bind_Return by exact H.
  unfold conclude, sync_decide. rewrite Ha, Hd. reflexivity.
Qed.

(** X14. A cycle with nothing ahead.  When a cycle reaches the decision
    with no enabled branch ahead or diverged, it counts for each enabled
    branch, in the order of the listing, what the branch is behind; if a
    count raises, the exception leaves the cycle.  With no count above 0 it
    ends on "Idle", forgets the commit counts and starts nothing else.
    Otherwise it pushes main to each branch whose count is above 0, in
    order, until a push exits with a code other than 0: when none does,
    every push has run and the label reads "Sync OK" with the number of
    branches levelled; at the first that does, no further push is run, the
    label reads "ERROR" and polling is switched off. *)
Theorem nothing_ahead_levels_the_branches_behind
  (st : sys) (branches : list string) (t : tally) :
  (sync_classify st).1 = Return (Some (branches, t)) ->
  ahead_branches t = [] ->
  diverged_branches t = [] ->
  let st1 := (sync_classify st).2 in
  let s := self st1 in
  let w2 := ran_all (map (behind_cmd s) branches) (here st1) (env st1) in
  match behind_counts s branches (env st1) with
  | Raise e => (_do_sync st).1 = Raise e
  | Return counts =>
      let behind_branches := behind_of (remote s) branches counts in
      let pushes := level_pushes s behind_branches in
      match behind_branches with
      | [] => _do_sync st = (Return tt, Sys (idle s) w2)
      | _ :: _ =>
          match first_failure pushes (here st1) w2 with
          | None =>
              _do_sync st =
                (Return tt,
                 Sys (levelled (length behind_branches) s)
                     (ran_all pushes (here st1) w2))
          | Some k =>
              _do_sync st =
                (Return tt,
                 Sys (main_push_failed s) (ran_all (take (S k) pushes) (here st1) w2))
          end
      end
  end.
Proof.
  intros Hcl1 Ha Hd st1 s w2.
  assert (Hcl : sync_classify st = (Return (Some (branches, t)), st1)).
  { unfold st1. rewrite <- Hcl1. destruct (sync_classify st); reflexivity. }
  assert (Hrun : _do_sync st = sync_nothing_ahead branches st1)
    by exact (_do_sync_nothing_ahead _ _ _ _ Hcl Ha Hd).
  clearbody st1.
  pose proof (collect_behind_reads branches st1) as Hcb. fold s in Hcb. fold w2 in Hcb.
  rewrite Hrun. clear Hrun. unfold sync_nothing_ahead.
  destruct (behind_counts s branches (env st1)) as [counts | e].
  - cbv zeta. erewrite bind_Return by exact Hcb.
    destruct (behind_of (remote s) branches counts) as [| b rest] eqn:Hbehind;
      [reflexivity |].
    pose proof (push_behind_runs (b :: rest) (Sys s w2)) as Hp.
    cbv zeta in Hp. cbn [self env] in Hp.
    change (here (Sys s w2)) with (here st1) in Hp.
    destruct (first_failure _ (here st1) w2);
      erewrite bind_Return by exact Hp; reflexivity.
  - unfold bind. destruct (collect_behind branches st1) as [[l | e'] st2];
      cbn [fst] in Hcb |- *; [discriminate Hcb | injection Hcb as ->; reflexivity].
Qed.

Lemma nothing_ahead_witness :
  let final := (_do_sync (Sys tab0 one_behind)).2 in
  state_label (self final) = Sync_OK /\
  info_label (self final) = "1 branches synchronized" /\
  polling (self final) = true /\
  last (map inv_cmd (history (env final))) = Some ["git"; "push"; "origin"; "main:claude/a"].
Proof.
  pose proof (nothing_ahead_levels_the_branches_behind (Sys tab0 one_behind)
                ["origin/claude/a"; "origin/claude/b"] (Tally [] [] false)) as Hrun.
  cbv zeta in Hrun.
  destruct (behind_counts _ _ _) as [counts | e] eqn:Hcounts in Hrun.
  - assert (Hc : counts = [2%Z; 0%Z])
      by (vm_compute in Hcounts; injection Hcounts as <-; reflexivity).
    subst counts.
    assert (Hb : behind_of "origin" ["origin/claude/a"; "origin/claude/b"] [2%Z; 0%Z]
                 = [("claude/a", 2%Z)]) by (vm_compute; reflexivity).
    change (remote (self (sync_classify (Sys tab0 one_behind)).2)) with "origin" in Hrun.
    rewrite Hb in Hrun.
    destruct (first_failure _ _ _) as [k |] eqn:Hfirst in Hrun.
    + exfalso. vm_compute in Hfirst. discriminate Hfirst.
    + cbv zeta. rewrite Hrun.
      * cbn [snd self env]. split; [reflexivity |]. split; [reflexivity |].
        split; [vm_compute; reflexivity |]. vm_compute. reflexivity.
      * vm_compute. reflexivity.
      * reflexivity.
      * reflexivity.
  - exfalso. vm_compute in Hcounts. discriminate Hcounts.
Defined.

(** * Branches whose synchronisation is off *)

Lemma clean_persistence_history settings0 all_branches st :
  exists w',
    clean_persistence settings0 all_branches st = (Return tt, Sys (self st) w') /\
    history w' = history (env st).
Proof.
  unfold clean_persistence.
  erewrite bind_Return by reflexivity. cbv beta zeta.
  destruct (default ∅ (branch_update_enabled settings0) !! repo_path (self st))
    as [saved |].
  - destruct (prune_saved _ _ saved false) as [saved' cleaned].
    destruct cleaned; cbn [when].
    + eexists. split; reflexivity.
    + exists (env st). split; [destruct st; reflexivity | reflexivity].
  - exists (env st). split; [destruct st; reflexivity | reflexivity].
Qed.

Lemma sync_tally_nil st :
  bind (sync_tally []) conclude st = (Return tt, Sys (idle (self st)) (env st)).
Proof. destruct st as [s w]. reflexivity. Qed.

(** X15. Branches whose synchronisation is off are ignored.  Take a cycle
    whose fetch succeeds, that finds local main not ahead and lists the
    tracked branches.  When every listed branch is disabled (its saved
    state is off, or it has none and new branches are not synchronised by
    default, which is the case with an empty settings file), the cycle
    counts no branch, pulls and pushes nothing and ends on "Idle" with
    polling as it was, whatever these branches hold. *)
Theorem disabled_branches_are_ignored (st : sys) (n : Z) (all_branches : list string) :
  exit_code (fetch_cmd (self st)) (here st) (env st) = 0%Z ->
  local_ahead_after_fetch st = Return n ->
  (n <= 0)%Z ->
  (get_tracked_branches (remote (self st)) (prefix (self st)) (here st) (git (self st))
     (listing_world st)).1 = Return all_branches ->
  enabled_of (self st) (settings_file (env st)) all_branches = [] ->
  let s := self st in
  let final := (_do_sync st).2 in
  (_do_sync st).1 = Return tt /\
  self final = idle (self (reset st)) /\
  polling (self final) = polling s /\
  history (env final)
  = history (env st) ++ started s [fetch_cmd s; local_count_cmd s; listing_cmd s].
Proof.
  intros Hf Hn Hpos Hl Hen s final.
  assert (Hrun : _do_sync st = (Return tt,
            Sys (idle (self (reset st)))
                ((clean_persistence (settings_file (env st)) all_branches
                    (Sys (self (reset st))
                         (ran (listing_cmd s) (here st) (listing_world st)))).2).(env))).
  { rewrite (_do_sync_lists st n Hf Hn) by (rewrite Z.gtb_ltb; apply Z.ltb_ge; exact Hpos).
    rewrite get_tracked_branches_eq in Hl |- *. cbn [fst] in Hl. rewrite Hl.
    unfold sync_branches.
    rewrite bind_assoc. erewrite bind_Return by reflexivity. cbv beta zeta.
    rewrite bind_assoc. erewrite bind_Return by reflexivity.
    cbn [self env load_global_settings gets].
    unfold listing_world. rewrite !settings_file_ran.
    change (List.filter _ all_branches)
      with (enabled_of (self st) (settings_file (env st)) all_branches).
    rewrite Hen.
    destruct (clean_persistence_history (settings_file (env st)) all_branches
                (Sys (self (reset st))
                     (ran (listing_cmd s) (here st)
                        (ran (local_count_cmd (self st)) (here st)
                           (ran (fetch_cmd (self st)) (here st) (env st))))))
      as (w' & Hclean & Hh).
    rewrite bind_assoc. erewrite bind_Return by exact Hclean.
    rewrite Hclean, sync_tally_nil. reflexivity. }
  unfold final. rewrite Hrun. cbn [fst snd self env].
  split; [reflexivity |]. split; [reflexivity |]. split; [reflexivity |].
  destruct (clean_persistence_history (settings_file (env st)) all_branches
              (Sys (self (reset st)) (ran (listing_cmd s) (here st) (listing_world st))))
    as (w' & Hclean & Hh).
  rewrite Hclean. cbn [snd env] in Hh |- *. rewrite Hh.
  unfold listing_world, listing_cmd, local_count_cmd, rev_list_cmd, fetch_cmd.
  rewrite !history_ran, <- !app_assoc. reflexivity.
Qed.

Lemma disabled_branches_witness :
  let final := (_do_sync (Sys tab0 no_settings_two_ahead)).2 in
  state_label (self final) = Idle /\
  polling (self final) = true /\
  map inv_cmd (history (env final))
  = [ ["git"; "fetch"; "origin"];
      ["git"; "rev-list"; "--count"; "origin/main..main"];
      ["git"; "for-each-ref"; "--format=%(refname:short)"; "refs/remotes/origin/claude/"] ].
Proof.
  destruct (disabled_branches_are_ignored (Sys tab0 no_settings_two_ahead) 0
              ["origin/claude/a"; "origin/claude/b"])
    as (_ & Hs & Hp & Hh).
  - vm_compute. reflexivity.
  - vm_compute. reflexivity.
  - lia.
  - vm_compute. reflexivity.
  - vm_compute. reflexivity.
  - cbv zeta. rewrite Hs, Hh. split; [reflexivity |]. split; [reflexivity |].
    reflexivity.
Defined.

Lemma fanout_enabled s l st cmd :
  cmd ∈ fanout s l (branch_states_of st (repo_path s)) (default_enabled_of st) ->
  fanout_command s st cmd.
Proof.
  unfold fanout. intros Hin. apply list_elem_of_fmap in Hin as (b & -> & Hb).
  apply list_elem_of_In, filter_In in Hb as [_ Hen].
  right. right. exists b. split; [exact Hen | reflexivity].
Qed.

(** X16. The fan-out never reaches a branch whose synchronisation is off.
    However [push_main_and_branches] ends (every push done, a push
    refused, the listing failing), the only subprocesses it has started
    are the push of main, the listing of the tracked branches and pushes
    [main:<branch>] to branches that the settings read at that time
    enable. *)
Theorem fanout_skips_disabled_branches (st : sys) :
  let s := self st in
  exists later,
    history (env (push_main_and_branches st).2) = history (env st) ++ later /\
    Forall (fun inv => fanout_command s (settings_file (env st)) (inv_cmd inv)) later.
Proof.
  intros s.
  destruct (push_main_and_branches_spec st) as (r & st' & Hrun & Hspec).
  cbv zeta in Hspec. fold s in Hspec. rewrite Hrun. cbn [snd].
  assert (Hall : forall cmds,
            (forall cmd, cmd ∈ cmds -> fanout_command s (settings_file (env st)) cmd) ->
            Forall (fun inv => fanout_command s (settings_file (env st)) (inv_cmd inv))
                   (started s cmds)).
  { intros cmds H. apply Forall_forall. intros inv Hin.
    apply H, (started_elem s). exact Hin. }
  destruct r as [[|] | e].
  - destruct Hspec as (_ & l & _ & Hh). eexists. split; [exact Hh |].
    apply Hall. intros cmd Hin.
    apply elem_of_cons in Hin as [-> | Hin]; [left; reflexivity |].
    apply elem_of_cons in Hin as [-> | Hin]; [right; left; reflexivity |].
    apply (fanout_enabled s l). exact Hin.
  - destruct Hspec as [[_ Hh] | (target & l & k & _ & _ & _ & Hh)].
    + eexists. split; [exact Hh |]. apply Hall. intros cmd Hin.
      apply list_elem_of_singleton in Hin as ->. left. reflexivity.
    + eexists. split; [exact Hh |]. apply Hall. intros cmd Hin.
      apply elem_of_cons in Hin as [-> | Hin]; [left; reflexivity |].
      apply elem_of_cons in Hin as [-> | Hin]; [right; left; reflexivity |].
      apply elem_of_take in Hin as (i & Hi & _).
      apply (fanout_enabled s l), (list_elem_of_lookup_2 _ i). exact Hi.
  - destruct Hspec as [_ Hh]. eexists. split; [exact Hh |]. apply Hall. intros cmd Hin.
    apply elem_of_cons in Hin as [-> | Hin]; [left; reflexivity |].
    apply list_elem_of_singleton in Hin as ->. right. left. reflexivity.
Qed.

Lemma fanout_skips_disabled_witness :
  map inv_cmd (history (env (push_main_and_branches (Sys tab0 b_switched_off)).2))
  = [ ["git"; "push"; "origin"; "main"];
      ["git"; "for-each-ref"; "--format=%(refname:short)"; "refs/remotes/origin/claude/"];
      ["git"; "push"; "origin"; "main:claude/a"] ] /\
  Forall (fun inv => fanout_command tab0 (settings_file b_switched_off) (inv_cmd inv))
         (history (env (push_main_and_branches (Sys tab0 b_switched_off)).2)).
Proof.
  destruct (fanout_skips_disabled_branches (Sys tab0 b_switched_off))
    as (later & Hh & Hall).
  split; [vm_compute; reflexivity |].
  rewrite Hh. exact Hall.
Defined.

(** * The manual merge *)

(** The merges, by their exit codes: they run in the order of the list
    until one exits with a code other than 0; that one is aborted and
    nothing else is started. *)
Lemma merge_each_runs branches st :
  let s := self st in
  let merges := map (merge_cmd s) branches in
  merge_each branches st =
    match first_failure merges (here st) (env st) with
    | None => (Return true, Sys s (ran_all merges (here st) (env st)))
    | Some k =>
        (Return false,
         Sys (merge_failed (nth k branches "") s)
             (ran (abort_cmd s) (here st)
                  (ran_all (take (S k) merges) (here st) (env st))))
    end.
Proof.
  cbv zeta. revert st. induction branches as [| b rest IH]; intros st.
  - destruct st; reflexivity.
  - cbn [merge_each]. erewrite bind_Return by reflexivity. cbv beta zeta.
    erewrite bind_Return by apply run_git_here_eq.
    fold (merge_cmd (self st) b).
    cbn [map first_failure]. unfold exit_code.
    destruct (run_git_value _ _) as [[code out] err]. cbn [fst].
    destruct (Z.eqb_spec code 0) as [-> | Hne]; cbv beta iota delta [negb].
    + rewrite IH. cbn [self env]. unfold here. cbn [self].
      destruct (first_failure _ _ _); reflexivity.
    + do 2 (erewrite bind_Return by reflexivity).
      erewrite bind_Return by apply run_git_here_eq.
      erewrite bind_Return by reflexivity. reflexivity.
Qed.

(** X17. A manual merge merges in order, and a failed merge is aborted and
    never pushed.  With branches pending, [_do_merge_impl] merges them in
    the order of [pending_branches] until a merge exits with a code other
    than 0.  At the first that does, [git merge --abort] is the next and
    last subprocess started: no later branch is merged and nothing is
    pushed; the label reads "ERROR — Merge failed", the information names
    the branch, polling is off and the pending branches are kept.  When no
    merge fails, every branch has been merged and main is pushed: if that
    push exits with a code other than 0 the label reads "ERROR" and polling
    is off; otherwise the tracked branches are listed, a failing listing
    raising out of the merge, and main is pushed onto the enabled branches
    until a push exits with a code other than 0, which ends the merge on
    "STOP — Push failed"; only when every push succeeds does the label read
    "Merge OK", with the pending branches and the commit counts cleared. *)
Theorem failed_merge_is_aborted_and_never_pushed (st : sys) (b : string) (rest : list string) :
  pending_branches (self st) = b :: rest ->
  let s := self (merging st) in
  let pending := b :: rest in
  let merges := map (merge_cmd s) pending in
  match first_failure merges (here st) (env st) with
  | Some k =>
      let branch := nth k pending "" in
      _do_merge_impl st =
        (Return tt,
         Sys (merge_failed branch s)
             (ran (abort_cmd s) (here st)
                  (ran_all (take (S k) merges) (here st) (env st)))) /\
      pending_branches (merge_failed branch s) = pending
  | None =>
      let w0 := ran_all merges (here st) (env st) in
      let w1 := ran (push_cmd s (main s)) (here st) w0 in
      let w2 := ran (listing_cmd s) (here st) w1 in
      let listing := listing_of (run_git_value (listing_cmd s)
                                   (answer (listing_cmd s) (here st) w1)) in
      (exit_code (push_cmd s (main s)) (here st) w0 ≠ 0%Z ->
       _do_merge_impl st = (Return tt, Sys (main_push_failed s) w1)) /\
      (forall e,
         exit_code (push_cmd s (main s)) (here st) w0 = 0%Z ->
         listing = Raise e ->
         _do_merge_impl st = (Raise e, Sys s w2)) /\
      (forall listed,
         exit_code (push_cmd s (main s)) (here st) w0 = 0%Z ->
         listing = Return listed ->
         let enabled := enabled_of s (settings_file (env st)) listed in
         let pushes :=
           fanout s listed (branch_states_of (settings_file (env st)) (repo_path s))
                  (default_enabled_of (settings_file (env st))) in
         match first_failure pushes (here st) w2 with
         | None =>
             _do_merge_impl st =
               (Return tt,
                Sys (merged (length pending) s) (ran_all pushes (here st) w2))
         | Some k =>
             _do_merge_impl st =
               (Return tt,
                Sys (push_failed (short_name (remote s) (nth k enabled "")) s)
                    (ran_all (take (S k) pushes) (here st) w2))
         end)
  end.
Proof.
  intros Hpend s pending merges.
  assert (Heq : _do_merge_impl st =
            bind (merge_each pending)
              (fun done =>
                 if negb done then ret tt
                 else
                   let* pushed := push_main_and_branches in
                   if negb pushed then ret tt
                   else modify (fun st' => Sys (merged (length pending) (self st'))
                                               (env st')))
              (merging st)).
  { unfold _do_merge_impl. erewrite bind_Return by reflexivity. cbv beta.
    rewrite Hpend. reflexivity. }
  pose proof (merge_each_runs pending (merging st)) as Hm.
  cbv zeta in Hm. fold s in Hm. fold merges in Hm.
  change (here (merging st)) with (here st) in Hm.
  change (env (merging st)) with (env st) in Hm.
  destruct (first_failure merges (here st) (env st)) as [k |].
  - cbv zeta. erewrite bind_Return in Heq by exact Hm.
    split; [exact Heq |]. unfold s. cbn. exact Hpend.
  - erewrite bind_Return in Heq by exact Hm.
    cbv beta iota delta [negb] in Heq.
    intros w0 w1 w2 listing.
    assert (Heq' : _do_merge_impl st =
              match push_main_and_branches (Sys s w0) with
              | (Return true, st3) =>
                  (Return tt, Sys (merged (length pending) (self st3)) (env st3))
              | (Return false, st3) => (Return tt, st3)
              | (Raise e, st3) => (Raise e, st3)
              end).
    { rewrite Heq. unfold bind, w0.
      destruct (push_main_and_branches _) as [[[|] | e] st3]; reflexivity. }
    clear Heq.
    pose proof (push_main_and_branches_runs (Sys s w0)) as Hexact.
    cbv zeta in Hexact. cbn [self env] in Hexact.
    change (here (Sys s w0)) with (here st) in Hexact.
    fold w1 in Hexact. fold w2 in Hexact. fold listing in Hexact.
    assert (Hset : settings_file w0 = settings_file (env st))
      by (unfold w0; apply settings_file_ran_all).
    rewrite Hset in Hexact.
    split; [| split].
    + intros Hne. rewrite Heq', Hexact.
      destruct (Z.eqb_spec (exit_code (push_cmd s (main s)) (here st) w0) 0) as [H0 | _];
        [contradiction | reflexivity].
    + intros e H0 He. rewrite Heq', Hexact, H0, He. reflexivity.
    + intros listed H0 Hl enabled pushes.
      assert (Hrun : _do_merge_impl st =
                match first_failure pushes (here st) w2 with
                | None =>
                    (Return tt,
                     Sys (merged (length pending) s) (ran_all pushes (here st) w2))
                | Some k =>
                    (Return tt,
                     Sys (push_failed (short_name (remote s) (nth k enabled "")) s)
                         (ran_all (take (S k) pushes) (here st) w2))
                end).
      { rewrite Heq', Hexact, H0, Hl.
        cbv beta iota delta [negb Z.eqb].
        rewrite push_each_runs. cbn [self env]. fold pushes.
        change (here (Sys s w2)) with (here st).
        destruct (first_failure pushes (here st) w2); reflexivity. }
      destruct (first_failure pushes (here st) w2); exact Hrun.
Qed.

Lemma failed_merge_witness :
  let final := (_do_merge_impl (Sys tab_merge_possible merge_conflict)).2 in
  state_label (self final) = ERROR_Merge_failed /\
  info_label (self final) = "Merge of claude/b failed" /\
  pending_branches (self final) = ["claude/a"; "claude/b"] /\
  map inv_cmd (history (env final))
  = [ ["git"; "merge"; "origin/claude/a"; "-m"; "Merge claude/a"];
      ["git"; "merge"; "origin/claude/b"; "-m"; "Merge claude/b"];
      ["git"; "merge"; "--abort"] ].
Proof.
  pose proof (failed_merge_is_aborted_and_never_pushed
                (Sys tab_merge_possible merge_conflict) "claude/a" ["claude/b"] eq_refl)
    as Hrun.
  cbv zeta in Hrun.
  destruct (first_failure _ _ _) as [k |] eqn:Hfirst in Hrun.
  - assert (Hk : k = 1%nat) by (vm_compute in Hfirst; injection Hfirst as <-; reflexivity).
    subst k. destruct Hrun as [Hrun Hp].
    cbv zeta. rewrite Hrun. cbn [snd self env].
    split; [reflexivity |]. split; [reflexivity |]. split; [exact Hp |].
    vm_compute. reflexivity.
  - exfalso. vm_compute in Hfirst. discriminate Hfirst.
Defined.

(** * The color of the tab *)

Lemma _do_sync_pending_stopped st :
  pending_branches (self (_do_sync st).2) ≠ [] -> polling (self (_do_sync st).2) = false.
Proof.
  unfold _do_sync, bind.
  pose proof (sync_classify_clears st) as Hclear.
  destruct (sync_classify st) as [[[[branches t] |] | e] st1]; cbn [snd] in Hclear.
  2,3: intros Hne; unfold conclude, ret in Hne; cbn [snd] in Hne;
    rewrite Hclear in Hne; contradiction.
  unfold conclude, sync_decide.
  destruct (_ =? 0)%nat.
  - intros Hne. exfalso. apply Hne.
    apply (sync_nothing_ahead_self (fun s => pending_branches s = [])
             (pending_display_stable []) branches st1 Hclear).
  - destruct (_ || _).
    + destruct (sync_stop_eq t st1) as (all_files & w' & _ & ->).
      intros _. cbn [snd self]. unfold stopped.
      destruct (no_overlap all_files); reflexivity.
    + intros Hne. exfalso. apply Hne.
      apply (sync_leader_self (fun s => pending_branches s = [])
               (pending_display_stable []) t st1 Hclear).
Qed.

(** X18. Pending branches always show red.  However a cycle ends, when it
    leaves branches pending it has also switched polling off, so
    [get_tab_bg_state] answers "red" for the tab: a tab is never shown
    green or gray by a cycle that stopped for the operator. *)
Theorem pending_branches_show_red (st : sys) :
  let tab := self (_do_sync st).2 in
  pending_branches tab ≠ [] ->
  polling tab = false /\ get_tab_bg_state tab = "red".
Proof.
  cbv zeta. intros Hne.
  pose proof (_do_sync_pending_stopped st Hne) as Hp.
  split; [exact Hp |].
  unfold get_tab_bg_state. rewrite Hp.
  destruct (git_healthy _); [| reflexivity].
  destruct (pending_branches _); [contradiction | reflexivity].
Qed.

Lemma pending_branches_show_red_witness :
  let tab := self (_do_sync (Sys tab0 two_ahead_shared)).2 in
  pending_branches tab = ["claude/a"; "claude/b"] /\
  polling tab = false /\ get_tab_bg_state tab = "red".
Proof.
  cbv zeta. split; [vm_compute; reflexivity |].
  apply (pending_branches_show_red (Sys tab0 two_ahead_shared)).
  vm_compute. discriminate.
Defined.

(** X19. An error is not shown by the color.  When the fetch of a cycle
    fails on a tab whose cached health flag is on, the cycle ends with the
    label "ERROR" and polling off, and [get_tab_bg_state] answers
    "default": the tab turns gray, as for a tab that was never started,
    not red. *)
Theorem failed_fetch_shows_the_default_color (st : sys) :
  exit_code (fetch_cmd (self st)) (here st) (env st) ≠ 0%Z ->
  git_healthy (self st) = true ->
  let tab := self (_do_sync st).2 in
  state_label tab = ERROR /\
  polling tab = false /\
  pending_branches tab = [] /\
  get_tab_bg_state tab = "default".
Proof.
  intros Hf Hh. cbv zeta. rewrite (_do_sync_fetch_fails st Hf). cbn [snd self].
  split; [reflexivity |]. split; [reflexivity |]. split; [reflexivity |].
  unfold get_tab_bg_state. cbn. rewrite Hh. reflexivity.
Qed.

Lemma failed_fetch_color_witness :
  let tab := self (_do_sync (Sys tab0 network_down)).2 in
  state_label tab = ERROR /\ get_tab_bg_state tab = "default".
Proof.
  destruct (failed_fetch_shows_the_default_color (Sys tab0 network_down))
    as (Hl & _ & _ & Hc).
  - vm_compute. discriminate.
  - reflexivity.
  - split; [exact Hl | exact Hc].
Defined.

(** * The application: stopping every tab *)

Lemma stop_each_spec ts n :
  stop_each ts n = (map (fun t => (t.1, halted t.2)) ts, (n + polling_count ts)%Z).
Proof.
  revert n. induction ts as [| [name tab] rest IH]; intros n.
  - cbn. f_equal. unfold polling_count. cbn. lia.
  - cbn [stop_each map fst snd]. unfold halted at 1.
    destruct (polling tab) eqn:Hp; rewrite IH; f_equal; unfold polling_count;
      cbn [List.filter snd]; rewrite Hp; cbn [length]; lia.
Qed.

Lemma halted_not_polling tab : polling (halted tab) = false.
Proof. unfold halted. destruct (polling tab) eqn:Hp; [reflexivity | exact Hp]. Qed.

Lemma halted_idempotent tab : halted (halted tab) = halted tab.
Proof. unfold halted at 1. rewrite halted_not_polling. reflexivity. Qed.

Lemma polling_count_halted ts :
  polling_count (map (fun t => (t.1, halted t.2)) ts) = 0%Z.
Proof.
  unfold polling_count. induction ts as [| t rest IH]; [reflexivity |].
  cbn [map List.filter snd]. rewrite halted_not_polling. exact IH.
Qed.

(** X20. "Stop all polling" halts every tab that is polling and no other.
    [stop_all_polling] never raises and keeps the tabs and their order.  A
    tab whose [polling] flag is set has it cleared and its stop event set,
    so its polling loop ends before the next cycle; a tab whose flag is
    already off, as after the engine's own [stop_polling], is left exactly
    as it is, its stop event included.  Afterwards no tab is polling, the
    title is the one of the new state, and one message box is set to pop
    up, telling how many tabs were stopped, only when there was one to
    stop; doing it again changes nothing. *)
Theorem stop_all_polling_halts_the_polling_tabs (a : application) :
  let a' := (stop_all_polling a).2 in
  let n := polling_count (tabs a) in
  (stop_all_polling a).1 = Return tt /\
  tabs a' = map (fun t => (t.1, halted t.2)) (tabs a) /\
  Forall (fun t => polling t.2 = false) (tabs a') /\
  (forall tab w k,
     polling tab = true ->
     polling_loop (S k) (Sys (halted tab) w) = (Return true, Sys (halted tab) w)) /\
  (forall tab, polling tab = false -> halted tab = tab) /\
  window_title a' = title_of (tabs a') /\
  message_boxes a' =
    message_boxes a ++
      (if (n >? 0)%Z
       then [("Polling stopped", Py.str n +:+ " polling(s) stopped.")] else []) /\
  (stop_all_polling a').2 = a'.
Proof.
  assert (Hrun : forall b,
            stop_all_polling b
            = (Return tt,
               App (map (fun t => (t.1, halted t.2)) (tabs b))
                   (title_of (map (fun t => (t.1, halted t.2)) (tabs b)))
                   (message_boxes b ++
                      (if (polling_count (tabs b) >? 0)%Z
                       then [("Polling stopped",
                              Py.str (polling_count (tabs b)) +:+ " polling(s) stopped.")]
                       else [])))).
  { intros b. unfold stop_all_polling, bind, get. cbv beta iota.
    rewrite stop_each_spec, Z.add_0_l.
    destruct (polling_count (tabs b) >? 0)%Z; cbn; rewrite ?app_nil_r; reflexivity. }
  cbv zeta. rewrite (Hrun a). cbn [fst snd tabs window_title message_boxes].
  split; [reflexivity |]. split; [reflexivity |]. split; [| split; [| split; [| split; [| split]]]].
  - apply Forall_forall. intros t Hin. apply list_elem_of_fmap in Hin as (t0 & -> & _).
    apply halted_not_polling.
  - intros tab w k Hp. unfold halted. rewrite Hp. reflexivity.
  - intros tab Hp. unfold halted. rewrite Hp. reflexivity.
  - reflexivity.
  - reflexivity.
  - rewrite Hrun. cbn [snd tabs window_title message_boxes].
    rewrite polling_count_halted. cbn [Z.gtb Z.compare]. rewrite app_nil_r.
    rewrite map_map. cbn [fst snd].
    assert (Hmap : map (fun t : string * session => (t.1, halted (halted t.2))) (tabs a)
                   = map (fun t => (t.1, halted t.2)) (tabs a)).
    { apply map_ext. intros t. rewrite halted_idempotent. reflexivity. }
    rewrite Hmap. reflexivity.
Qed.

Lemma stop_all_polling_witness :
  let a' := (stop_all_polling two_tabs).2 in
  map (fun t => (polling t.2, stop_event t.2)) (tabs a') = [(false, true); (false, false)] /\
  window_title a' = "GitHerd — 2 repos, 0 polling, 1 STOP" /\
  message_boxes a' = [("Polling stopped", "1 polling(s) stopped.")] /\
  polling_loop 1 (Sys (halted tab0) one_ahead) = (Return true, Sys (halted tab0) one_ahead) /\
  halted tab_merge_possible = tab_merge_possible.
Proof.
  destruct (stop_all_polling_halts_the_polling_tabs two_tabs)
    as (_ & Ht & _ & Hloop & Hkeep & Htitle & Hmsg & _).
  cbv zeta. rewrite Ht, Htitle, Hmsg, Ht.
  split; [reflexivity |]. split; [reflexivity |]. split; [reflexivity |].
  split; [apply Hloop; reflexivity | apply Hkeep; reflexivity].
Defined.

(** * The application: placing a dialog *)

(** X21. A dialog is never placed at a negative coordinate, and a dialog
    that fits is placed on the screen.  The two coordinates
    [ensure_dialog_on_screen] writes into the geometry are never negative.
    When the dialog with a margin of 10 pixels is no wider than the screen
    and with a margin of 50 pixels no higher, the whole dialog lies on the
    screen; and when the place centred over the main window already lies
    on the screen, it is the one used. *)
Theorem dialog_is_placed_on_screen
  (dlg_width dlg_height screen_width screen_height main_x main_y main_width : Z) :
  let x := (dialog_position dlg_width dlg_height screen_width screen_height
              main_x main_y main_width).1 in
  let y := (dialog_position dlg_width dlg_height screen_width screen_height
              main_x main_y main_width).2 in
  let x0 := (main_x + (main_width - dlg_width) / 2)%Z in
  let y0 := (main_y + 50)%Z in
  ensure_dialog_on_screen dlg_width dlg_height screen_width screen_height
    main_x main_y main_width = "+" +:+ Py.str x +:+ "+" +:+ Py.str y /\
  (0 <= x)%Z /\ (0 <= y)%Z /\
  ((dlg_width + 10 <= screen_width)%Z -> (x + dlg_width <= screen_width)%Z) /\
  ((dlg_height + 50 <= screen_height)%Z -> (y + dlg_height <= screen_height)%Z) /\
  ((0 <= x0)%Z -> (x0 + dlg_width <= screen_width)%Z -> x = x0) /\
  ((0 <= y0)%Z -> (y0 + dlg_height <= screen_height)%Z -> y = y0).
Proof.
  cbv zeta. unfold ensure_dialog_on_screen, dialog_position. cbn [fst snd].
  set (x0 := (main_x + (main_width - dlg_width) / 2)%Z).
  set (y0 := (main_y + 50)%Z).
  split; [reflexivity |].
  destruct (Z.gtb_spec (x0 + dlg_width) screen_width) as [Hx | Hx];
    destruct (Z.gtb_spec (y0 + dlg_height) screen_height) as [Hy | Hy];
    repeat match goal with
           | |- context [(?a <? 0)%Z] => destruct (Z.ltb_spec a 0)
           end;
    repeat split; intros; lia.
Qed.

Lemma dialog_is_placed_on_screen_witness :
  dialog_position 500 665 1920 1080 1600 20 710 = (1410, 70)%Z /\
  (1410 + 500 <= 1920)%Z /\ (70 + 665 <= 1080)%Z.
Proof.
  destruct (dialog_is_placed_on_screen 500 665 1920 1080 1600 20 710)
    as (_ & _ & _ & Hx & Hy & _).
  split; [reflexivity |]. split; [apply Hx; lia | apply Hy; lia].
Defined.

(** * The application: naming a tab *)

Lemma candidate_next repo_name c :
  (1 <= c)%Z ->
  candidate repo_name (c + 1) = repo_name +:+ " (" +:+ Py.str (c + 1) +:+ ")".
Proof.
  intros Hc. unfold candidate. destruct (Z.eqb_spec (c + 1) 1); [lia | reflexivity].
Qed.

Lemma append_length a b : String.length (a +:+ b) = (String.length a + String.length b)%nat.
Proof.
  induction a as [| c a IH]; [reflexivity |].
  change (String c a +:+ b) with (String c (a +:+ b)).
  cbn [String.length]. rewrite IH. reflexivity.
Qed.

Lemma append_inj_r a b c : a +:+ c = b +:+ c -> a = b.
Proof.
  revert b. induction a as [| x a IH]; intros [| y b] H.
  - reflexivity.
  - apply (f_equal String.length) in H.
    change ("" +:+ c) with c in H. rewrite append_length in H.
    cbn [String.length] in H. lia.
  - apply (f_equal String.length) in H.
    change ("" +:+ c) with c in H. rewrite append_length in H.
    cbn [String.length] in H. lia.
  - change (String x a +:+ c) with (String x (a +:+ c)) in H.
    change (String y b +:+ c) with (String y (b +:+ c)) in H.
    injection H as -> H. f_equal. apply IH, H.
Qed.

Lemma candidate_inj repo_name j k :
  (1 <= j)%Z -> (1 <= k)%Z -> candidate repo_name j = candidate repo_name k -> j = k.
Proof.
  intros Hj Hk. unfold candidate.
  destruct (Z.eqb_spec j 1) as [-> | Hj1]; destruct (Z.eqb_spec k 1) as [-> | Hk1];
    intros H.
  - reflexivity.
  - apply (f_equal String.length) in H. rewrite !append_length in H.
    cbn [String.length] in H. lia.
  - apply (f_equal String.length) in H. rewrite !append_length in H.
    cbn [String.length] in H. lia.
  - apply (String.app_inj repo_name) in H.
    change (" (" +:+ Py.str j +:+ ")") with (String " " (String "(" (Py.str j +:+ ")"))) in H.
    change (" (" +:+ Py.str k +:+ ")") with (String " " (String "(" (Py.str k +:+ ")"))) in H.
    injection H as H. apply append_inj_r in H.
    apply (inj pretty) in H. exact H.
Qed.

(** The names tried before the counter reached [c] are all taken, so there
    are at least [c - 1] tabs. *)
Lemma candidates_taken repo_name (tabs : list string) (c : nat) :
  (forall j, (1 <= j < Z.of_nat (S c))%Z -> candidate repo_name j ∈ tabs) ->
  (c <= length tabs)%nat.
Proof.
  intros Hall.
  set (l := map (fun i => candidate repo_name (Z.of_nat i)) (seq 1 c)).
  assert (Hnd : List.NoDup l).
  { unfold l. apply Finite.Injective_map_NoDup_in; [| apply seq_NoDup].
    intros x y Hx Hy H. apply in_seq in Hx, Hy.
    apply candidate_inj in H; lia. }
  assert (Hincl : incl l tabs).
  { intros name Hin. unfold l in Hin. apply in_map_iff in Hin as (i & <- & Hi).
    apply in_seq in Hi. apply list_elem_of_In, Hall. lia. }
  pose proof (NoDup_incl_length Hnd Hincl) as Hlen.
  unfold l in Hlen. rewrite length_map, length_seq in Hlen. exact Hlen.
Qed.

Lemma tab_name_loop_spec repo_name tabs fuel (c : nat) :
  (1 <= c)%nat ->
  (forall j, (1 <= j < Z.of_nat c)%Z -> candidate repo_name j ∈ tabs) ->
  (length tabs < fuel + (c - 1))%nat ->
  exists k : Z,
    tab_name_loop fuel repo_name tabs (Z.of_nat c) (candidate repo_name (Z.of_nat c))
      = Some (candidate repo_name k) /\
    (Z.of_nat c <= k)%Z /\
    (candidate repo_name k ∉ tabs) /\
    (forall j, (1 <= j < k)%Z -> candidate repo_name j ∈ tabs).
Proof.
  revert c. induction fuel as [| fuel IH]; intros c Hc Hall Hfuel.
  - exfalso. pose proof (candidates_taken repo_name tabs (c - 1)) as Hlen.
    replace (S (c - 1)) with c in Hlen by lia. specialize (Hlen Hall). lia.
  - cbn [tab_name_loop]. case_bool_decide as Hin.
    + cbv zeta. rewrite <- candidate_next by lia.
      replace (Z.of_nat c + 1)%Z with (Z.of_nat (S c)) by lia.
      destruct (IH (S c)) as (k & Hrun & Hk & Hfresh & Htaken).
      * lia.
      * intros j Hj. destruct (decide (j = Z.of_nat c)) as [-> | Hne];
          [exact Hin | apply Hall; lia].
      * lia.
      * exists k. split; [exact Hrun |]. split; [lia |]. split; assumption.
    + exists (Z.of_nat c). split; [reflexivity |]. split; [lia |]. split; assumption.
Qed.

(** X22. A new tab never takes the name of an open tab.  Given more fuel
    than there are tabs, the loop of [add_repo] ends, so the loop of the
    source always ends.  The name it gives is not the name of any open
    tab; it is the name of the repository when that is free, and otherwise
    the name followed by the first counter from 2 on, in brackets, for
    which the name is free, every smaller one being taken. *)
Theorem new_tab_name_is_fresh (repo_name : string) (tabs : list string) (fuel : nat) :
  (length tabs < fuel)%nat ->
  exists k : Z,
    new_tab_name fuel repo_name tabs = Some (candidate repo_name k) /\
    (1 <= k)%Z /\
    (candidate repo_name k ∉ tabs) /\
    (forall j, (1 <= j < k)%Z -> candidate repo_name j ∈ tabs) /\
    (repo_name ∉ tabs -> candidate repo_name k = repo_name).
Proof.
  intros Hfuel.
  destruct (tab_name_loop_spec repo_name tabs fuel 1) as (k & Hrun & Hk & Hfresh & Htaken).
  - lia.
  - intros j Hj. lia.
  - lia.
  - exists k. split; [exact Hrun |]. split; [lia |]. split; [exact Hfresh |].
    split; [exact Htaken |].
    intros Hfree. destruct (decide (k = 1%Z)) as [-> | Hne]; [reflexivity |].
    exfalso. apply Hfree. apply (Htaken 1%Z). lia.
Qed.

Lemma new_tab_name_witness :
  new_tab_name 4 "repo" ["repo"; "other"; "repo (2)"] = Some "repo (3)" /\
  "repo (3)" ∉ ["repo"; "other"; "repo (2)"].
Proof.
  destruct (new_tab_name_is_fresh "repo" ["repo"; "other"; "repo (2)"] 4)
    as (k & Hrun & _ & Hfresh & _).
  - cbn. lia.
  - assert (Hk : candidate "repo" k = "repo (3)").
    { assert (H : new_tab_name 4 "repo" ["repo"; "other"; "repo (2)"] = Some "repo (3)")
        by (vm_compute; reflexivity).
      rewrite H in Hrun. injection Hrun as <-. reflexivity. }
    rewrite <- Hk. split; [exact Hrun | exact Hfresh].
Defined.

(** * Detecting the settings of a repository *)

Lemma contains_char_app p a b :
  Py.contains_char p (a +:+ b) = Py.contains_char p a || Py.contains_char p b.
Proof.
  induction a as [| c a IH]; [reflexivity |].
  change (String c a +:+ b) with (String c (a +:+ b)).
  cbn [Py.contains_char]. rewrite IH, orb_assoc. reflexivity.
Qed.

Lemma split_go_last sep cur s :
  Py.contains_char (fun c => Ascii.eqb c sep) cur = false ->
  Py.split_go sep cur s ≠ [] /\
  Py.contains_char (fun c => Ascii.eqb c sep) (List.last (Py.split_go sep cur s) "") = false.
Proof.
  revert cur. induction s as [| c rest IH]; intros cur Hcur.
  - split; [discriminate | exact Hcur].
  - cbn [Py.split_go]. destruct (Ascii.eqb c sep) eqn:Hc.
    + destruct (IH "" eq_refl) as [Hne Hlast]. split; [discriminate |].
      cbn [List.last]. destruct (Py.split_go sep "" rest); [contradiction | exact Hlast].
    + apply IH. rewrite contains_char_app, Hcur. cbn. rewrite Hc. reflexivity.
Qed.

(** X23. Detecting the settings of a repository only asks git questions and
    never raises.  [detect_repo_settings] starts [git remote], then
    [git symbolic-ref refs/remotes/<remote>/HEAD] for the remote it settled
    on (the first line [git remote] printed, or the default), each in the
    repository and with the timeout of 30 seconds.  If [symbolic-ref]
    exits with code 0 and prints something, nothing else is started, and
    the main branch is the last of the parts of that text between slashes
    if there are at least four of them, the default if not.  Otherwise [git branch -r --list <remote>/main] is started, and the main
    branch is "main" if it exits with code 0 and prints more than blanks;
    only if it does not, [git branch -r --list <remote>/master] is started,
    and the main branch is "master" if that one does and the default if
    not.  No other subprocess is started, and every key but the remote and
    the main branch is as in the defaults. *)
Theorem detect_repo_settings_only_asks
  (defaults : repo_config) (repo_path git_binary : string) (w : world) :
  let cwd := Some repo_path in
  let remote := detected_remote defaults git_binary cwd w in
  let c1 := remote_cmd git_binary in
  let c2 := head_cmd git_binary remote in
  let c3 := branch_list_cmd git_binary (remote +:+ "/main") in
  let c4 := branch_list_cmd git_binary (remote +:+ "/master") in
  let w1 := ran c1 cwd w in
  let w2 := ran c2 cwd w1 in
  let w3 := ran c3 cwd w2 in
  let n := if printed c2 cwd w1 then 2%nat
           else if printed_text c3 cwd w2 then 3%nat else 4%nat in
  let run := detect_repo_settings defaults repo_path git_binary w in
  exists cfg,
    run.1 = Return cfg /\
    history run.2 = history w ++
      map (fun c => Invocation c cwd 30) (take n [c1; c2; c3; c4]) /\
    cfg_remote cfg = remote /\
    cfg_others cfg = cfg_others defaults /\
    (n = 2%nat ->
     cfg_main_branch cfg =
       let parts := Py.split (output c2 cwd w1) "/" in
       if (4 <=? length parts)%nat then List.last parts ""
       else cfg_main_branch defaults) /\
    (n = 3%nat -> cfg_main_branch cfg = "main") /\
    (n = 4%nat ->
     cfg_main_branch cfg =
       if printed_text c4 cwd w3 then "master" else cfg_main_branch defaults).
Proof.
  cbv zeta. unfold detect_repo_settings, detected_remote, printed, printed_text,
    exit_code, output. cbv zeta.
  erewrite bind_Return by apply run_git_eq.
  fold (remote_cmd git_binary).
  destruct (run_git_value (remote_cmd git_binary) _) as [[x1 o1] e1]. cbn [fst snd].
  set (settings1 :=
         if (x1 =? 0)%Z && negb (bool_decide (o1 = ""))
         then match Py.splitlines o1 with
              | first :: _ => RepoConfig first (cfg_main_branch defaults) (cfg_others defaults)
              | [] => defaults
              end
         else defaults).
  assert (H1 : cfg_main_branch settings1 = cfg_main_branch defaults /\
               cfg_others settings1 = cfg_others defaults /\
               cfg_remote settings1 =
                 if (x1 =? 0)%Z && negb (bool_decide (o1 = ""))
                 then hd (cfg_remote defaults) (Py.splitlines o1)
                 else cfg_remote defaults).
  { unfold settings1. destruct (_ && _); [| repeat split].
    destruct (Py.splitlines o1); repeat split. }
  destruct H1 as (Hm1 & Ho1 & Hr1). rewrite <- Hr1. clearbody settings1. clear Hr1.
  erewrite bind_Return by apply run_git_eq.
  fold (head_cmd git_binary (cfg_remote settings1)).
  destruct (run_git_value (head_cmd git_binary (cfg_remote settings1)) _)
    as [[x2 o2] e2]. cbn [fst snd].
  destruct ((x2 =? 0)%Z && negb (bool_decide (o2 = ""))).
  - exists (if (4 <=? length (Py.split o2 "/"))%nat
            then RepoConfig (cfg_remote settings1) (List.last (Py.split o2 "/") "")
                            (cfg_others settings1)
            else settings1).
    split; [destruct (4 <=? _)%nat; reflexivity |].
    split; [destruct (4 <=? _)%nat; cbn; rewrite <- app_assoc; reflexivity |].
    destruct (4 <=? _)%nat; cbn [cfg_others cfg_main_branch cfg_remote];
      (split; [reflexivity |]); (split; [exact Ho1 |]);
      (split; [intros _; first [reflexivity | exact Hm1] |]); split; discriminate.
  - erewrite bind_Return by apply run_git_eq.
    fold (branch_list_cmd git_binary (cfg_remote settings1 +:+ "/main")).
    destruct (run_git_value (branch_list_cmd git_binary
                               (cfg_remote settings1 +:+ "/main")) _) as [[x3 o3] e3].
    cbn [fst snd].
    destruct ((x3 =? 0)%Z && negb (bool_decide (Py.strip o3 = ""))).
    + eexists. split; [reflexivity |].
      split; [cbn; rewrite <- !app_assoc; reflexivity |].
      cbn [cfg_others cfg_main_branch cfg_remote].
      split; [reflexivity |]. split; [exact Ho1 |].
      split; [discriminate |]. split; [reflexivity | discriminate].
    + erewrite bind_Return by apply run_git_eq.
      fold (branch_list_cmd git_binary (cfg_remote settings1 +:+ "/master")).
      destruct (run_git_value (branch_list_cmd git_binary
                                 (cfg_remote settings1 +:+ "/master")) _)
        as [[x4 o4] e4].
      cbn [fst snd].
      exists (if (x4 =? 0)%Z && negb (bool_decide (Py.strip o4 = ""))
              then RepoConfig (cfg_remote settings1) "master" (cfg_others settings1)
              else settings1).
      split; [destruct (_ && _); reflexivity |].
      split; [destruct (_ && _); cbn; rewrite <- !app_assoc; reflexivity |].
      destruct (_ && _); cbn [cfg_others cfg_main_branch cfg_remote];
        (split; [reflexivity |]); (split; [exact Ho1 |]);
        (split; [discriminate |]); (split; [discriminate |]); intros _;
        [reflexivity | exact Hm1].
Qed.

Lemma detect_repo_settings_witness :
  let run := detect_repo_settings (RepoConfig "upstream" "main" ∅) "/repo" "git"
               headless_clone in
  exists cfg,
    run.1 = Return cfg /\
    cfg_remote cfg = "origin" /\
    cfg_main_branch cfg = "master" /\
    map inv_cmd (history run.2)
    = [ ["git"; "remote"];
        ["git"; "symbolic-ref"; "refs/remotes/origin/HEAD"];
        ["git"; "branch"; "-r"; "--list"; "origin/main"];
        ["git"; "branch"; "-r"; "--list"; "origin/master"] ].
Proof.
  destruct (detect_repo_settings_only_asks (RepoConfig "upstream" "main" ∅) "/repo" "git"
              headless_clone) as (cfg & Hrun & Hh & Hr & _ & _ & _ & Hmaster).
  cbv zeta. exists cfg. split; [exact Hrun |].
  split; [rewrite Hr; vm_compute; reflexivity |].
  split; [rewrite Hmaster; vm_compute; reflexivity |].
  rewrite Hh. vm_compute. reflexivity.
Defined.

(** X24. What [symbolic-ref] prints decides the main branch.  When
    [git symbolic-ref refs/remotes/<remote>/HEAD], asked for the remote
    that was detected, exits with code 0 and prints something, no branch
    listing is consulted: two subprocesses are started in all.  If the
    text has at least four parts separated by slashes, the main branch is
    its last part, which holds no slash, so a default branch such as
    [release/1.0] is detected as [1.0]; otherwise the main branch is left
    at its default. *)
Theorem head_of_the_remote_names_the_main_branch
  (defaults : repo_config) (repo_path git_binary : string) (w : world) (cfg : repo_config) :
  (detect_repo_settings defaults repo_path git_binary w).1 = Return cfg ->
  let cwd := Some repo_path in
  let w1 := ran (remote_cmd git_binary) cwd w in
  let head := head_cmd git_binary (cfg_remote cfg) in
  exit_code head cwd w1 = 0%Z ->
  output head cwd w1 ≠ "" ->
  let parts := Py.split (output head cwd w1) "/" in
  history (detect_repo_settings defaults repo_path git_binary w).2
  = history w ++ [Invocation (remote_cmd git_binary) cwd 30; Invocation head cwd 30] /\
  ((4 <= length parts)%nat ->
   cfg_main_branch cfg = List.last parts "" /\ no_slash (cfg_main_branch cfg) = true) /\
  ((length parts < 4)%nat -> cfg_main_branch cfg = cfg_main_branch defaults).
Proof.
  unfold detect_repo_settings. cbv zeta.
  erewrite bind_Return by apply run_git_eq.
  fold (remote_cmd git_binary).
  destruct (run_git_value (remote_cmd git_binary) _) as [[c1 o1] e1].
  set (settings1 :=
         if (c1 =? 0)%Z && negb (bool_decide (o1 = ""))
         then match Py.splitlines o1 with
              | first :: _ => RepoConfig first (cfg_main_branch defaults) (cfg_others defaults)
              | [] => defaults
              end
         else defaults).
  assert (Hm1 : cfg_main_branch settings1 = cfg_main_branch defaults).
  { unfold settings1. destruct (_ && _); [| reflexivity].
    destruct (Py.splitlines o1); reflexivity. }
  clearbody settings1.
  erewrite bind_Return by apply run_git_eq.
  fold (head_cmd git_binary (cfg_remote settings1)).
  unfold exit_code, output.
  destruct (run_git_value (head_cmd git_binary (cfg_remote settings1)) _)
    as [[c2 o2] e2] eqn:Hv2.
  destruct ((c2 =? 0)%Z && negb (bool_decide (o2 = ""))) eqn:Hcond.
  - destruct (Nat.leb_spec 4 (length (Py.split o2 "/"))) as [Hlen | Hlen];
      cbn [fst snd ret]; intros Hcfg; injection Hcfg as <-;
      cbn [cfg_remote cfg_main_branch]; rewrite Hv2; cbn [fst snd]; intros _ _.
    + split; [cbn; rewrite <- app_assoc; reflexivity |].
      split; [| intros; lia]. intros _. split; [reflexivity |].
      unfold no_slash, Py.split.
      destruct (split_go_last "/" "" o2 eq_refl) as [_ ->]. reflexivity.
    + split; [cbn; rewrite <- app_assoc; reflexivity |].
      split; [intros; lia |]. intros _. exact Hm1.
  - intros Hcfg Hc Ho. exfalso.
    assert (Hr : cfg_remote cfg = cfg_remote settings1).
    { erewrite bind_Return in Hcfg by apply run_git_eq.
      destruct (run_git_value [git_binary; "branch"; "-r"; "--list";
                               cfg_remote settings1 +:+ "/main"] _) as [[c3 o3] e3].
      cbv beta iota in Hcfg.
      destruct ((c3 =? 0)%Z && negb (bool_decide (Py.strip o3 = ""))).
      - cbn [fst ret] in Hcfg. injection Hcfg as <-. reflexivity.
      - erewrite bind_Return in Hcfg by apply run_git_eq.
        destruct (run_git_value [git_binary; "branch"; "-r"; "--list";
                                 cfg_remote settings1 +:+ "/master"] _) as [[c4 o4] e4].
        cbv beta iota in Hcfg.
        destruct ((c4 =? 0)%Z && negb (bool_decide (Py.strip o4 = "")));
          cbn [fst ret] in Hcfg; injection Hcfg as <-; reflexivity. }
    rewrite Hr, Hv2 in Hc, Ho. cbn [fst snd] in Hc, Ho. subst c2.
    cbn [Z.eqb andb] in Hcond. rewrite bool_decide_eq_false_2 in Hcond by exact Ho.
    discriminate Hcond.
Qed.

Lemma head_of_the_remote_witness :
  (detect_repo_settings defaults0 "/repo" "git" upstream_clone).1
  = Return (RepoConfig "upstream" "1.0" ∅) /\
  map inv_cmd (history (detect_repo_settings defaults0 "/repo" "git" upstream_clone).2)
  = [ ["git"; "remote"]; ["git"; "symbolic-ref"; "refs/remotes/upstream/HEAD"] ] /\
  no_slash "1.0" = true.
Proof.
  assert (Hrun : (detect_repo_settings defaults0 "/repo" "git" upstream_clone).1
                 = Return (RepoConfig "upstream" "1.0" ∅)) by (vm_compute; reflexivity).
  destruct (head_of_the_remote_names_the_main_branch defaults0 "/repo" "git"
              upstream_clone (RepoConfig "upstream" "1.0" ∅) Hrun)
    as (Hh & Hmain & _).
  - vm_compute. reflexivity.
  - vm_compute. discriminate.
  - split; [exact Hrun |]. split; [rewrite Hh; reflexivity |].
    apply Hmain. vm_compute. lia.
Defined.

(** * The polling loop and the operator *)

(** X25. A stop during the wait ends the polling loop.  When the loop
    starts a round with the stop event clear and the lock free, the cycle
    returns, and the operator's stop arrives during the wait that follows,
    the loop ends there: whatever the number of rounds it is given, it has
    run that one cycle and nothing after it, [polling] is off and the stop
    event is set. *)
Theorem stop_during_the_wait_ends_the_loop (st : sys) (n : nat) :
  stop_event (self st) = false ->
  lock (self st) = false ->
  operator_stop (env st) (waits (env st)) = true ->
  returns (sync st).1 = true ->
  let once := (sync st).2 in
  polling_loop (S n) st
  = (Return true,
     Sys (set_stop_event true (set_polling false (self once))) (world_waited (env once))) /\
  history (env (polling_loop (S n) st).2) = history (env once).
Proof.
  intros Hev Hl Hop Hret.
  pose proof (sync_eq st Hl) as Hs.
  pose proof (_do_sync_keeps_stop_event (entered st)) as Hev1.
  pose proof (_do_sync_keeps_operator (entered st)) as [Hop1 Hw1].
  destruct (_do_sync (entered st)) as [r st1] eqn:Hbody.
  cbn [fst snd] in Hs, Hev1, Hop1, Hw1.
  change (stop_event (self (entered st))) with (stop_event (self st)) in Hev1.
  change (env (entered st)) with (env st) in Hop1, Hw1.
  rewrite Hs in Hret. cbn [fst] in Hret.
  destruct r as [[] | e]; [| discriminate Hret].
  cbv zeta.
  assert (Hrun : polling_loop (S n) st
                 = (Return true,
                    Sys (set_stop_event true (set_polling false (left_sync (self st1))))
                        (world_waited (env st1)))).
  { cbn [polling_loop]. erewrite bind_Return by reflexivity.
    rewrite Hev. erewrite bind_Return by exact Hs.
    set (st2 := Sys (left_sync (self st1)) (env st1)).
    assert (Hwait : stop_event_wait st2
                    = (Return true,
                       Sys (set_stop_event true (set_polling false (self st2)))
                           (world_waited (env st2)))).
    { unfold stop_event_wait. erewrite bind_Return by reflexivity. cbv beta zeta.
      erewrite bind_Return by reflexivity.
      change (stop_event (self st2)) with (stop_event (self st1)). rewrite Hev1, Hev.
      change (env st2) with (env st1). rewrite Hop1, Hw1, Hop. reflexivity. }
    erewrite bind_Return by exact Hwait. reflexivity. }
  rewrite Hrun, Hs. split; reflexivity.
Qed.

Lemma stop_during_the_wait_witness :
  let st := Sys tab0 one_ahead_then_stop in
  (polling_loop 5 st).1 = Return true /\
  fetches (history (env (polling_loop 5 st).2)) = 1%nat /\
  stop_event (self (polling_loop 5 st).2) = true.
Proof.
  destruct (stop_during_the_wait_ends_the_loop (Sys tab0 one_ahead_then_stop) 4)
    as [Hrun Hh].
  - reflexivity.
  - reflexivity.
  - reflexivity.
  - vm_compute. reflexivity.
  - cbv zeta. rewrite Hh. rewrite Hrun. cbn [fst snd self].
    split; [reflexivity |]. split; [vm_compute; reflexivity | reflexivity].
Defined.

(** X26. A request that finds the tab busy is dropped, not queued.  While
    the lock is held, by a cycle or by a merge in flight, a manual sync, a
    cycle started by the polling loop and a manual merge all return at once:
    no subprocess is started, no label or flag changes, and nothing is left
    behind that would run the request later. *)
Theorem busy_tab_drops_the_request (st : sys) :
  lock (self st) = true ->
  sync st = (Return tt, st) /\
  manual_sync st = (Return tt, st) /\
  _do_merge st = (Return tt, st).
Proof.
  intros Hl. destruct (entry_points_skip_when_locked st Hl) as [Hs Hm].
  split; [exact Hs |]. split; [| exact Hm].
  unfold manual_sync, bind, get. cbv beta iota.
  destruct (git_healthy (self st)); [exact Hs | reflexivity].
Qed.

Lemma busy_tab_witness :
  let st := Sys tab_busy two_ahead_disjoint in
  sync st = (Return tt, st) /\ manual_sync st = (Return tt, st) /\
  _do_merge st = (Return tt, st).
Proof. apply (busy_tab_drops_the_request (Sys tab_busy two_ahead_disjoint)). reflexivity. Defined.

(** * The alert of a new commit *)

(** What never notifies. *)
Section QuietFrame.
Context (R : world -> Prop) (HR : quiet_stable R).

Lemma run_git_quiet cmd cwd : preserves R (run_git cmd cwd).
Proof.
  intros w Hw. rewrite run_git_eq. cbn [snd].
  destruct cmd; [exact Hw | apply HR, Hw].
Qed.
Hint Resolve run_git_quiet : pres.

Lemma int_of_quiet out : preserves R (int_of out).
Proof. unfold int_of. destruct (Py.int out); intros w Hw; exact Hw. Qed.
Hint Resolve int_of_quiet : pres.

Lemma commits_ahead_quiet base tip cwd git : preserves R (commits_ahead base tip cwd git).
Proof. unfold commits_ahead. pres. Qed.

Lemma commits_behind_quiet base tip cwd git : preserves R (commits_behind base tip cwd git).
Proof. unfold commits_behind. pres. Qed.

Lemma get_tracked_branches_quiet remote prefix cwd git :
  preserves R (get_tracked_branches remote prefix cwd git).
Proof. unfold get_tracked_branches. pres. Qed.

Lemma get_changed_files_quiet base tip cwd git :
  preserves R (get_changed_files base tip cwd git).
Proof. unfold get_changed_files. pres. Qed.
Hint Resolve commits_ahead_quiet commits_behind_quiet get_tracked_branches_quiet
  get_changed_files_quiet : pres.

Lemma changed_files_of_quiet branches main_ref remote cwd git :
  preserves R (changed_files_of branches main_ref remote cwd git).
Proof. induction branches; simpl; pres. Qed.
Hint Resolve changed_files_of_quiet : pres.

Lemma are_files_disjoint_quiet branches main_ref remote cwd git :
  preserves R (are_files_disjoint branches main_ref remote cwd git).
Proof. unfold are_files_disjoint. pres. Qed.

Lemma local_main_ahead_quiet remote main cwd git :
  preserves R (local_main_ahead remote main cwd git).
Proof. unfold local_main_ahead. pres. Qed.

Lemma load_global_settings_quiet : preserves R load_global_settings.
Proof. intros w Hw. exact Hw. Qed.

Lemma save_global_settings_quiet st : preserves R (save_global_settings st).
Proof. intros w Hw. apply HR, Hw. Qed.
Hint Resolve are_files_disjoint_quiet local_main_ahead_quiet load_global_settings_quiet
  save_global_settings_quiet : pres.

Let P : sys -> Prop := fun st => R (env st).

Lemma run_git_here_quiet cmd : preserves P (run_git_here cmd).
Proof. unfold run_git_here. pres. Qed.

Lemma after_quiet j : preserves P (after j).
Proof. unfold after. pres. Qed.
Hint Resolve run_git_here_quiet after_quiet : pres.

Lemma stop_polling_quiet : preserves P stop_polling.
Proof. unfold stop_polling. pres. Qed.
Hint Resolve stop_polling_quiet : pres.

Lemma push_each_quiet all_branches branch_states default_enabled :
  preserves P (push_each all_branches branch_states default_enabled).
Proof. induction all_branches; simpl; pres. Qed.
Hint Resolve push_each_quiet : pres.

Lemma push_main_and_branches_quiet : preserves P push_main_and_branches.
Proof. unfold push_main_and_branches. pres. Qed.

Lemma clean_persistence_quiet settings0 all_branches :
  preserves P (clean_persistence settings0 all_branches).
Proof. unfold clean_persistence. pres. Qed.

Lemma classify_branch_quiet b t : preserves P (classify_branch b t).
Proof. unfold classify_branch. pres. Qed.
Hint Resolve push_main_and_branches_quiet clean_persistence_quiet classify_branch_quiet
  : pres.

Lemma classify_quiet branches t : preserves P (classify branches t).
Proof. revert t. induction branches; intros t; simpl; pres. Qed.

Lemma collect_behind_quiet branches : preserves P (collect_behind branches).
Proof. induction branches; simpl; pres. Qed.

Lemma push_behind_quiet behind_branches : preserves P (push_behind behind_branches).
Proof. induction behind_branches as [| [name n] rest IH]; simpl; pres. Qed.
Hint Resolve classify_quiet collect_behind_quiet push_behind_quiet : pres.

Lemma sync_nothing_ahead_quiet branches : preserves P (sync_nothing_ahead branches).
Proof. unfold sync_nothing_ahead. pres. Qed.

Lemma sync_stop_quiet t : preserves P (sync_stop t).
Proof. unfold sync_stop, show_merge_button. pres. Qed.

Lemma sync_leader_quiet t : preserves P (sync_leader t).
Proof. unfold sync_leader. pres. Qed.
Hint Resolve sync_nothing_ahead_quiet sync_stop_quiet sync_leader_quiet : pres.

Lemma conclude_quiet r : preserves P (conclude r).
Proof. unfold conclude, sync_decide. pres. Qed.

End QuietFrame.

Lemma notifications_quiet_stable x : quiet_stable (fun w => notifications w = x).
Proof. intros w Hw. split; intros; exact Hw. Qed.

Lemma commit_alert_display_stable a : display_stable (fun s => commit_alert s = a).
Proof. intros s Hs. repeat split; intros; exact Hs. Qed.

(** The alert is requested by [sync_tally] and nowhere else. *)
Section Alerts.
Context (a : list notification) (x : list notification).

Let P0 : sys -> Prop :=
  fun st => commit_alert (self st) = a /\ notifications (env st) = x.

Let alerts (c : M sys (option (list string * tally))) : Prop :=
  forall st, P0 st ->
    notifications (env (c st).2) = x ++ alerts_of (c st).1 a.

Lemma preserves_P0 {A} (c : M sys A) :
  preserves (fun st => commit_alert (self st) = a) c ->
  preserves (fun st => notifications (env st) = x) c ->
  preserves P0 c.
Proof. intros H1 H2 st [Ha Hx]. split; [apply H1, Ha | apply H2, Hx]. Qed.

Lemma bind_alerts {A} (c : M sys A) k :
  preserves P0 c -> (forall v, alerts (k v)) -> alerts (bind c k).
Proof.
  intros Hc Hk st Hst. unfold bind. specialize (Hc st Hst).
  destruct (c st) as [[v | e] st1]; cbn [snd] in Hc.
  - apply Hk, Hc.
  - cbn. rewrite app_nil_r. apply Hc.
Qed.

Lemma quiet_alerts (c : M sys unit) :
  preserves P0 c -> alerts (c ;; ret None).
Proof.
  intros Hc. apply bind_alerts; [exact Hc |].
  intros [] st Hst. cbn. rewrite app_nil_r. apply Hst.
Qed.

Lemma sync_tally_alerts branches : alerts (sync_tally branches).
Proof.
  intros st [Ha Hx]. unfold sync_tally, bind.
  pose proof (classify_self _ (commit_alert_display_stable a) branches (Tally [] [] false)
                st Ha) as Ha1.
  pose proof (classify_quiet _ (notifications_quiet_stable x) branches (Tally [] [] false)
                st Hx) as Hx1.
  cbv beta in Ha1, Hx1.
  destruct (classify branches (Tally [] [] false) st) as [[t | e] st1]; cbn [snd] in *.
  - destruct (new_commits_detected t) eqn:Hnew; cbn [when].
    + unfold announce_new_commit, bind, get, in_env, play_sound, send_notification,
        modify, when, after, on_self, ret. cbn [env self].
      unfold commit_alert in Ha1.
      destruct (desktop_notifications (self st1)); cbn; rewrite Hnew, Hx1, <- Ha1;
        cbn; rewrite <- ?app_assoc; reflexivity.
    + cbn. rewrite Hnew, app_nil_r. exact Hx1.
  - cbn. rewrite app_nil_r. exact Hx1.
Qed.

Lemma P0_in_env {A} (c : M world A) :
  preserves (fun w => notifications w = x) c -> preserves P0 (in_env c).
Proof.
  intros Hc. apply preserves_P0.
  - apply (preserves_in_env_self (fun s => commit_alert s = a)).
  - apply (preserves_in_env (fun w => notifications w = x)), Hc.
Qed.

Lemma P0_on_self f :
  (forall s, commit_alert (f s) = commit_alert s) -> preserves P0 (on_self f).
Proof. intros Hf st [Ha Hx]. split; [cbn; rewrite Hf; exact Ha | exact Hx]. Qed.

Lemma P0_stop_polling : preserves P0 stop_polling.
Proof.
  unfold stop_polling, after.
  apply preserves_bind; [| intros _]; apply P0_on_self; reflexivity.
Qed.

Lemma P0_run_git_here cmd : preserves P0 (run_git_here cmd).
Proof.
  unfold run_git_here. apply preserves_bind; [apply preserves_get | intros st0].
  apply P0_in_env, run_git_quiet, notifications_quiet_stable.
Qed.

Lemma P0_push_main_and_branches : preserves P0 push_main_and_branches.
Proof.
  apply preserves_P0.
  - apply (push_main_and_branches_self _ (commit_alert_display_stable a)).
  - apply (push_main_and_branches_quiet _ (notifications_quiet_stable x)).
Qed.

Lemma P0_clean_persistence settings0 all_branches :
  preserves P0 (clean_persistence settings0 all_branches).
Proof.
  apply preserves_P0.
  - apply (clean_persistence_self (fun s => commit_alert s = a)).
  - apply (clean_persistence_quiet _ (notifications_quiet_stable x)).
Qed.

Lemma sync_branches_alerts all_branches : alerts (sync_branches all_branches).
Proof.
  unfold sync_branches.
  apply bind_alerts; [apply preserves_get | intros st0]. cbv zeta.
  apply bind_alerts; [apply P0_in_env, load_global_settings_quiet | intros settings].
  apply bind_alerts; [apply P0_clean_persistence | intros []].
  apply sync_tally_alerts.
Qed.

Lemma sync_after_fetch_alerts code err : alerts (sync_after_fetch code err).
Proof.
  unfold sync_after_fetch.
  apply bind_alerts; [apply preserves_get | intros st0]. cbv zeta.
  destruct (negb (code =? 0)%Z).
  - apply bind_alerts; [apply P0_on_self; reflexivity | intros _].
    apply quiet_alerts, P0_stop_polling.
  - apply bind_alerts;
      [apply P0_in_env, local_main_ahead_quiet, notifications_quiet_stable |].
    intros local_ahead. destruct (local_ahead >? 0)%Z.
    + apply bind_alerts; [apply P0_push_main_and_branches | intros pushed].
      apply quiet_alerts.
      destruct pushed; cbn [when]; [| apply preserves_ret].
      apply preserves_bind; [| intros _]; apply P0_on_self; reflexivity.
    + apply bind_alerts;
        [apply P0_in_env, get_tracked_branches_quiet, notifications_quiet_stable |].
      intros all_branches. apply sync_branches_alerts.
Qed.

Lemma sync_classify_alerts : alerts sync_classify.
Proof.
  unfold sync_classify, hide_merge_button.
  apply bind_alerts; [apply P0_on_self; reflexivity | intros _].
  apply bind_alerts; [apply P0_on_self; reflexivity | intros _].
  apply bind_alerts; [apply P0_on_self; reflexivity | intros _].
  unfold sync_fetch.
  apply bind_alerts; [apply preserves_get | intros st0]. cbv zeta.
  apply bind_alerts; [apply P0_run_git_here |].
  intros [[code out] err]. apply sync_after_fetch_alerts.
Qed.

End Alerts.

Lemma cycle_alerts_by_flag (st : sys) :
  notifications (env (_do_sync st).2)
  = notifications (env st) ++ alerts_of (sync_classify st).1 (commit_alert (self st)).
Proof.
  pose proof (sync_classify_alerts (commit_alert (self st)) (notifications (env st)) st
                (conj eq_refl eq_refl)) as Hc.
  unfold _do_sync, bind.
  destruct (sync_classify st) as [[r | e] st1]; cbn [fst snd] in Hc |- *.
  - apply (conclude_quiet _ (notifications_quiet_stable _) r st1 Hc).
  - exact Hc.
Qed.

Lemma observations_same_answers s branches w w' :
  same_answers w w' -> observations s branches w = observations s branches w'.
Proof.
  revert w w'. induction branches as [| b rest IH]; intros w w' Hw; [reflexivity |].
  cbn [observations]. cbv zeta.
  set (main_ref := remote s +:+ "/" +:+ main s).
  set (cwd := Some (repo_path s)).
  destruct (commits_ahead_runs main_ref b cwd (git s) w) as [E1 S1].
  destruct (commits_ahead_runs main_ref b cwd (git s) w') as [E1' _].
  rewrite E1, E1', (S1 w' Hw).
  destruct (commits_ahead main_ref b cwd (git s) w).1 as [ahead | e]; [| reflexivity].
  pose proof (proj2 (same_answers_ran (rev_list_cmd (git s) main_ref b) cwd w w' Hw))
    as Hw1.
  destruct (commits_behind_runs main_ref b cwd (git s)
              (ran (rev_list_cmd (git s) main_ref b) cwd w)) as [E2 S2].
  destruct (commits_behind_runs main_ref b cwd (git s)
              (ran (rev_list_cmd (git s) main_ref b) cwd w')) as [E2' _].
  rewrite E2, E2', (S2 _ Hw1).
  destruct (commits_behind main_ref b cwd (git s) _).1 as [behind | e]; [| reflexivity].
  erewrite IH; [reflexivity |].
  apply same_answers_ran, Hw1.
Qed.

Lemma observations_config s s' branches w :
  same_config s s' -> observations s branches w = observations s' branches w.
Proof.
  intros (Hg & Hr & Hm & Hp & Hrp & Hrest).
  revert w. induction branches as [| b rest IH]; intros w; [reflexivity |].
  cbn [observations]. cbv zeta. rewrite <- Hg, <- Hr, <- Hm, <- Hrp.
  destruct (commits_ahead _ _ _ _ _) as [[ahead | e] w1]; [| reflexivity].
  destruct (commits_behind _ _ _ _ _) as [[behind | e] w2]; [| reflexivity].
  rewrite IH. reflexivity.
Qed.

(** The loop of the classification against the observations: the flag is
    raised exactly by a new commit among them. *)
Lemma classify_flag branches t st :
  match observations (self st) branches (env st) with
  | Return obs =>
      exists t' st',
        classify branches t st = (Return t', st') /\
        new_commits_detected t' =
          new_commits_detected t ||
          new_commit_among (remote (self st)) (last_commit_count (self st)) obs
  | Raise e => exists st', classify branches t st = (Raise e, st')
  end.
Proof.
  revert t st. induction branches as [| b rest IH]; intros t st.
  - cbn. exists t, st. split; [reflexivity |]. rewrite orb_false_r. reflexivity.
  - cbn [observations classify]. cbv zeta. unfold classify_branch.
    rewrite bind_assoc. erewrite bind_Return by reflexivity. cbv beta zeta.
    rewrite bind_assoc.
    destruct (commits_ahead _ _ _ _ (env st)) as [[ahead | e] w1] eqn:Ha.
    2:{ eexists. erewrite bind_Raise by (unfold in_env; rewrite Ha; reflexivity).
        reflexivity. }
    erewrite bind_Return by (unfold in_env; rewrite Ha; reflexivity).
    rewrite bind_assoc.
    destruct (commits_behind _ _ _ _ w1) as [[behind | e] w2] eqn:Hb.
    2:{ eexists.
        erewrite bind_Raise by (unfold in_env; cbn [env self]; rewrite Hb; reflexivity).
        reflexivity. }
    erewrite bind_Return by (unfold in_env; cbn [env self]; rewrite Hb; reflexivity).
    destruct (Z.gtb_spec ahead 0) as [Hpos | Hle].
    + rewrite bind_assoc. erewrite bind_Return by reflexivity. cbv beta zeta.
      rewrite bind_assoc. erewrite bind_Return by reflexivity.
      erewrite bind_Return by reflexivity.
      cbn [self env].
      set (short := short_name (remote (self st)) b).
      set (s1 := set_last_commit_count
                   (<[short := ahead]> (last_commit_count (self st))) (self st)).
      match goal with
      | |- context [classify rest ?t2 (Sys s1 w2)] =>
          specialize (IH t2 (Sys s1 w2)); set (tally2 := t2) in *
      end.
      cbn [self env] in IH.
      rewrite (observations_config s1 (self st)) in IH by (unfold s1; repeat split).
      destruct (observations (self st) rest w2) as [obs | e].
      * destruct IH as (t' & st' & Hrun & Hflag). exists t', st'.
        split; [exact Hrun |]. rewrite Hflag.
        cbn [new_commit_among fst snd].
        destruct (Z.gtb_spec ahead 0) as [_ | Hc]; [| lia].
        fold short. unfold tally2, s1. cbn [remote last_commit_count set_last_commit_count].
        destruct (behind >? 0)%Z, (ahead >? _)%Z;
          cbn [new_commits_detected orb]; rewrite ?orb_true_r, ?orb_false_r; reflexivity.
      * exact IH.
    + erewrite bind_Return by reflexivity.
      specialize (IH t (Sys (self st) w2)). cbn [self env] in IH.
      destruct (observations (self st) rest w2) as [obs | e].
      * destruct IH as (t' & st' & Hrun & Hflag). exists t', st'.
        split; [exact Hrun |]. rewrite Hflag.
        cbn [new_commit_among fst snd].
        destruct (Z.gtb_spec ahead 0) as [Hc | _]; [lia | reflexivity].
      * exact IH.
Qed.

Lemma clean_persistence_answers settings0 all_branches st :
  exists w',
    clean_persistence settings0 all_branches st = (Return tt, Sys (self st) w') /\
    same_answers (env st) w'.
Proof.
  unfold clean_persistence.
  erewrite bind_Return by reflexivity. cbv beta zeta.
  destruct (default ∅ (branch_update_enabled settings0) !! repo_path (self st))
    as [saved |].
  - destruct (prune_saved _ _ saved false) as [saved' cleaned].
    destruct cleaned; cbn [when].
    + eexists. split; [reflexivity |]. split; reflexivity.
    + exists (env st). split; [destruct st; reflexivity | split; reflexivity].
  - exists (env st). split; [destruct st; reflexivity | split; reflexivity].
Qed.

(** The alert of the tally is the alert of a new commit among the counts
    of the enabled branches. *)
Lemma sync_branches_flag all_branches st a :
  alerts_of (sync_branches all_branches st).1 a =
    match observations (self st) (enabled_of (self st) (settings_file (env st)) all_branches)
            (env st) with
    | Return obs =>
        if new_commit_among (remote (self st)) (last_commit_count (self st)) obs
        then a else []
    | Raise _ => []
    end.
Proof.
  destruct st as [s w]. unfold sync_branches.
  erewrite bind_Return by reflexivity. cbv beta zeta.
  erewrite bind_Return by reflexivity.
  set (st := Sys s w).
  fold (enabled_of (self st) (settings_file (env st)) all_branches).
  set (branches := enabled_of (self st) (settings_file (env st)) all_branches).
  destruct (clean_persistence_answers (settings_file (env st)) all_branches st)
    as (w' & Hclean & Hsame).
  change (load_global_settings (env st)).1 with (Return (settings_file (env st))).
  erewrite bind_Return by exact Hclean.
  rewrite (observations_same_answers _ _ _ _ Hsame).
  pose proof (classify_flag branches (Tally [] [] false) (Sys (self st) w')) as Hflag.
  cbn [self env] in Hflag. unfold sync_tally.
  destruct (observations (self st) branches w') as [obs | e].
  - destruct Hflag as (t' & st' & Hrun & Hnew).
    erewrite bind_Return by exact Hrun.
    cbn [new_commits_detected orb] in Hnew. rewrite <- Hnew.
    destruct (new_commits_detected t') eqn:Ht; cbn [when].
    + unfold announce_new_commit, bind, get, in_env, play_sound, send_notification,
        modify, when, after, on_self, ret.
      destruct (desktop_notifications (self st')); cbn; rewrite Ht; reflexivity.
    + cbn. rewrite Ht. reflexivity.
  - destruct Hflag as (st' & Hrun).
    erewrite bind_Raise by exact Hrun. reflexivity.
Qed.

Lemma sync_classify_flag st a :
  alerts_of (sync_classify st).1 a = if finds_new_commit st then a else [].
Proof.
  unfold finds_new_commit, listing_of_cycle. cbv zeta.
  rewrite sync_classify_eq, sync_fetch_eq. cbv zeta.
  unfold exit_code.
  change (fetch_cmd (self (reset st))) with (fetch_cmd (self st)).
  change (here (reset st)) with (here st).
  change (env (reset st)) with (env st).
  destruct (run_git_value _ _) as [[code out] err]. cbn [fst snd].
  unfold sync_after_fetch. unfold bind at 1. unfold get at 1. cbv beta iota zeta.
  cbn [self env].
  change (git (self (reset st))) with (git (self st)).
  change (remote (self (reset st))) with (remote (self st)).
  change (main (self (reset st))) with (main (self st)).
  change (prefix (self (reset st))) with (prefix (self st)).
  change (repo_path (self (reset st))) with (repo_path (self st)).
  destruct (negb (code =? 0)%Z); [reflexivity |].
  unfold local_ahead_after_fetch, fetch_cmd, here.
  destruct (local_main_ahead_returns (remote (self st)) (main (self st))
              (Some (repo_path (self st))) (git (self st))
              (ran [git (self st); "fetch"; remote (self st)]
                   (Some (repo_path (self st))) (env st))) as [n Hn].
  unfold bind at 1, in_env at 1. cbn [env self]. rewrite Hn. cbn [fst].
  destruct (n >? 0)%Z.
  - unfold bind.
    destruct (push_main_and_branches _) as [[pushed | e] st3]; [| reflexivity].
    destruct (when pushed _ st3) as [[[] | e] st4]; reflexivity.
  - unfold bind at 1, in_env at 1. cbn [env self].
    unfold listing_world, local_count_cmd, fetch_cmd, here.
    rewrite get_tracked_branches_eq. cbn [fst snd].
    destruct (listing_of _) as [all_branches | e]; [| reflexivity].
    rewrite sync_branches_flag. cbn [self env].
    rewrite !settings_file_ran.
    rewrite (observations_config (self (reset st)) (self st)) by repeat split.
    unfold enabled_of.
    change (remote (self (reset st))) with (remote (self st)).
    change (last_commit_count (self (reset st))) with (last_commit_count (self st)).
    change (repo_path (self (reset st))) with (repo_path (self st)).
    destruct (observations _ _ _) as [obs | e]; reflexivity.
Qed.

(** X27. A cycle alerts at most once, and only for a new commit.  The
    notifications a cycle requests are exactly these.  When the cycle gets
    as far as the listing, every count of the enabled branches succeeds,
    and one of these branches is ahead by more than the count recorded for
    it on the tab (0 when none is recorded; a count is recorded as soon as
    its branch has been looked at): a "commit" sound, followed by one
    desktop notification "New commit detected!" if desktop notifications
    are on.  In every other case (the fetch fails, local main is flushed,
    the listing or a count raises, no count has grown) nothing at all.
    The decision that follows, stops and failed pushes included, requests
    no notification. *)
Theorem a_cycle_alerts_at_most_once (st : sys) :
  notifications (env (_do_sync st).2)
  = notifications (env st) ++
    (if finds_new_commit st then commit_alert (self st) else []).
Proof. rewrite cycle_alerts_by_flag, sync_classify_flag. reflexivity. Qed.

Lemma a_cycle_alerts_witness :
  let seen := set_last_commit_count {[ "claude/a" := 3%Z ]} tab0 in
  notifications (env (_do_sync (Sys tab0 one_ahead)).2)
  = [Sound "commit"; Desktop "GitHerd — repo" "New commit detected!" "normal"] /\
  notifications (env (_do_sync (Sys seen one_ahead)).2) = [].
Proof.
  cbv zeta. rewrite !a_cycle_alerts_at_most_once.
  split; vm_compute; reflexivity.
Defined.

(** * The short name of a branch *)

Lemma prefix_app old n : String.prefix old (old +:+ n) = true.
Proof.
  induction old as [| c old IH]; [destruct n; reflexivity |].
  change (String c old +:+ n) with (String c (old +:+ n)).
  cbn [String.prefix]. destruct (ascii_dec c c); [exact IH | contradiction].
Qed.

Lemma replace_go_skip old new s1 s2 :
  Py.replace_go old new (String.length s1) (s1 +:+ s2) = Py.replace_go old new 0 s2.
Proof.
  induction s1 as [| c s1 IH]; [reflexivity |].
  change (String c s1 +:+ s2) with (String c (s1 +:+ s2)).
  cbn [String.length Py.replace_go]. exact IH.
Qed.

(** X28. The short name of a branch drops every "<remote>/", not only the
    leading one.  For a branch listed as [<remote>/<name>], the short name
    the engine pushes to, records and shows is [<name>] with every further
    occurrence of "<remote>/" removed as well: it is [<name>] itself only
    when "<remote>/" does not occur in [<name>]. *)
Theorem short_name_drops_every_remote_prefix (remote name : string) :
  short_name remote (remote +:+ "/" +:+ name) = Py.replace name (remote +:+ "/") "" /\
  (Py.replace name (remote +:+ "/") "" = name ->
   short_name remote (remote +:+ "/" +:+ name) = name).
Proof.
  assert (H : short_name remote (remote +:+ "/" +:+ name)
              = Py.replace name (remote +:+ "/") "").
  { unfold short_name, Py.replace.
    assert (Happ : remote +:+ "/" +:+ name = (remote +:+ "/") +:+ name).
    { induction remote as [| c r IH]; [reflexivity |].
      change (String c r +:+ "/" +:+ name) with (String c (r +:+ "/" +:+ name)).
      rewrite IH. reflexivity. }
    rewrite Happ.
    destruct (remote +:+ "/") as [| c old'] eqn:Hold.
    { destruct remote; discriminate Hold. }
    change (String c old' +:+ name) with (String c (old' +:+ name)).
    cbn [Py.replace_go].
    change (String c (old' +:+ name)) with (String c old' +:+ name).
    rewrite prefix_app.
    change ("" +:+ ?s) with s.
    replace (String.length (String c old') - 1)%nat with (String.length old')
      by (cbn [String.length]; lia).
    apply replace_go_skip. }
  split; [exact H |]. intros Hn. rewrite H. exact Hn.
Qed.

Lemma short_name_witness :
  short_name "origin" "origin/claude/origin/fix" = "claude/fix" /\
  short_name "origin" "origin/claude/a" = "claude/a".
Proof.
  destruct (short_name_drops_every_remote_prefix "origin" "claude/origin/fix") as [H1 _].
  destruct (short_name_drops_every_remote_prefix "origin" "claude/a") as [_ H2].
  split; [exact H1 | apply H2; reflexivity].
Defined.

(** * The window title *)

Lemma filter_length_pos {A} (f : A -> bool) (l : list A) (x : A) :
  x ∈ l -> f x = true -> (1 <= length (List.filter f l))%nat.
Proof.
  intros Hin Hf. apply list_elem_of_In in Hin.
  assert (Hx : In x (List.filter f l)) by (apply filter_In; split; assumption).
  destruct (List.filter f l); [contradiction | cbn; lia].
Qed.

(** X29. A tab the engine stopped is counted as STOP in the window title.
    When a cycle has left branches pending on a tab, whatever the other
    tabs are doing, the title names the number of repositories, the number
    of tabs polling and a number of STOP that is at least one. *)
Theorem stopped_tab_is_counted_in_the_title
  (ts : list (string * session)) (name : string) (st : sys) :
  let tab := self (_do_sync st).2 in
  pending_branches tab ≠ [] ->
  (name, tab) ∈ ts ->
  (1 <= stopped_count ts)%Z /\
  title_of ts
  = "GitHerd — " +:+ Py.str (Z.of_nat (length ts)) +:+ " repos, "
      +:+ Py.str (polling_count ts) +:+ " polling, "
      +:+ Py.str (stopped_count ts) +:+ " STOP".
Proof.
  cbv zeta. intros Hne Hin.
  pose proof (_do_sync_pending_stopped st Hne) as Hp.
  assert (Hs : (1 <= stopped_count ts)%Z).
  { unfold stopped_count.
    pose proof (filter_length_pos
                  (fun t : string * session =>
                     nonempty (pending_branches t.2) && negb (polling t.2))
                  ts _ Hin) as Hlen.
    cbn [snd] in Hlen. rewrite Hp in Hlen.
    destruct (pending_branches (self (_do_sync st).2)); [contradiction |].
    specialize (Hlen eq_refl). lia. }
  split; [exact Hs |].
  unfold title_of.
  destruct ts as [| t ts']; [inversion Hin |].
  destruct (Z.eqb_spec (Z.of_nat (length (t :: ts'))) 0) as [H0 | _];
    [cbn [length] in H0; lia |].
  destruct (Z.gtb_spec (stopped_count (t :: ts')) 0) as [_ | Hle]; [reflexivity | lia].
Qed.

Lemma stopped_tab_witness :
  let tab := self (_do_sync (Sys tab0 two_ahead_shared)).2 in
  title_of [("repo", tab)] = "GitHerd — 1 repos, 0 polling, 1 STOP".
Proof.
  destruct (stopped_tab_is_counted_in_the_title
              [("repo", self (_do_sync (Sys tab0 two_ahead_shared)).2)] "repo"
              (Sys tab0 two_ahead_shared)) as [_ Ht].
  - vm_compute. discriminate.
  - apply list_elem_of_here.
  - cbv zeta. rewrite Ht. vm_compute. reflexivity.
Defined.
